(** * A shallow embedding of the btp full-node service and its ABI packer

    The development follows the Go sources of the repository: the service
    object of package [btp] (construction, shutdown, the API backend and the
    public / debug RPC endpoints) and the method packer of package
    [accounts/abi].  Collaborators that live in other packages (the chain
    manager, the trie iterator, the RLP codec, the hash function) are either
    taken as parameters or modelled from the prose specification; each such
    definition says so in its doc comment. *)

From Stdlib Require Import ZArith Lia List.
From Stdlib Require Import Strings.Byte.
From stdpp Require Import gmap strings list pretty sorting.

Import ListNotations.

#[local] Set Warnings "-register-all,-clear-no-such-hyp".

(* ===================================================================== *)
(** * Part I: definitions *)
(* ===================================================================== *)

(** ** Bytes and byte strings *)

Abbreviation byte := Byte.byte.
Abbreviation bytes := (list Byte.byte).

#[global] Instance byte_eq_decision : EqDecision byte := Byte.byte_eq_dec.

#[global] Instance byte_countable : Countable byte :=
  inj_countable Byte.to_N Byte.of_N Byte.of_to_N.

(** The byte holding [z mod 256]. *)
Definition byte_of_Z (z : Z) : byte :=
  default Byte.x00 (Byte.of_N (Z.to_N (z mod 256))).

Definition Z_of_byte (b : byte) : Z := Z.of_N (Byte.to_N b).

(** Go's [[]byte(s)] on a string. *)
Definition bytes_of_string (s : string) : bytes := String.list_byte_of_string s.

(** Big-endian reading of a byte string as an unsigned number. *)
Definition be_to_Z (b : bytes) : Z :=
  fold_left (fun acc x => acc * 256 + Z_of_byte x)%Z b 0%Z.

(** Minimal big-endian bytes of an unsigned number, most significant byte
    first; [fuel] bounds the number of bytes produced. *)
Fixpoint be_of_Z (fuel : nat) (z : Z) (acc : bytes) : bytes :=
  match fuel with
  | O => acc
  | S fuel' =>
      if (z <=? 0)%Z then acc
      else be_of_Z fuel' (z / 256)%Z (byte_of_Z z :: acc)
  end.

(** Go's [uint64(x)] conversion: the value reduced modulo [2^64]. *)
Definition uint64 (z : Z) : Z := (z mod 2 ^ 64)%Z.

(** ** Errors

    Go functions returning [(T, error)] are embedded as [result T]. *)

Inductive result (A : Type) : Type :=
| Ok (a : A)
| Err (msg : string).
Arguments Ok {A} a.
Arguments Err {A} msg.

Definition bind {A B} (r : result A) (k : A -> result B) : result B :=
  match r with
  | Ok a => k a
  | Err e => Err e
  end.

Notation "x <- r ;;; k" := (bind r (fun x => k))
  (at level 100, r at next level, right associativity).

Definition is_ok {A} (r : result A) : bool :=
  match r with Ok _ => true | Err _ => false end.

(** ** The recursive-length-prefix codec *)

Module rlp.

(** Modelled from the spec: package [rlp] is not among the sources.  The
    spec (section 6) describes the format: integers big-endian minimal,
    byte strings length-tagged, lists recursively framed.  The tags are
    those of the format: a single byte below [0x80] stands for itself, a
    string of up to 55 bytes is tagged [0x80 + len], a longer one
    [0xb7 + len(len)] followed by the length; lists use [0xc0] and [0xf7]
    the same way. *)
Inductive item : Type :=
| String (b : bytes)
| List (items : list item).

(** Modelled from the spec: the eight-byte big-endian writer used for
    integers and for lengths. *)
Definition putint (i : Z) : bytes := be_of_Z 8 i [].

(** Modelled from the spec: the tag (and length) in front of a payload of
    [size] bytes; [smalltag] is [0x80] for strings and [0xc0] for lists,
    [largetag] is [0xb7] or [0xf7]. *)
Definition puthead (smalltag largetag : Z) (size : Z) : bytes :=
  if (size <? 56)%Z then [byte_of_Z (smalltag + size)]
  else
    let sizebytes := putint size in
    byte_of_Z (largetag + Z.of_nat (length sizebytes)) :: sizebytes.

(** Modelled from the spec: the encoding of a byte string. *)
Definition encodeString (b : bytes) : bytes :=
  match b with
  | [x] => if (Z_of_byte x <? 128)%Z then [x]
           else puthead 128 183 1 ++ b
  | _ => puthead 128 183 (Z.of_nat (length b)) ++ b
  end.

(** Modelled from the spec: [EncodeToBytes] on a value built of byte
    strings and lists. *)
Fixpoint EncodeToBytes (v : item) : bytes :=
  match v with
  | String b => encodeString b
  | List items =>
      let payload := concat (map EncodeToBytes items) in
      puthead 192 247 (Z.of_nat (length payload)) ++ payload
  end.

(** Modelled from the spec: an unsigned integer is the byte string of its
    minimal big-endian form (zero is the empty string). *)
Definition ofUint (i : Z) : item := String (putint i).

(** Modelled from the spec: a Go string is the byte string of its bytes. *)
Definition ofString (s : string) : item := String (bytes_of_string s).

(** Modelled from the spec: the kinds of an encoded value. *)
Inductive Kind : Type := KByte | KString | KList.

(** Modelled from the spec: the length that follows a long tag, [slen]
    bytes of it; lengths below 56 and lengths written with a leading zero
    are not canonical. *)
Definition readSize (b : bytes) (slen : Z) : result Z :=
  if (Z.of_nat (length b) <? slen)%Z then Err "unexpected EOF"
  else
    let s := be_to_Z (take (Z.to_nat slen) b) in
    if (s <? 56)%Z || match b with b0 :: _ => (Z_of_byte b0 =? 0)%Z | [] => false end
    then Err "rlp: non-canonical size information"
    else Ok s.

(** Modelled from the spec: the kind, tag size and content size of the
    value at the front of [buf]. *)
Definition readKind (buf : bytes) : result (Kind * Z * Z) :=
  match buf with
  | [] => Err "unexpected EOF"
  | b0 :: tl =>
      let b := Z_of_byte b0 in
      sized <-
        (if (b <? 128)%Z then Ok (KByte, 0, 1)
         else if (b <? 184)%Z then
           if ((b - 128 =? 1)
               && match tl with b1 :: _ => Z_of_byte b1 <? 128 | [] => false end)%Z
           then Err "rlp: non-canonical size information"
           else Ok (KString, 1, b - 128)
         else if (b <? 192)%Z then
           cs <- readSize tl (b - 183) ;;; Ok (KString, b - 183 + 1, cs)
         else if (b <? 248)%Z then Ok (KList, 1, b - 192)
         else
           cs <- readSize tl (b - 247) ;;; Ok (KList, b - 247 + 1, cs))%Z ;;;
      let '(k, tagsize, contentsize) := sized in
      if (Z.of_nat (length buf) - tagsize <? contentsize)%Z
      then Err "rlp: value size exceeds available input length"
      else Ok (k, tagsize, contentsize)
  end.

(** Modelled from the spec: [Split] returns the kind and content of the
    first value of [b] and what follows it. *)
Definition Split (b : bytes) : result (Kind * bytes * bytes) :=
  sized <- readKind b ;;;
  let '(k, ts, cs) := sized in
  Ok (k, take (Z.to_nat cs) (drop (Z.to_nat ts) b), drop (Z.to_nat (ts + cs)) b).

End rlp.

(** ** Package [common] *)

Module common.

(** Modelled from the spec: a hash has 32 bytes (section 3). *)
Definition HashLength : nat := 32.

(** A hash is its 32 bytes. *)
Abbreviation Hash := (list Byte.byte).

(** Modelled from the spec: [BytesToHash] is declared in package [common],
    which is not among the sources.  A hash is a 32-byte identifier (spec,
    section 3): a longer input keeps its last 32 bytes, a shorter one is
    padded with zero bytes on the left. *)
Definition BytesToHash (b : bytes) : Hash :=
  let b := drop (length b - HashLength) b in
  replicate (HashLength - length b) Byte.x00 ++ b.

End common.

(** ** Protocol parameters and build information *)

Module params.

(** Modelled from the spec: the constant is declared in package [params],
    which is not among the sources; the spec's data model bounds
    [extraData] by 32 bytes. *)
Definition MaximumExtraDataSize : Z := 32.

(** Modelled from the spec: [ChainConfig] is declared in package [params].
    It is tagged with the activation block numbers of the forks (spec,
    sections 4.3 and 6); a fork that is not scheduled has no number.
    [ChainID] is a big integer. *)
Record ChainConfig : Type := {
  ChainID : Z;
  HomesteadBlock : option Z;
  EIP150Block : option Z;
  EIP155Block : option Z;
  EIP158Block : option Z;
  ByzantiumBlock : option Z;
  ConstantinopleBlock : option Z;
  PetersburgBlock : option Z;
  Clique : bool;
}.

(** Modelled from the spec: a fork scheduled at block [s] is active at
    every head from [s] on. *)
Definition isForked (s : option Z) (head : Z) : bool :=
  match s with
  | None => false
  | Some s => (s <=? head)%Z
  end.

(** Modelled from the spec: EIP-155 is active from its block on. *)
Definition IsEIP155 (c : ChainConfig) (num : Z) : bool :=
  isForked (EIP155Block c) num.

(** Modelled from the spec: the error of an incompatible fork-config
    upgrade names the block the chain must be rewound to (section 7). *)
Record ConfigCompatError : Type := {
  What : string;
  RewindTo : Z;
}.

End params.

(** The values [makeExtraData] reads from its build: the three components
    of the client version ([params.VersionMajor], [VersionMinor],
    [VersionPatch]) and the two strings of package [runtime]. *)
Record BuildInfo : Type := {
  VersionMajor : Z;
  VersionMinor : Z;
  VersionPatch : Z;
  runtimeVersion : string;
  GOOS : string;
}.

(** ** [makeExtraData] (file of the service object, lines 289-304) *)

(** The default extra data: the encoding of
    [[uint(Major<<16 | Minor<<8 | Patch), "gbtp", runtime.Version(), runtime.GOOS]]. *)
Definition defaultExtraData (bi : BuildInfo) : bytes :=
  rlp.EncodeToBytes
    (rlp.List
       [ rlp.ofUint
           (uint64 (Z.lor (Z.lor (Z.shiftl (VersionMajor bi) 16)
                                 (Z.shiftl (VersionMinor bi) 8))
                          (VersionPatch bi)));
         rlp.ofString "gbtp";
         rlp.ofString (runtimeVersion bi);
         rlp.ofString (GOOS bi) ]).

(** [len(extra)] is a non-negative [int], so [uint64(len(extra))] is the
    length itself. *)
Definition makeExtraData (bi : BuildInfo) (extra : bytes) : bytes :=
  let extra :=
    if decide (length extra = 0) then defaultExtraData bi else extra in
  if (params.MaximumExtraDataSize <? Z.of_nat (length extra))%Z
  then []
  else extra.

(** A release build: client version 1.9.9 built with Go 1.13.4 on Linux. *)
Definition releaseBuild : BuildInfo :=
  {| VersionMajor := 1; VersionMinor := 9; VersionPatch := 9;
     runtimeVersion := "go1.13.4"; GOOS := "linux" |}.

(** A development toolchain reports a long version string. *)
Definition develBuild : BuildInfo :=
  {| VersionMajor := 1; VersionMinor := 9; VersionPatch := 9;
     runtimeVersion := "devel +5d1a95175e Tue Oct 29 14:03:31 2019 +0000";
     GOOS := "linux" |}.

(** ** Package [accounts/abi]: methods and their packing *)

Module abi.

(** Modelled from the spec: [Type] is declared in a file that is not among
    the sources.  Its [String] mbtpod is fixed by the tables of
    [method_test.go]: an elementary type prints as its canonical name
    ([int] is kept as [int256]), a tuple as its parenthesised components, a
    slice as its element followed by [[]], an array by [[n]]. *)
Inductive Ty : Type :=
| Elementary (name : string)
| Tuple (elems : list Ty)
| Slice (elem : Ty)
| Array (elem : Ty) (size : nat).

Fixpoint Ty_String (t : Ty) : string :=
  match t with
  | Elementary name => name
  | Tuple elems => "(" +:+ String.concat "," (map Ty_String elems) +:+ ")"
  | Slice elem => Ty_String elem +:+ "[]"
  | Array elem size => Ty_String elem +:+ "[" +:+ pretty size +:+ "]"
  end.

Record Argument : Type := {
  arg_Name : string;
  arg_Type : Ty;
  arg_Indexed : bool;
}.

Abbreviation Arguments := (list Argument).

Record Mbtpod : Type := {
  Name : string;
  Const : bool;
  Inputs : Arguments;
  Outputs : Arguments;
}.

Record Event : Type := {
  ev_Name : string;
  ev_Anonymous : bool;
  ev_Inputs : Arguments;
}.

Record ABI : Type := {
  Constructor : Mbtpod;
  Mbtpods : gmap string Mbtpod;
  Events : gmap string Event;
}.

(** The hash function of package [crypto], which is outside the repository:
    any function producing 32-byte digests. *)
Class Hasher : Type := {
  Keccak256 : bytes -> bytes;
  Keccak256_length : forall data, length (Keccak256 data) = 32;
}.

(** [Arguments.Pack] is declared in a file that is not among the sources; it
    is a parameter of the packer, over any type [V] of Go values. *)
Class ArgPacker (V : Type) : Type := {
  Arguments_Pack : Arguments -> list V -> result bytes;
}.

(** [Sig] (method.go, lines 48-54). *)
Definition Sig (mbtpod : Mbtpod) : string :=
  let types := map (fun input => Ty_String (arg_Type input)) (Inputs mbtpod) in
  Name mbtpod +:+ "(" +:+ String.concat "," types +:+ ")".

(** [String] (method.go, lines 56-73). *)
Definition Mbtpod_String (mbtpod : Mbtpod) : string :=
  let inputs :=
    map (fun input => Ty_String (arg_Type input) +:+ " " +:+ arg_Name input)
        (Inputs mbtpod) in
  let outputs :=
    map (fun output =>
           Ty_String (arg_Type output) +:+
           (if decide (0 < String.length (arg_Name output))
            then " " +:+ arg_Name output else ""))
        (Outputs mbtpod) in
  let constant := if Const mbtpod then "constant " else "" in
  "function " +:+ Name mbtpod +:+ "(" +:+ String.concat ", " inputs +:+ ") "
    +:+ constant +:+ "returns(" +:+ String.concat ", " outputs +:+ ")".

(** [Id] (method.go, lines 75-77): the first four bytes of the digest. *)
Definition Id `{Hasher} (mbtpod : Mbtpod) : bytes :=
  take 4 (Keccak256 (bytes_of_string (Sig mbtpod))).

(** [Pack] (lines 54-74 of the ABI file). *)
Definition Pack `{Hasher} {V} `{ArgPacker V}
    (abi : ABI) (name : string) (args : list V) : result bytes :=
  if decide (name = "") then
    (* constructor *)
    arguments <- Arguments_Pack (Inputs (Constructor abi)) args ;;;
    Ok arguments
  else
    match Mbtpods abi !! name with
    | None => Err ("mbtpod '" +:+ name +:+ "' not found")
    | Some mbtpod =>
        arguments <- Arguments_Pack (Inputs mbtpod) args ;;;
        (* Pack up the mbtpod ID too if not a constructor and return *)
        Ok (Id mbtpod ++ arguments)
    end.

(** One entry of the JSON array read by [UnmarshalJSON]. *)
Record Field : Type := {
  f_Type : string;
  f_Name : string;
  f_Constant : bool;
  f_Anonymous : bool;
  f_Inputs : Arguments;
  f_Outputs : Arguments;
}.

(** The renaming loop of [UnmarshalJSON] (lines 139-144 and 152-157):
    [name] is tried first, then [base0], [base1], ... until a name that is
    not yet a key.  A map of [n] keys needs at most [n + 1] attempts, which
    is the fuel [freshName] gives the loop. *)
Fixpoint freshName_loop {X} (m : gmap string X) (base : string)
    (fuel idx : nat) (name : string) : string :=
  match m !! name, fuel with
  | None, _ => name
  | Some _, O => name
  | Some _, S fuel' => freshName_loop m base fuel' (S idx) (base +:+ pretty idx)
  end.

Definition freshName {X} (m : gmap string X) (base : string) : string :=
  freshName_loop m base (S (size m)) 0 base.

Definition addField (abi : ABI) (field : Field) : ABI :=
  if decide (f_Type field = "constructor") then
    {| Constructor := {| Name := ""; Const := false;
                         Inputs := f_Inputs field; Outputs := [] |};
       Mbtpods := Mbtpods abi; Events := Events abi |}
  else if decide (f_Type field = "function" \/ f_Type field = "") then
    let name := freshName (Mbtpods abi) (f_Name field) in
    {| Constructor := Constructor abi;
       Mbtpods := <[name := {| Name := name; Const := f_Constant field;
                               Inputs := f_Inputs field;
                               Outputs := f_Outputs field |}]> (Mbtpods abi);
       Events := Events abi |}
  else if decide (f_Type field = "event") then
    let name := freshName (Events abi) (f_Name field) in
    {| Constructor := Constructor abi;
       Mbtpods := Mbtpods abi;
       Events := <[name := {| ev_Name := name;
                              ev_Anonymous := f_Anonymous field;
                              ev_Inputs := f_Inputs field |}]> (Events abi) |}
  else abi.

(** [UnmarshalJSON] (lines 115-167) after the generic JSON decoding of the
    array into [fields]: both maps start empty. *)
Definition UnmarshalJSON (fields : list Field) : ABI :=
  fold_left addField fields
    {| Constructor := {| Name := ""; Const := false; Inputs := []; Outputs := [] |};
       Mbtpods := ∅; Events := ∅ |}.

End abi.

(** ** Keccak-256

    The digest of package [crypto], written out so that mbtpod identifiers
    can be computed: the Keccak-f[1600] permutation on 25 lanes of 64 bits,
    rate 136 bytes, the original Keccak padding, 32 bytes of output. *)

Module keccak.
Local Open Scope Z_scope.

Definition mask64 : Z := 2 ^ 64 - 1.

Definition rotl64 (x : Z) (n : Z) : Z :=
  Z.land (Z.lor (Z.shiftl x n) (Z.shiftr x (64 - n))) mask64.

Definition lane (st : list Z) (x y : nat) : Z := nth (x mod 5 + 5 * (y mod 5)) st 0.

Definition roundConstants : list Z :=
  [ 0x0000000000000001; 0x0000000000008082; 0x800000000000808A;
    0x8000000080008000; 0x000000000000808B; 0x0000000080000001;
    0x8000000080008081; 0x8000000000008009; 0x000000000000008A;
    0x0000000000000088; 0x0000000080008009; 0x000000008000000A;
    0x000000008000808B; 0x800000000000008B; 0x8000000000008089;
    0x8000000000008003; 0x8000000000008002; 0x8000000000000080;
    0x000000000000800A; 0x800000008000000A; 0x8000000080008081;
    0x8000000000008080; 0x0000000080000001; 0x8000000080008008 ].

(** Rotation offsets, indexed by [x + 5 * y]. *)
Definition rotationOffsets : list Z :=
  [ 0; 1; 62; 28; 27;
    36; 44; 6; 55; 20;
    3; 10; 43; 25; 39;
    41; 45; 15; 21; 8;
    18; 2; 61; 56; 14 ].

Definition coords : list (nat * nat) :=
  flat_map (fun y => map (fun x => (x, y)) (seq 0 5)) (seq 0 5).

Definition theta (st : list Z) : list Z :=
  let c := map (fun x => fold_left Z.lxor (map (fun y => lane st x y) (seq 0 5)) 0) (seq 0 5) in
  let d := map (fun x => Z.lxor (nth ((x + 4) mod 5) c 0) (rotl64 (nth ((x + 1) mod 5) c 0) 1)) (seq 0 5) in
  map (fun '(x, y) => Z.lxor (lane st x y) (nth x d 0)) coords.

(** [rho] and [pi] together: lane [(x, y)] moves, rotated, to [(y, 2x + 3y)]. *)
Definition rhoPi (st : list Z) : list Z :=
  map (fun '(x, y) =>
         (* the source lane (x', y') with x = y' and y = 2x' + 3y' *)
         let x' := ((x + 3 * y) mod 5)%nat in
         let y' := x in
         rotl64 (lane st x' y') (nth (x' + 5 * y') rotationOffsets 0)) coords.

Definition chi (st : list Z) : list Z :=
  map (fun '(x, y) =>
         Z.lxor (lane st x y)
                (Z.land (Z.lxor (lane st (x + 1) y) mask64) (lane st (x + 2) y))) coords.

Definition iota (rc : Z) (st : list Z) : list Z :=
  match st with
  | a :: rest => Z.lxor a rc :: rest
  | [] => []
  end.

Definition round (st : list Z) (rc : Z) : list Z := iota rc (chi (rhoPi (theta st))).

Definition keccakF (st : list Z) : list Z := fold_left round roundConstants st.

(** The rate of Keccak-256 in bytes. *)
Definition rate : nat := 136.

(** Little-endian reading of up to eight bytes. *)
Definition le_to_Z (b : bytes) : Z :=
  fold_right (fun x acc => Z_of_byte x + 256 * acc) 0 b.

Fixpoint lanes_of (n : nat) (b : bytes) : list Z :=
  match n with
  | O => []
  | S n' => le_to_Z (take 8 b) :: lanes_of n' (drop 8 b)
  end.

(** The original Keccak padding: [0x01], zeros, [0x80] up to the rate. *)
Definition pad (msg : bytes) : bytes :=
  let r := (rate - length msg mod rate)%nat in
  if decide (r = 1%nat) then msg ++ [byte_of_Z 0x81]
  else msg ++ [byte_of_Z 0x01] ++ replicate (r - 2) (byte_of_Z 0) ++ [byte_of_Z 0x80].

Definition absorbBlock (st : list Z) (block : bytes) : list Z :=
  keccakF (zip_with Z.lxor st (lanes_of 25 block)).

Fixpoint absorb (nblocks : nat) (st : list Z) (msg : bytes) : list Z :=
  match nblocks with
  | O => st
  | S n => absorb n (absorbBlock st (take rate msg)) (drop rate msg)
  end.

Definition squeezeByte (st : list Z) (i : nat) : byte :=
  byte_of_Z (Z.shiftr (nth (i / 8) st 0) (8 * Z.of_nat (i mod 8))).

Definition Keccak256 (msg : bytes) : bytes :=
  let padded := pad msg in
  let st := absorb (length padded / rate) (replicate 25 0) padded in
  map (squeezeByte st) (seq 0 32).

End keccak.

#[global] Program Instance keccakHasher : abi.Hasher :=
  {| abi.Keccak256 := keccak.Keccak256 |}.
Next Obligation.
  intros data. unfold keccak.Keccak256.
  rewrite length_map. apply length_seq.
Qed.

(** ** Package [trie]: the iterator over the leaves of a trie *)

Module trie.

(** [bytes.Compare a b < 0]: the lexicographic order of byte strings. *)
Fixpoint bytes_ltb (a b : bytes) : bool :=
  match a, b with
  | _, [] => false
  | [], _ :: _ => true
  | x :: a', y :: b' =>
      if (Z_of_byte x <? Z_of_byte y)%Z then true
      else if (Z_of_byte y <? Z_of_byte x)%Z then false
      else bytes_ltb a' b'
  end.

(** Modelled from the spec: the secure trie is declared in package [trie],
    which is not among the sources.  The spec (section 4.2) gives a trie
    over hashed keys that supports range iteration; the model keeps what an
    iteration observes: the leaves (hashed key and stored value) in key
    order, and the table of known key preimages. *)
Record SecureTrie : Type := {
  leaves : list (bytes * bytes);
  preimages : gmap bytes bytes;
}.

(** Modelled from the spec: [GetKey] returns the preimage of a hashed key,
    or nothing when it was not recorded. *)
Definition GetKey (st : SecureTrie) (shaKey : bytes) : option bytes :=
  preimages st !! shaKey.

(** Modelled from the spec: [NodeIterator start] walks the leaves whose key
    is not below [start], in key order. *)
Definition NodeIterator (st : SecureTrie) (start : bytes) : list (bytes * bytes) :=
  filter (fun leaf => bytes_ltb (fst leaf) start = false) (leaves st).

(** Modelled from the spec: the key/value iterator, with the fields [Key]
    and [Value] of the leaf it stands on. *)
Record Iterator : Type := {
  nodeIt : list (bytes * bytes);
  Key : bytes;
  Value : bytes;
}.

(** Modelled from the spec: a fresh iterator stands before the first
    leaf. *)
Definition NewIterator (it : list (bytes * bytes)) : Iterator :=
  {| nodeIt := it; Key := []; Value := [] |}.

(** Modelled from the spec: [Next] moves to the next leaf and reports
    whether there was one; at the end the fields are cleared and every
    further call reports the end again. *)
Definition Next (it : Iterator) : bool * Iterator :=
  match nodeIt it with
  | (k, v) :: rest => (true, {| nodeIt := rest; Key := k; Value := v |})
  | [] => (false, {| nodeIt := []; Key := []; Value := [] |})
  end.

End trie.

(** ** [storageRangeAt] (api.go, lines 337-384) *)

Module debugapi.

Record storageEntry : Type := {
  se_Key : option common.Hash;
  se_Value : common.Hash;
}.

(** [StorageRangeResult]; [NextKey] is nil if [Storage] includes the last
    key in the trie. *)
Record StorageRangeResult : Type := {
  Storage : gmap common.Hash storageEntry;
  NextKey : option common.Hash;
}.

(** The body of the [for] loop (lines 367-376) on the leaf the iterator
    stands on. *)
Definition storeEntry (st : trie.SecureTrie) (it : trie.Iterator)
    (storage : gmap common.Hash storageEntry)
  : result (gmap common.Hash storageEntry) :=
  split <- rlp.Split (trie.Value it) ;;;
  let '(_, content, _) := split in
  let e := {| se_Key := common.BytesToHash <$> trie.GetKey st (trie.Key it);
              se_Value := common.BytesToHash content |} in
  Ok (<[common.BytesToHash (trie.Key it) := e]> storage).

(** The loop [for i := 0; i < maxResult && it.Next(); i++]; [n] is the
    number of rounds left before [i] reaches [maxResult]. *)
Fixpoint storageLoop (st : trie.SecureTrie) (n : nat) (it : trie.Iterator)
    (storage : gmap common.Hash storageEntry)
  : result (trie.Iterator * gmap common.Hash storageEntry) :=
  match n with
  | O => Ok (it, storage)
  | S n' =>
      let '(more, it') := trie.Next it in
      if more then
        storage' <- storeEntry st it' storage ;;;
        storageLoop st n' it' storage'
      else Ok (it', storage)
  end.

Definition storageRangeAt (st : trie.SecureTrie) (start : bytes) (maxResult : Z)
  : result StorageRangeResult :=
  let it := trie.NewIterator (trie.NodeIterator st start) in
  looped <- storageLoop st (Z.to_nat maxResult) it ∅ ;;;
  let '(it, storage) := looped in
  (* Add the 'next key' so clients can continue downloading. *)
  let '(more, it) := trie.Next it in
  Ok {| Storage := storage;
        NextKey := if more then Some (common.BytesToHash (trie.Key it)) else None |}.

End debugapi.

(** ** Package [core/types]: headers and blocks *)

Module types.

(** Modelled from the spec: the header of section 3, with the fields the
    chain manager reads. *)
Record Header : Type := {
  ParentHash : common.Hash;
  Root : common.Hash;
  ReceiptHash : common.Hash;
  Bloom : bytes;
  Difficulty : Z;
  Number : Z;
  GasLimit : Z;
  GasUsed : Z;
  Time : Z;
  Extra : bytes;
}.

(** Modelled from the spec: a block is its header and body; [Hash] is the
    identity of the header. *)
Record Block : Type := {
  header : Header;
  Hash : common.Hash;
  transactions : list bytes;
  uncles : list Header;
}.

(** Modelled from the spec: the number of a block is that of its header. *)
Definition NumberU64 (b : Block) : Z := Number (header b).

End types.

(** ** Package [core]: the chain manager *)

Module core.

Import types.

(** Modelled from the spec: what executing a body computes (section 4.4):
    the state root, the receipt root, the bloom filter and the gas used. *)
Record Outcome : Type := {
  stateRoot : common.Hash;
  receiptRoot : common.Hash;
  logsBloom : bytes;
  gasUsed : Z;
}.

(** The consensus engine and the virtual machine are collaborators of the
    chain manager: [VerifyHeader] sees the stored headers, [ProcessBlock]
    the block and the state of its parent (named by its root). *)
Class Engine : Type := {
  VerifyHeader : (common.Hash -> option Header) -> Header -> result unit;
  ProcessBlock : Block -> common.Hash -> result Outcome;
}.

(** Modelled from the spec: a persisted block with its total difficulty. *)
Record Entry : Type := {
  e_block : Block;
  e_td : Z;
}.

(** Modelled from the spec: the chain manager of section 4.4 owns the
    persisted blocks, the states that can be resolved (by root), the
    canonical index from number to hash, the current head, and the hashes
    poisoned by a failed insert with the error remembered for each. *)
Record BlockChain : Type := {
  chainConfig : params.ChainConfig;
  genesisBlock : Block;
  entries : list Entry;
  states : gset common.Hash;
  canonical : gmap Z common.Hash;
  currentBlock : Block;
  poisoned : gmap common.Hash string;
  running : bool;
}.

(** Modelled from the spec: the queries of the chain manager (section
    4.4: "query by number/hash"), over the persisted blocks and the
    canonical index. *)
Definition Config (bc : BlockChain) : params.ChainConfig := chainConfig bc.

(** Modelled from the spec: the canonical head. *)
Definition CurrentBlock (bc : BlockChain) : Block := currentBlock bc.

(** Modelled from the spec: the persisted entry of a hash. *)
Definition findEntry (bc : BlockChain) (hash : common.Hash) : option Entry :=
  find (fun e => bool_decide (Hash (e_block e) = hash)) (entries bc).

(** Modelled from the spec: query by hash. *)
Definition GetBlockByHash (bc : BlockChain) (hash : common.Hash) : option Block :=
  e_block <$> findEntry bc hash.

(** Modelled from the spec: the header of a stored block. *)
Definition GbtpeaderByHash (bc : BlockChain) (hash : common.Hash) : option Header :=
  header <$> GetBlockByHash bc hash.

(** Modelled from the spec: query by hash and number together. *)
Definition GetBlock (bc : BlockChain) (hash : common.Hash) (number : Z) : option Block :=
  e_block <$>
    find (fun e => bool_decide (Hash (e_block e) = hash)
                   && bool_decide (NumberU64 (e_block e) = number)) (entries bc).

(** Modelled from the spec: whether a block is stored. *)
Definition HasBlock (bc : BlockChain) (hash : common.Hash) (number : Z) : bool :=
  bool_decide (is_Some (GetBlock bc hash number)).

(** Modelled from the spec: query by number, through the canonical index. *)
Definition GetBlockByNumber (bc : BlockChain) (number : Z) : option Block :=
  hash ← canonical bc !! number; GetBlock bc hash number.

(** Modelled from the spec: the total difficulty of a stored block. *)
Definition GetTdByHash (bc : BlockChain) (hash : common.Hash) : option Z :=
  e_td <$> findEntry bc hash.

(** Modelled from the spec: the checks of one insert (section 4.4): resolve
    the parent and its state, run [VerifyHeader], execute the body, and
    compare the computed [gasUsed], bloom, receipt root and state root with
    the header. *)
Definition validateBlock `{Engine} (bc : BlockChain) (block : Block) : result Outcome :=
  let h := header block in
  parent <- match GetBlock bc (ParentHash h) (Number h - 1) with
            | Some p => Ok p
            | None => Err "unknown ancestor"
            end ;;;
  _ <- (if decide (Root (header parent) ∈ states bc) then Ok tt
        else Err "pruned ancestor") ;;;
  _ <- VerifyHeader (GbtpeaderByHash bc) h ;;;
  out <- ProcessBlock block (Root (header parent)) ;;;
  if negb (gasUsed out =? GasUsed h)%Z then Err "invalid gas used"
  else if negb (bool_decide (logsBloom out = Bloom h)) then Err "invalid bloom"
  else if negb (bool_decide (receiptRoot out = ReceiptHash h)) then Err "invalid receipt root"
  else if negb (bool_decide (stateRoot out = Root h)) then Err "invalid merkle root"
  else Ok out.

(** Modelled from the spec: the walk of a reorganisation, from the new tip
    back to the first block that is already canonical, rewriting the
    canonical index on the way. *)
Fixpoint rewriteCanonical (bc : BlockChain) (fuel : nat) (block : Block)
    (canon : gmap Z common.Hash) : gmap Z common.Hash :=
  match fuel with
  | O => canon
  | S fuel' =>
      if decide (canon !! NumberU64 block = Some (Hash block)) then canon
      else
        let canon' := <[NumberU64 block := Hash block]> canon in
        match GetBlockByHash bc (ParentHash (header block)) with
        | Some parent => rewriteCanonical bc fuel' parent canon'
        | None => canon'
        end
  end.

(** Modelled from the spec: the heavier total difficulty wins, a tie goes
    to the lower block number, and otherwise to the block that came first. *)
Definition heavier (td : Z) (block : Block) (headTd : Z) (head : Block) : bool :=
  ((headTd <? td) || ((td =? headTd) && (NumberU64 block <? NumberU64 head)))%Z.

(** Modelled from the spec: persist a validated block and select the
    canonical head by total difficulty. *)
Definition writeBlock (bc : BlockChain) (block : Block) : BlockChain :=
  let ptd := default 0%Z (GetTdByHash bc (ParentHash (header block))) in
  let td := (ptd + Difficulty (header block))%Z in
  let headTd := default 0%Z (GetTdByHash bc (Hash (currentBlock bc))) in
  let stored :=
    {| chainConfig := chainConfig bc; genesisBlock := genesisBlock bc;
       entries := {| e_block := block; e_td := td |} :: entries bc;
       states := {[ Root (header block) ]} ∪ states bc;
       canonical := canonical bc; currentBlock := currentBlock bc;
       poisoned := poisoned bc; running := running bc |} in
  if heavier td block headTd (currentBlock bc) then
    {| chainConfig := chainConfig bc; genesisBlock := genesisBlock bc;
       entries := entries stored; states := states stored;
       canonical :=
         filter (fun kv => (kv.1 <= NumberU64 block)%Z)
                (rewriteCanonical stored (length (entries stored)) block (canonical bc));
       currentBlock := block;
       poisoned := poisoned bc; running := running bc |}
  else stored.

(** Modelled from the spec: a failed block poisons its hash. *)
Definition poison (bc : BlockChain) (block : Block) (err : string) : BlockChain :=
  {| chainConfig := chainConfig bc; genesisBlock := genesisBlock bc;
     entries := entries bc; states := states bc; canonical := canonical bc;
     currentBlock := currentBlock bc;
     poisoned := <[Hash block := err]> (poisoned bc); running := running bc |}.

(** Modelled from the spec: one step of the insert state machine.  A
    poisoned hash fails at once with the remembered error; a block that is
    already stored is written only once; otherwise the block is validated
    and either committed or poisoned. *)
Definition insertBlock `{Engine} (bc : BlockChain) (block : Block)
  : BlockChain * option string :=
  match poisoned bc !! Hash block with
  | Some err => (bc, Some err)
  | None =>
      if HasBlock bc (Hash block) (NumberU64 block) then (bc, None)
      else
        match validateBlock bc block with
        | Err err => (poison bc block err, Some err)
        | Ok _ => (writeBlock bc block, None)
        end
  end.

(** Modelled from the spec: [InsertChain] is declared in package [core],
    which is not among the sources.  It "validates blocks in order ...
    Returns index of first failing block and the error; earlier blocks are
    committed" (section 4.4).  [index] counts the blocks already handled. *)
Fixpoint insertChain `{Engine} (bc : BlockChain) (index : nat) (blocks : list Block)
  : BlockChain * (nat * option string) :=
  match blocks with
  | [] => (bc, (index, None))
  | block :: rest =>
      match insertBlock bc block with
      | (bc', Some err) => (bc', (index, Some err))
      | (bc', None) => insertChain bc' (S index) rest
      end
  end.

(** Modelled from the spec: [InsertChain] starts the count at the first
    block. *)
Definition InsertChain `{Engine} (bc : BlockChain) (blocks : list Block)
  : BlockChain * (nat * option string) :=
  insertChain bc 0 blocks.

(** Modelled from the spec: [SetHead(n)] "rewinds canonical index to n,
    drops newer headers/bodies/receipts" (section 4.4).  The new head is
    the old one when it is not above [n], else the canonical block [n],
    else the genesis block. *)
Definition Sbtpead (bc : BlockChain) (head : Z) : BlockChain :=
  {| chainConfig := chainConfig bc; genesisBlock := genesisBlock bc;
     entries := filter (fun e => (NumberU64 (e_block e) <= head)%Z) (entries bc);
     states := states bc;
     canonical := filter (fun kv => (kv.1 <= head)%Z) (canonical bc);
     currentBlock :=
       if (NumberU64 (currentBlock bc) <=? head)%Z then currentBlock bc
       else default (genesisBlock bc) (GetBlockByNumber bc head);
     poisoned := poisoned bc; running := running bc |}.

(** Modelled from the spec: closing the chain manager flushes what it
    holds and stops it (section 5). *)
Definition Stop (bc : BlockChain) : BlockChain :=
  {| chainConfig := chainConfig bc; genesisBlock := genesisBlock bc;
     entries := entries bc; states := states bc; canonical := canonical bc;
     currentBlock := currentBlock bc; poisoned := poisoned bc;
     running := false |}.

End core.

(** ** Package [btp/downloader] *)

Module downloader.

(** Modelled from the spec: [SyncMode] and its constants are declared in
    package [downloader], which is not among the sources (only its metrics
    file is).  The spec recognises the modes [full], [fast] and [light], in
    this order (sections 4.7 and 6); the mode is an integer, as the
    [%d] of the error message in [New] shows. *)
Definition FullSync : Z := 0.

(** Modelled from the spec: the fast mode, second of the three. *)
Definition FastSync : Z := 1.

(** Modelled from the spec: the light mode, third of the three. *)
Definition LightSync : Z := 2.

(** Modelled from the spec: a mode is valid when it is one of the three. *)
Definition IsValid (mode : Z) : bool :=
  ((FullSync <=? mode) && (mode <=? LightSync))%Z.

(** Modelled from the spec: the downloader holds the requests in flight
    (section 4.7). *)
Record Downloader : Type := {
  inflight : list Z;
  synchronising : bool;
}.

(** Modelled from the spec: "a global sync token cancels all in-flight
    requests on head change or user request". *)
Definition Cancel (d : Downloader) : Downloader :=
  {| inflight := []; synchronising := false |}.

End downloader.

(** ** Package [core/rawdb] over the chain database *)

Module rawdb.

(** Modelled from the spec: the chain database of section 4.1, reduced to
    the keys the service object touches itself: the database version and
    the chain configuration stored under the genesis hash. *)
Record Database : Type := {
  databaseVersion : option Z;
  chainConfigs : gmap common.Hash params.ChainConfig;
  closed : bool;
}.

(** Modelled from the spec: the stored database version, if any. *)
Definition ReadDatabaseVersion (db : Database) : option Z := databaseVersion db.

(** Modelled from the spec: store the database version. *)
Definition WriteDatabaseVersion (db : Database) (version : Z) : Database :=
  {| databaseVersion := Some version; chainConfigs := chainConfigs db;
     closed := closed db |}.

(** Modelled from the spec: store a chain configuration under the hash of
    its genesis block. *)
Definition WriteChainConfig (db : Database) (hash : common.Hash)
    (cfg : params.ChainConfig) : Database :=
  {| databaseVersion := databaseVersion db;
     chainConfigs := <[hash := cfg]> (chainConfigs db);
     closed := closed db |}.

(** Modelled from the spec: close the database. *)
Definition Close (db : Database) : Database :=
  {| databaseVersion := databaseVersion db; chainConfigs := chainConfigs db;
     closed := true |}.

End rawdb.

(** ** Package [miner] *)

Module miner.

Record Config : Type := {
  btperbase : bytes;
  ExtraData : bytes;
  GasFloor : Z;
  GasCeil : Z;
  GasPrice : option Z;
}.

(** Modelled from the spec: the miner holds the extra data it puts in the
    blocks it creates. *)
Record Miner : Type := {
  extra : bytes;
  mining : bool;
}.

(** Modelled from the spec: [SetExtra] refuses extra data above the cap
    (section 4.3: "extraData size ≤ configured cap"). *)
Definition SetExtra (m : Miner) (extra : bytes) : Miner * option string :=
  if (params.MaximumExtraDataSize <? Z.of_nat (length extra))%Z
  then (m, Some "Extra exceeds max length")
  else ({| extra := extra; mining := mining m |}, None).

(** Modelled from the spec: stop the miner. *)
Definition Stop (m : Miner) : Miner := {| extra := extra m; mining := false |}.

End miner.

(** ** The transaction pool and the protocol manager *)

Module txpool.

Record TxPoolConfig : Type := {
  Locals : list bytes;
  Journal : string;
}.

(** Modelled from the spec: the pool pins local transactions through a
    journal file (section 4.5); stopping the pool drains it. *)
Record TxPool : Type := {
  config : TxPoolConfig;
  gasPrice : Z;
  journalOpen : bool;
}.

(** Modelled from the spec: stopping the pool closes its journal. *)
Definition Stop (p : TxPool) : TxPool :=
  {| config := config p; gasPrice := gasPrice p; journalOpen := false |}.

End txpool.

Module pm.

(** Modelled from the spec: the protocol manager of section 4.8 accepts
    peers and owns the downloader. *)
Record ProtocolManager : Type := {
  dl : downloader.Downloader;
  acceptingPeers : bool;
  acceptTxs : Z;
}.

(** Modelled from the spec: stopping it stops accepting peers and then
    cancels the sync (section 5, shutdown sequence). *)
Definition Stop (m : ProtocolManager) : ProtocolManager :=
  {| dl := downloader.Cancel (dl m); acceptingPeers := false;
     acceptTxs := acceptTxs m |}.

End pm.

(** ** Package [btp]: the full-node service *)

Module btp.

(** The engines [CreateConsensusEngine] can build. *)
Inductive PowMode : Type := ModeNormal | ModeShared | ModeTest | ModeFake | ModeFullFake.

Inductive EngineKind : Type :=
| CliqueEngine
| BtpashFaker
| BtpashTester
| BtpashShared
| Btpash (threads : Z).

Record BtpashConfig : Type := {
  CacheDir : string;
  powMode : PowMode;
}.

(** [Config] (configuration file of the package, lines 88-155), with the
    fields that [New] reads. *)
Record Config : Type := {
  Genesis : option params.ChainConfig;
  NetworkId : Z;
  SyncMode : Z;
  NoPruning : bool;
  NoPrefetch : bool;
  LightServ : Z;
  LightPeers : Z;
  SkipBcVersionCheck : bool;
  DatabaseCache : Z;
  TrieCleanCache : Z;
  TrieDirtyCache : Z;
  Miner : miner.Config;
  btpash : BtpashConfig;
  TxPool : txpool.TxPoolConfig;
  GPODefault : option Z;
}.

(** [params.GWei], the default miner gas price of [DefaultConfig]. *)
Definition DefaultGasPrice : Z := 1000000000.

(** [DefaultConfig] (lines 37-63). *)
Definition DefaultConfig : Config :=
  {| Genesis := None; NetworkId := 1; SyncMode := downloader.FastSync;
     NoPruning := false; NoPrefetch := false;
     LightServ := 0; LightPeers := 100;
     SkipBcVersionCheck := false;
     DatabaseCache := 512; TrieCleanCache := 256; TrieDirtyCache := 256;
     Miner := {| miner.btperbase := []; miner.ExtraData := [];
                 miner.GasFloor := 8000000; miner.GasCeil := 8000000;
                 miner.GasPrice := Some DefaultGasPrice |};
     btpash := {| CacheDir := "btpash"; powMode := ModeNormal |};
     TxPool := {| txpool.Locals := []; txpool.Journal := "transactions.rlp" |};
     GPODefault := None |}.

(** The error [core.SetupGenesisBlock] may return: the type assertion of
    [New] tells a [*params.ConfigCompatError] from every other error. *)
Inductive GenesisError : Type :=
| CompatError (compat : params.ConfigCompatError)
| OtherGenesisError (msg : string).

(** [node.ServiceContext]: what the node hands to the service. *)
Record ServiceContext : Type := {
  OpenDatabaseWithFreezer : result rawdb.Database;
  ResolvePath : string -> string;
  ExtRPCEnabled : bool;
}.

Record CacheConfig : Type := {
  TrieCleanLimit : Z;
  TrieCleanNoPrefetch : bool;
  TrieDirtyLimit : Z;
  TrieDirtyDisabled : bool;
}.

(** The constructors of the other packages that [New] calls, and the two
    constants it reads: [core.BlockChainVersion] and the build
    information.  They are parameters of the service. *)
Class Backend : Type := {
  BlockChainVersion : Z;
  build : BuildInfo;
  SetupGenesisBlock :
    rawdb.Database -> option params.ChainConfig ->
    params.ChainConfig * common.Hash * option GenesisError;
  NewBlockChain :
    rawdb.Database -> CacheConfig -> params.ChainConfig -> EngineKind ->
    result core.BlockChain;
  NewTxPool :
    txpool.TxPoolConfig -> params.ChainConfig -> core.BlockChain -> txpool.TxPool;
  NewProtocolManager :
    params.ChainConfig -> Z -> Z -> txpool.TxPool -> core.BlockChain -> Z ->
    result pm.ProtocolManager;
}.

(** What the service does to its components, in the order it does it. *)
Inductive Event : Type :=
| EvWriteDatabaseVersion (version : Z)
| EvSbtpead (number : Z)
| EvWriteChainConfig (hash : common.Hash)
| EvDownloaderCancel
| EvBloomIndexerClose
| EvBlockChainStop
| EvEngineClose
| EvProtocolManagerStop
| EvLesServerStop
| EvTxPoolStop
| EvMinerStop
| EvEventMuxStop
| EvChainDbClose
| EvShutdownChanClose.

#[global] Instance Event_eq_dec : EqDecision Event.
Proof. solve_decision. Defined.

(** [btpereum] (lines 126-161): the service object.  [history] is the
    record of the calls made on the components. *)
Record btpereum : Type := {
  config : Config;
  shutdownChanClosed : bool;
  txPool : txpool.TxPool;
  blockchain : core.BlockChain;
  protocolManager : pm.ProtocolManager;
  lesServer : option bool;
  chainDb : rawdb.Database;
  eventMuxRunning : bool;
  engine : EngineKind;
  engineClosed : bool;
  bloomIndexerRunning : bool;
  miner : miner.Miner;
  gasPrice : Z;
  btperbase : bytes;
  networkID : Z;
  history : list Event;
}.

(** [CreateConsensusEngine] (lines 306-335). *)
Definition CreateConsensusEngine (chainConfig : params.ChainConfig)
    (config : BtpashConfig) : EngineKind :=
  (* If proof-of-authority is requested, set it up *)
  if params.Clique chainConfig then CliqueEngine
  else
    (* Otherwise assume proof-of-work *)
    match powMode config with
    | ModeFake => BtpashFaker
    | ModeTest => BtpashTester
    | ModeShared => BtpashShared
    | _ => Btpash (-1)
    end.

(** The database-version check of [New] (lines 228-235): a stored version
    above the supported one is an error; a missing or older one is
    upgraded in place. *)
Definition checkDatabaseVersion `{Backend} (config : Config) (chainDb : rawdb.Database)
  : result (rawdb.Database * list Event) :=
  let bcVersion := rawdb.ReadDatabaseVersion chainDb in
  if negb (SkipBcVersionCheck config) then
    match bcVersion with
    | Some v =>
        if (BlockChainVersion <? v)%Z then
          Err ("database version is v" +:+ pretty v +:+ ", Gbtp only supports v"
                 +:+ pretty BlockChainVersion)
        else if (v <? BlockChainVersion)%Z then
          Ok (rawdb.WriteDatabaseVersion chainDb BlockChainVersion,
              [EvWriteDatabaseVersion BlockChainVersion])
        else Ok (chainDb, [])
    | None =>
        Ok (rawdb.WriteDatabaseVersion chainDb BlockChainVersion,
            [EvWriteDatabaseVersion BlockChainVersion])
    end
  else Ok (chainDb, []).

(** [New] (lines 176-287). *)
Definition New `{Backend} (ctx : ServiceContext) (config : Config) : result btpereum :=
  (* Ensure configuration values are compatible and sane *)
  if decide (SyncMode config = downloader.LightSync) then
    Err "can't run btp.btpereum in light sync mode, use les.Lightbtpereum"
  else if negb (downloader.IsValid (SyncMode config)) then
    Err ("invalid sync mode " +:+ pretty (SyncMode config))
  else
    let minerGasPrice :=
      match miner.GasPrice (Miner config) with
      | Some p => if (p <=? 0)%Z then DefaultGasPrice else p
      | None => DefaultGasPrice
      end in
    let '(trieCleanCache, trieDirtyCache) :=
      if NoPruning config && (0 <? TrieDirtyCache config)%Z
      then ((TrieCleanCache config + TrieDirtyCache config)%Z, 0%Z)
      else (TrieCleanCache config, TrieDirtyCache config) in
    (* Assemble the btpereum object *)
    chainDb <- OpenDatabaseWithFreezer ctx ;;;
    let '(chainConfig, genesisHash, genesisErr) :=
      SetupGenesisBlock chainDb (Genesis config) in
    match genesisErr with
    | Some (OtherGenesisError msg) => Err msg
    | _ =>
        let engine := CreateConsensusEngine chainConfig (btpash config) in
        versioned <- checkDatabaseVersion config chainDb ;;;
        let '(chainDb, h1) := versioned in
        let cacheConfig :=
          {| TrieCleanLimit := trieCleanCache;
             TrieCleanNoPrefetch := NoPrefetch config;
             TrieDirtyLimit := trieDirtyCache;
             TrieDirtyDisabled := NoPruning config |} in
        blockchain <- NewBlockChain chainDb cacheConfig chainConfig engine ;;;
        (* Rewind the chain in case of an incompatible config upgrade. *)
        let '(blockchain, chainDb, h2) :=
          match genesisErr with
          | Some (CompatError compat) =>
              (core.Sbtpead blockchain (params.RewindTo compat),
               rawdb.WriteChainConfig chainDb genesisHash chainConfig,
               [EvSbtpead (params.RewindTo compat); EvWriteChainConfig genesisHash])
          | _ => (blockchain, chainDb, [])
          end in
        let txPoolConfig :=
          if decide (txpool.Journal (TxPool config) = "") then TxPool config
          else {| txpool.Locals := txpool.Locals (TxPool config);
                  txpool.Journal := ResolvePath ctx (txpool.Journal (TxPool config)) |} in
        let txPool := NewTxPool txPoolConfig chainConfig blockchain in
        (* Permit the downloader to use the trie cache allowance during fast sync *)
        let cacheLimit := (trieCleanCache + trieDirtyCache)%Z in
        protocolManager <-
          NewProtocolManager chainConfig (SyncMode config) (NetworkId config)
                             txPool blockchain cacheLimit ;;;
        let miner0 := {| miner.extra := []; miner.mining := false |} in
        let miner1 :=
          fst (miner.SetExtra miner0 (makeExtraData build (miner.ExtraData (Miner config)))) in
        Ok {| config := config;
              shutdownChanClosed := false;
              txPool := txPool;
              blockchain := blockchain;
              protocolManager := protocolManager;
              lesServer := None;
              chainDb := chainDb;
              eventMuxRunning := true;
              engine := engine;
              engineClosed := false;
              bloomIndexerRunning := true;
              miner := miner1;
              gasPrice := minerGasPrice;
              btperbase := miner.btperbase (Miner config);
              networkID := NetworkId config;
              history := h1 ++ h2 |}
    end.

(** A call on one component: the component changes and the call is
    recorded. *)
Definition record (ev : Event) (s : btpereum) : btpereum :=
  {| config := config s; shutdownChanClosed := shutdownChanClosed s;
     txPool := txPool s; blockchain := blockchain s;
     protocolManager := protocolManager s; lesServer := lesServer s;
     chainDb := chainDb s; eventMuxRunning := eventMuxRunning s;
     engine := engine s; engineClosed := engineClosed s;
     bloomIndexerRunning := bloomIndexerRunning s; miner := miner s;
     gasPrice := gasPrice s; btperbase := btperbase s; networkID := networkID s;
     history := history s ++ [ev] |}.

Definition onBlockChain (f : core.BlockChain -> core.BlockChain) (s : btpereum) : btpereum :=
  {| config := config s; shutdownChanClosed := shutdownChanClosed s;
     txPool := txPool s; blockchain := f (blockchain s);
     protocolManager := protocolManager s; lesServer := lesServer s;
     chainDb := chainDb s; eventMuxRunning := eventMuxRunning s;
     engine := engine s; engineClosed := engineClosed s;
     bloomIndexerRunning := bloomIndexerRunning s; miner := miner s;
     gasPrice := gasPrice s; btperbase := btperbase s; networkID := networkID s;
     history := history s |}.

Definition onProtocolManager (f : pm.ProtocolManager -> pm.ProtocolManager)
    (s : btpereum) : btpereum :=
  {| config := config s; shutdownChanClosed := shutdownChanClosed s;
     txPool := txPool s; blockchain := blockchain s;
     protocolManager := f (protocolManager s); lesServer := lesServer s;
     chainDb := chainDb s; eventMuxRunning := eventMuxRunning s;
     engine := engine s; engineClosed := engineClosed s;
     bloomIndexerRunning := bloomIndexerRunning s; miner := miner s;
     gasPrice := gasPrice s; btperbase := btperbase s; networkID := networkID s;
     history := history s |}.

(** The remaining components, set together: the pool, the miner, the
    database, and the flags of the parts that only run or not. *)
Definition onRest (s : btpereum) (pool : txpool.TxPool) (m : miner.Miner)
    (db : rawdb.Database) (les : option bool)
    (mux engClosed bloom shutdown : bool) : btpereum :=
  {| config := config s; shutdownChanClosed := shutdown;
     txPool := pool; blockchain := blockchain s;
     protocolManager := protocolManager s; lesServer := les;
     chainDb := db; eventMuxRunning := mux;
     engine := engine s; engineClosed := engClosed;
     bloomIndexerRunning := bloom; miner := m;
     gasPrice := gasPrice s; btperbase := btperbase s; networkID := networkID s;
     history := history s |}.

(** The calls of [Stop], one definition per statement. *)
Definition closeBloomIndexer (s : btpereum) : btpereum :=
  record EvBloomIndexerClose
    (onRest s (txPool s) (miner s) (chainDb s) (lesServer s)
            (eventMuxRunning s) (engineClosed s) false (shutdownChanClosed s)).

Definition stopBlockChain (s : btpereum) : btpereum :=
  record EvBlockChainStop (onBlockChain core.Stop s).

Definition closeEngine (s : btpereum) : btpereum :=
  record EvEngineClose
    (onRest s (txPool s) (miner s) (chainDb s) (lesServer s)
            (eventMuxRunning s) true (bloomIndexerRunning s) (shutdownChanClosed s)).

Definition stopProtocolManager (s : btpereum) : btpereum :=
  record EvProtocolManagerStop (onProtocolManager pm.Stop s).

Definition stopLesServer (s : btpereum) : btpereum :=
  match lesServer s with
  | Some _ =>
      record EvLesServerStop
        (onRest s (txPool s) (miner s) (chainDb s) (Some false)
                (eventMuxRunning s) (engineClosed s) (bloomIndexerRunning s)
                (shutdownChanClosed s))
  | None => s
  end.

Definition stopTxPool (s : btpereum) : btpereum :=
  record EvTxPoolStop
    (onRest s (txpool.Stop (txPool s)) (miner s) (chainDb s) (lesServer s)
            (eventMuxRunning s) (engineClosed s) (bloomIndexerRunning s)
            (shutdownChanClosed s)).

Definition stopMiner (s : btpereum) : btpereum :=
  record EvMinerStop
    (onRest s (txPool s) (miner.Stop (miner s)) (chainDb s) (lesServer s)
            (eventMuxRunning s) (engineClosed s) (bloomIndexerRunning s)
            (shutdownChanClosed s)).

Definition stopEventMux (s : btpereum) : btpereum :=
  record EvEventMuxStop
    (onRest s (txPool s) (miner s) (chainDb s) (lesServer s)
            false (engineClosed s) (bloomIndexerRunning s) (shutdownChanClosed s)).

Definition closeChainDb (s : btpereum) : btpereum :=
  record EvChainDbClose
    (onRest s (txPool s) (miner s) (rawdb.Close (chainDb s)) (lesServer s)
            (eventMuxRunning s) (engineClosed s) (bloomIndexerRunning s)
            (shutdownChanClosed s)).

Definition closeShutdownChan (s : btpereum) : btpereum :=
  record EvShutdownChanClose
    (onRest s (txPool s) (miner s) (chainDb s) (lesServer s)
            (eventMuxRunning s) (engineClosed s) (bloomIndexerRunning s) true).

(** [Stop] (lines 610-627); it always returns a nil error. *)
Definition Stop (s : btpereum) : btpereum :=
  let s := closeBloomIndexer s in
  let s := stopBlockChain s in
  let s := closeEngine s in
  let s := stopProtocolManager s in
  let s := stopLesServer s in
  let s := stopTxPool s in
  let s := stopMiner s in
  let s := stopEventMux s in
  let s := closeChainDb s in
  closeShutdownChan s.

(** [Sbtpead] of the API backend (backend file, lines 57-60). *)
Definition cancelDownloader (b : btpereum) : btpereum :=
  record EvDownloaderCancel
    (onProtocolManager
       (fun m => {| pm.dl := downloader.Cancel (pm.dl m);
                    pm.acceptingPeers := pm.acceptingPeers m;
                    pm.acceptTxs := pm.acceptTxs m |}) b).

Definition rewindBlockChain (number : Z) (b : btpereum) : btpereum :=
  record (EvSbtpead number) (onBlockChain (fun bc => core.Sbtpead bc number) b).

Definition Sbtpead (b : btpereum) (number : Z) : btpereum :=
  let b := cancelDownloader b in  (* b.btp.protocolManager.downloader.Cancel() *)
  rewindBlockChain number b.      (* b.btp.blockchain.Sbtpead(number) *)

(** [big.Int.Uint64]: the low 64 bits of the absolute value. *)
Definition Uint64 (x : Z) : Z := Z.land (Z.abs x) (2 ^ 64 - 1).

(** [ChainId] (api.go, lines 69-76). *)
Definition ChainId (e : btpereum) : Z :=
  let config := core.Config (blockchain e) in
  let chainID :=
    if params.IsEIP155 config (types.NumberU64 (core.CurrentBlock (blockchain e)))
    then params.ChainID config
    else 0%Z in
  Uint64 chainID.

(** [hasAllBlocks] (api.go, lines 191-199). *)
Definition hasAllBlocks (chain : core.BlockChain) (bs : list types.Block) : bool :=
  forallb (fun b => core.HasBlock chain (types.Hash b) (types.NumberU64 b)) bs.

(** The capacity of the buffer of [ImportChain]. *)
Definition batchSize : nat := 2500.

(** The inner loop of [ImportChain] (lines 223-232): blocks are decoded
    from the stream until the buffer is full or the stream ends.  The
    stream is the list of what [stream.Decode] returns call after call,
    a block or a parse error; after the last element it returns [io.EOF].
    [room] is what is left of the buffer, [index] counts the blocks read. *)
Fixpoint loadBatch (room : nat) (stream : list (result types.Block)) (index : nat)
  : result (list types.Block * list (result types.Block) * nat) :=
  match room with
  | O => Ok ([], stream, index)
  | S room' =>
      match stream with
      | [] => Ok ([], [], index)
      | Err err :: _ =>
          Err ("block " +:+ pretty index +:+ ": failed to parse: " +:+ err)
      | Ok block :: rest =>
          loaded <- loadBatch room' rest (S index) ;;;
          let '(blocks, rest', index') := loaded in
          Ok (block :: blocks, rest', index')
      end
  end.

(** The outer loop of [ImportChain] (lines 221-246).  Every round that
    does not end the loop takes at least one block off the stream, so
    [fuel] above the length of the stream is never used up. *)
Fixpoint importBatches `{core.Engine} (fuel : nat) (chain : core.BlockChain)
    (stream : list (result types.Block)) (index batch : nat)
  : core.BlockChain * result bool :=
  match fuel with
  | O => (chain, Ok true)
  | S fuel' =>
      (* Load a batch of blocks from the input file *)
      match loadBatch batchSize stream index with
      | Err err => (chain, Err err)
      | Ok (blocks, stream', index') =>
          if decide (length blocks = 0) then (chain, Ok true)
          else if hasAllBlocks chain blocks then
            importBatches fuel' chain stream' index' (S batch)
          else
            (* Import the batch and reset the buffer *)
            match core.InsertChain chain blocks with
            | (chain', (_, Some err)) =>
                (chain',
                 Err ("batch " +:+ pretty batch +:+ ": failed to insert: " +:+ err))
            | (chain', (_, None)) =>
                importBatches fuel' chain' stream' index' (S batch)
            end
      end
  end.

(** [ImportChain] (api.go, lines 201-248) on the decoded stream of the
    file. *)
Definition ImportChain `{core.Engine} (chain : core.BlockChain)
    (stream : list (result types.Block)) : core.BlockChain * result bool :=
  importBatches (S (length stream)) chain stream 0 0.

End btp.

(** ** Example data *)

(** The interface of [method_test.go] ([mbtpoddata]), after JSON decoding. *)
Module abitest.

Import abi.

Definition uint256 : Ty := Elementary "uint256".
Definition address : Ty := Elementary "address".
Definition xy : Ty := Tuple [uint256; uint256].

Definition arg (name : string) (t : Ty) : Argument :=
  {| arg_Name := name; arg_Type := t; arg_Indexed := false |}.

Definition function (name : string) (constant : bool)
    (inputs outputs : Arguments) : Field :=
  {| f_Type := "function"; f_Name := name; f_Constant := constant;
     f_Anonymous := false; f_Inputs := inputs; f_Outputs := outputs |}.

Definition mbtpoddata : list Field :=
  [ function "balance" true [] [];
    function "send" false [arg "amount" uint256] [];
    function "transfer" false
      [arg "from" address; arg "to" address; arg "value" uint256]
      [arg "success" (Elementary "bool")];
    function "tuple" false [arg "a" xy] [];
    function "tupleSlice" false [arg "a" (Slice xy)] [];
    function "tupleArray" false [arg "a" (Array xy 5)] [];
    function "complexTuple" false [arg "a" (Slice (Array xy 5))] [] ].

(** The string of the mbtpod registered under [name], or of the zero
    mbtpod when there is none (a Go map lookup). *)
Definition lookup (name : string) : Mbtpod :=
  default {| Name := ""; Const := false; Inputs := []; Outputs := [] |}
          (Mbtpods (UnmarshalJSON mbtpoddata) !! name).

(** A packer for the examples: every argument is a [uint256], written as
    32 big-endian bytes; the number of values must be the number of
    arguments. *)
Definition packUint256 (v : Z) : bytes :=
  map (fun i => byte_of_Z (Z.shiftr v (8 * (31 - Z.of_nat i)))) (seq 0 32).

Fixpoint packAll (arguments : Arguments) (args : list Z) : result bytes :=
  match arguments, args with
  | [], [] => Ok []
  | a :: arguments', v :: args' =>
      match arg_Type a with
      | Elementary "uint256" =>
          rest <- packAll arguments' args' ;;; Ok (packUint256 v ++ rest)
      | _ => Err "abi: cannot use value as type"
      end
  | _, _ => Err "argument count mismatch"
  end.

#[global] Instance uintPacker : ArgPacker Z := {| Arguments_Pack := packAll |}.

End abitest.

(** A storage trie with three slots, for the examples: the keys are
    written short (they are padded to hashes), the values are encoded
    words. *)
Definition exampleTrie : trie.SecureTrie :=
  {| trie.leaves :=
       [ ([Byte.x11], [Byte.x01]);
         ([Byte.x22], [Byte.x82; Byte.xab; Byte.xcd]);
         ([Byte.x33], [Byte.x05]) ];
     trie.preimages := {[ [Byte.x11] := [Byte.x00] ]} |}.

(** A small chain for the examples: a genesis block and two blocks on top
    of it, under a configuration that activates EIP-155 at block 2. *)
Module example.

Import types.

Definition hashOf (n : Z) : common.Hash := common.BytesToHash [byte_of_Z n].

Definition mkBlock (number : Z) (parent : Z) (time : Z) (txs : list bytes) : Block :=
  {| header := {| ParentHash := hashOf parent; Root := hashOf (100 + number);
                  ReceiptHash := hashOf 0; Bloom := []; Difficulty := 10;
                  Number := number; GasLimit := 8000000; GasUsed := 0;
                  Time := time; Extra := [] |};
     Hash := hashOf (10 + number); transactions := txs; uncles := [] |}.

Definition genesis : Block := mkBlock 0 0 0 [].
Definition block1 : Block := mkBlock 1 10 15 [].
Definition block2 : Block := mkBlock 2 11 30 [].
Definition block3 : Block := mkBlock 3 12 45 [].
(** A block whose body holds an empty transaction; the example engine
    rejects it. *)
Definition badBlock4 : Block := mkBlock 4 13 60 [[]].
Definition block5 : Block := mkBlock 5 14 75 [].

Definition chainConfig : params.ChainConfig :=
  {| params.ChainID := 1; params.HomesteadBlock := Some 0%Z;
     params.EIP150Block := Some 0%Z; params.EIP155Block := Some 2%Z;
     params.EIP158Block := Some 2%Z; params.ByzantiumBlock := None;
     params.ConstantinopleBlock := None; params.PetersburgBlock := None;
     params.Clique := false |}.

Definition chainOf (blocks : list Block) (head : Block) : core.BlockChain :=
  {| core.chainConfig := chainConfig;
     core.genesisBlock := genesis;
     core.entries :=
       map (fun b => {| core.e_block := b; core.e_td := 10 * (NumberU64 b + 1) |}) blocks;
     core.states := list_to_set (map (fun b => Root (header b)) blocks);
     core.canonical := list_to_map (map (fun b => (NumberU64 b, Hash b)) blocks);
     core.currentBlock := head;
     core.poisoned := ∅;
     core.running := true |}.

Definition chain2 : core.BlockChain := chainOf [block2; block1; genesis] block2.
Definition chain1 : core.BlockChain := chainOf [block1; genesis] block1.

(** An engine for the examples: a header is valid when its parent is stored
    and older; a body executes to what its header announces unless it holds
    an empty transaction. *)
#[global] Instance engine : core.Engine :=
  {| core.VerifyHeader get h :=
       match get (ParentHash h) with
       | Some p => if (Time p <? Time h)%Z then Ok tt else Err "timestamp older than parent"
       | None => Err "unknown ancestor"
       end;
     core.ProcessBlock block parentRoot :=
       if existsb (fun tx => bool_decide (tx = [])) (transactions block)
       then Err "invalid transaction"
       else Ok {| core.stateRoot := Root (header block);
                  core.receiptRoot := ReceiptHash (header block);
                  core.logsBloom := Bloom (header block);
                  core.gasUsed := GasUsed (header block) |} |}.

Definition database (version : option Z) : rawdb.Database :=
  {| rawdb.databaseVersion := version; rawdb.chainConfigs := ∅;
     rawdb.closed := false |}.

Definition manager : pm.ProtocolManager :=
  {| pm.dl := {| downloader.inflight := [1; 2; 3]%Z;
                 downloader.synchronising := true |};
     pm.acceptingPeers := true; pm.acceptTxs := 0 |}.

Definition pool : txpool.TxPool :=
  {| txpool.config := btp.TxPool btp.DefaultConfig; txpool.gasPrice := 1;
     txpool.journalOpen := true |}.

(** A running service on [chain2]. *)
Definition node : btp.btpereum :=
  {| btp.config := btp.DefaultConfig;
     btp.shutdownChanClosed := false;
     btp.txPool := pool;
     btp.blockchain := chain2;
     btp.protocolManager := manager;
     btp.lesServer := None;
     btp.chainDb := database (Some 7%Z);
     btp.eventMuxRunning := true;
     btp.engine := btp.Btpash (-1);
     btp.engineClosed := false;
     btp.bloomIndexerRunning := true;
     btp.miner := {| miner.extra := []; miner.mining := false |};
     btp.gasPrice := btp.DefaultGasPrice;
     btp.btperbase := [];
     btp.networkID := 1;
     btp.history := [] |}.

(** The collaborators of [New] for the examples.  The database supports
    version 7.  A genesis configuration with chain ID 99 is an upgrade that
    is incompatible with the stored one and asks for a rewind to block 1;
    chain ID 0 is no valid genesis at all. *)
#[global] Instance backend : btp.Backend :=
  {| btp.BlockChainVersion := 7;
     btp.build := releaseBuild;
     btp.SetupGenesisBlock db genesisConfig :=
       match genesisConfig with
       | Some cfg =>
           if (params.ChainID cfg =? 99)%Z then
             (cfg, Hash genesis,
              Some (btp.CompatError {| params.What := "EIP155 fork block";
                                       params.RewindTo := 1 |}))
           else if (params.ChainID cfg =? 0)%Z then
             (cfg, Hash genesis, Some (btp.OtherGenesisError "invalid genesis"))
           else (cfg, Hash genesis, None)
       | None => (chainConfig, Hash genesis, None)
       end;
     btp.NewBlockChain db cacheConfig cfg eng := Ok chain2;
     btp.NewTxPool poolConfig cfg bc := pool;
     btp.NewProtocolManager cfg mode networkId p bc cacheLimit := Ok manager |}.

Definition context (version : option Z) : btp.ServiceContext :=
  {| btp.OpenDatabaseWithFreezer := Ok (database version);
     btp.ResolvePath path := "/data/" +:+ path;
     btp.ExtRPCEnabled := false |}.

Definition withSyncMode (mode : Z) (genesisConfig : option params.ChainConfig)
  : btp.Config :=
  {| btp.Genesis := genesisConfig; btp.NetworkId := 1; btp.SyncMode := mode;
     btp.NoPruning := false; btp.NoPrefetch := false;
     btp.LightServ := 0; btp.LightPeers := 100;
     btp.SkipBcVersionCheck := false;
     btp.DatabaseCache := 512; btp.TrieCleanCache := 256; btp.TrieDirtyCache := 256;
     btp.Miner := btp.Miner btp.DefaultConfig;
     btp.btpash := btp.btpash btp.DefaultConfig;
     btp.TxPool := btp.TxPool btp.DefaultConfig;
     btp.GPODefault := None |}.

(** The incompatible upgrade: the stored configuration with chain ID 99. *)
Definition upgradedConfig : params.ChainConfig :=
  {| params.ChainID := 99; params.HomesteadBlock := Some 0%Z;
     params.EIP150Block := Some 0%Z; params.EIP155Block := Some 1%Z;
     params.EIP158Block := Some 2%Z; params.ByzantiumBlock := None;
     params.ConstantinopleBlock := None; params.PetersburgBlock := None;
     params.Clique := false |}.

End example.

(** ** Orders of calls *)

(** [inOrder steps trace]: the calls [steps] are made in [trace] in this
    order, other calls possibly in between. *)
Fixpoint inOrder (steps trace : list btp.Event) : bool :=
  match steps, trace with
  | [], _ => true
  | _ :: _, [] => false
  | s :: steps', t :: trace' =>
      if decide (s = t) then inOrder steps' trace' else inOrder steps trace'
  end.

(** The shutdown sequence as the specification gives it, call by call:
    the protocol manager (stop accepting peers, cancel sync), the pool
    (drain the journal), the miner, the chain manager, the chain database. *)
Definition specShutdownOrder : list btp.Event :=
  [ btp.EvProtocolManagerStop; btp.EvTxPoolStop; btp.EvMinerStop;
    btp.EvBlockChainStop; btp.EvChainDbClose ].

(** The same calls in the order [Stop] makes them. *)
Definition codeShutdownOrder : list btp.Event :=
  [ btp.EvBlockChainStop; btp.EvProtocolManagerStop; btp.EvTxPoolStop;
    btp.EvMinerStop; btp.EvChainDbClose ].

(** ** Predicates of the statements *)

(** In an interface a mbtpod is registered under its own name. *)
Definition namedByKey (a : abi.ABI) : Prop :=
  forall name mbtpod, abi.Mbtpods a !! name = Some mbtpod -> abi.Name mbtpod = name.

(** The value of a leaf is an encoded item. *)
Definition decodable (leaf : bytes * bytes) : Prop :=
  is_ok (rlp.Split leaf.2) = true.

(** The hashes under which the loop files the leaves [l]. *)
Definition filedKeys (l : list (bytes * bytes)) : gset common.Hash :=
  list_to_set ((fun leaf => common.BytesToHash leaf.1) <$> l).

(** The calls one shutdown makes: what [Stop] adds to the history. *)
Definition shutdownCalls (s : btp.btpereum) : list btp.Event :=
  drop (length (btp.history s)) (btp.history (btp.Stop s)).

(** ** The remaining steps of a start-up *)

(** The chain manager can be built over the configuration [cfg]. *)
Definition chainOpens `{btp.Backend} (cfg : params.ChainConfig) : Prop :=
  forall db cache eng, is_ok (btp.NewBlockChain db cache cfg eng) = true.

(** The protocol manager can be built for [cfg], the sync mode and the
    network. *)
Definition managerStarts `{btp.Backend} (cfg : params.ChainConfig)
    (mode networkId : Z) : Prop :=
  forall pool bc limit,
    is_ok (btp.NewProtocolManager cfg mode networkId pool bc limit) = true.

(** What [New] does about a genesis error that is a compatibility error:
    the rewind of the chain and the write of the new configuration. *)
Definition rewound (genesisErr : option btp.GenesisError) (bc : core.BlockChain)
  : core.BlockChain :=
  match genesisErr with
  | Some (btp.CompatError compat) => core.Sbtpead bc (params.RewindTo compat)
  | _ => bc
  end.

Definition reconfigured (genesisErr : option btp.GenesisError)
    (db : rawdb.Database) (hash : common.Hash) (cfg : params.ChainConfig)
  : rawdb.Database :=
  match genesisErr with
  | Some (btp.CompatError _) => rawdb.WriteChainConfig db hash cfg
  | _ => db
  end.

Definition rewindEvents (genesisErr : option btp.GenesisError) (hash : common.Hash)
  : list btp.Event :=
  match genesisErr with
  | Some (btp.CompatError compat) =>
      [btp.EvSbtpead (params.RewindTo compat); btp.EvWriteChainConfig hash]
  | _ => []
  end.

(** A block is committed when the chain manager has it stored. *)
Definition committed (bc : core.BlockChain) (block : types.Block) : Prop :=
  core.HasBlock bc (types.Hash block) (types.NumberU64 block) = true.

(** ** Decoding and lookup by identifier

    The remaining mbtpods of the ABI file: [Unpack] (lines 77-93),
    [UnpackIntoMap] (lines 96-112) and [MbtpodById] (lines 171-181). *)

Module abidecode.

(** [Arguments.Unpack] and [Arguments.UnpackIntoMap] are declared in a file
    that is not among the sources; they are parameters of the decoder.  The
    Go functions write into their first argument: [Unpack] is given the
    decoded value as its result, over any type [W] of Go values, and
    [UnpackIntoMap] takes the map it extends and returns the extended one,
    over any type [M] of maps. *)
Class ArgUnpacker (W M : Type) : Type := {
  Arguments_Unpack : abi.Arguments -> bytes -> result W;
  Arguments_UnpackIntoMap : abi.Arguments -> M -> bytes -> result M;
}.

(** Go's [%+v] on a byte slice: the decimal values between brackets. *)
Definition formatBytes (data : bytes) : string :=
  "[" +:+ String.concat " " (map (fun b => pretty (Z_of_byte b)) data) +:+ "]".

(** Go's [%#x] on a byte slice: [0x] and two lower-case digits per byte. *)
Definition hexDigit (z : Z) : string :=
  match z with
  | 0 => "0" | 1 => "1" | 2 => "2" | 3 => "3" | 4 => "4" | 5 => "5"
  | 6 => "6" | 7 => "7" | 8 => "8" | 9 => "9" | 10 => "a" | 11 => "b"
  | 12 => "c" | 13 => "d" | 14 => "e" | _ => "f"
  end%Z.

Definition formatHex (data : bytes) : string :=
  "0x" +:+ String.concat ""
    (map (fun b => hexDigit (Z_of_byte b / 16) +:+ hexDigit (Z_of_byte b mod 16)) data).

(** [Unpack] (lines 77-93). *)
Definition Unpack {W M} `{ArgUnpacker W M}
    (a : abi.ABI) (name : string) (data : bytes) : result W :=
  if decide (length data = 0) then Err "abi: unmarshalling empty output"
  else
    match abi.Mbtpods a !! name with
    | Some mbtpod =>
        if decide (length data mod 32 <> 0) then
          Err ("abi: improperly formatted output: " +:+ String.string_of_list_byte data
               +:+ " - Bytes: [" +:+ formatBytes data +:+ "]")
        else Arguments_Unpack (abi.Outputs mbtpod) data
    | None =>
        match abi.Events a !! name with
        | Some event => Arguments_Unpack (abi.ev_Inputs event) data
        | None => Err "abi: could not locate named mbtpod or event"
        end
    end.

(** [UnpackIntoMap] (lines 96-112). *)
Definition UnpackIntoMap {W M} `{ArgUnpacker W M}
    (a : abi.ABI) (v : M) (name : string) (data : bytes) : result M :=
  if decide (length data = 0) then Err "abi: unmarshalling empty output"
  else
    match abi.Mbtpods a !! name with
    | Some mbtpod =>
        if decide (length data mod 32 <> 0) then
          Err "abi: improperly formatted output"
        else Arguments_UnpackIntoMap (abi.Outputs mbtpod) v data
    | None =>
        match abi.Events a !! name with
        | Some event => Arguments_UnpackIntoMap (abi.ev_Inputs event) v data
        | None => Err "abi: could not locate named mbtpod or event"
        end
    end.

(** [MbtpodById] (lines 171-181).  The loop ranges over a Go map, whose
    iteration order is not fixed: [order] is the order in which one run of
    the loop visits the entries, any arrangement of the map's entries. *)
Definition MbtpodById `{abi.Hasher}
    (order : list (string * abi.Mbtpod)) (sigdata : bytes) : result abi.Mbtpod :=
  if decide (length sigdata < 4) then
    Err ("data too short (" +:+ pretty (length sigdata)
         +:+ " bytes) for abi mbtpod lookup")
  else
    match find (fun entry => bool_decide (abi.Id entry.2 = take 4 sigdata)) order with
    | Some entry => Ok entry.2
    | None => Err ("no mbtpod with id: " +:+ formatHex (take 4 sigdata))
    end.

(** An order in which a loop may visit the mbtpods of [a]. *)
Definition iterationOrder (a : abi.ABI) (order : list (string * abi.Mbtpod)) : Prop :=
  order ≡ₚ map_to_list (abi.Mbtpods a).

End abidecode.

(** The entry kinds [UnmarshalJSON] tells apart (line 138: an empty type
    defaults to a function), and the mbtpod and the event it registers for
    an entry under the key [name] (lines 145-150 and 158-162). *)
Definition isFunction (field : abi.Field) : Prop :=
  abi.f_Type field = "function" \/ abi.f_Type field = "".

Definition isEvent (field : abi.Field) : Prop :=
  abi.f_Type field = "event".

#[global] Instance isFunction_dec (field : abi.Field) : Decision (isFunction field).
Proof. unfold isFunction. apply _. Defined.

#[global] Instance isEvent_dec (field : abi.Field) : Decision (isEvent field).
Proof. unfold isEvent. apply _. Defined.

Definition mbtpodOf (name : string) (field : abi.Field) : abi.Mbtpod :=
  {| abi.Name := name; abi.Const := abi.f_Constant field;
     abi.Inputs := abi.f_Inputs field; abi.Outputs := abi.f_Outputs field |}.

Definition eventOf (name : string) (field : abi.Field) : abi.Event :=
  {| abi.ev_Name := name; abi.ev_Anonymous := abi.f_Anonymous field;
     abi.ev_Inputs := abi.f_Inputs field |}.

(** ** The mining side of the service

    [btperbase], [isLocalBlock], [shouldPreserve], [Setbtperbase],
    [StartMining], [StopMining] and [Start] of the service object (lines
    407-608), and the mbtpods of the miner API that call them (api.go, lines
    110-145). *)

Module service.

(** [common.Address{}], the zero value of the address type: every byte is
    zero. *)
Definition isZeroAddress (address : bytes) : bool :=
  forallb (fun b => bool_decide (b = Byte.x00)) address.

(** [accounts.Manager.Wallets] and [Wallet.Accounts] belong to package
    [accounts], outside the repository: the wallets the manager lists at the
    time of the call, each with the addresses of its accounts. *)
Definition Wallets : Type := list (list bytes).

(** [accounts.Manager.Find] belongs to package [accounts] as well: it is a
    parameter, which finds the wallet of an account among the wallets (the
    wallet itself is not represented) or returns an error. *)
Class Accounts : Type := {
  Find : Wallets -> bytes -> result unit;
}.

(** [consensus.Engine.Author] and the thread count of the proof-of-work
    engine are outside the repository.  [Author] is a parameter.
    [SetThreads] is the mbtpod [CreateConsensusEngine] calls on the
    proof-of-work engine it builds (line 332); [threaded] is the test of
    [StartMining] and [StopMining] for this mbtpod, which the
    proof-of-authority engine does not pass, and the count is a field of the
    engine of the normal mode. *)
Class Consensus : Type := {
  Author : btp.EngineKind -> types.Header -> result bytes;
}.

Definition threaded (engine : btp.EngineKind) : bool :=
  match engine with
  | btp.CliqueEngine => false
  | _ => true
  end.

Definition SetThreads (engine : btp.EngineKind) (threads : Z) : btp.EngineKind :=
  match engine with
  | btp.Btpash _ => btp.Btpash threads
  | other => other
  end.

(** Assignments to the fields of the service. *)
Definition withBtperbase (s : btp.btpereum) (btperbase : bytes) : btp.btpereum :=
  {| btp.config := btp.config s; btp.shutdownChanClosed := btp.shutdownChanClosed s;
     btp.txPool := btp.txPool s; btp.blockchain := btp.blockchain s;
     btp.protocolManager := btp.protocolManager s; btp.lesServer := btp.lesServer s;
     btp.chainDb := btp.chainDb s; btp.eventMuxRunning := btp.eventMuxRunning s;
     btp.engine := btp.engine s; btp.engineClosed := btp.engineClosed s;
     btp.bloomIndexerRunning := btp.bloomIndexerRunning s; btp.miner := btp.miner s;
     btp.gasPrice := btp.gasPrice s; btp.btperbase := btperbase;
     btp.networkID := btp.networkID s; btp.history := btp.history s |}.

Definition withEngine (s : btp.btpereum) (engine : btp.EngineKind) : btp.btpereum :=
  {| btp.config := btp.config s; btp.shutdownChanClosed := btp.shutdownChanClosed s;
     btp.txPool := btp.txPool s; btp.blockchain := btp.blockchain s;
     btp.protocolManager := btp.protocolManager s; btp.lesServer := btp.lesServer s;
     btp.chainDb := btp.chainDb s; btp.eventMuxRunning := btp.eventMuxRunning s;
     btp.engine := engine; btp.engineClosed := btp.engineClosed s;
     btp.bloomIndexerRunning := btp.bloomIndexerRunning s; btp.miner := btp.miner s;
     btp.gasPrice := btp.gasPrice s; btp.btperbase := btp.btperbase s;
     btp.networkID := btp.networkID s; btp.history := btp.history s |}.

Definition withGasPrice (s : btp.btpereum) (price : Z) : btp.btpereum :=
  {| btp.config := btp.config s; btp.shutdownChanClosed := btp.shutdownChanClosed s;
     btp.txPool := btp.txPool s; btp.blockchain := btp.blockchain s;
     btp.protocolManager := btp.protocolManager s; btp.lesServer := btp.lesServer s;
     btp.chainDb := btp.chainDb s; btp.eventMuxRunning := btp.eventMuxRunning s;
     btp.engine := btp.engine s; btp.engineClosed := btp.engineClosed s;
     btp.bloomIndexerRunning := btp.bloomIndexerRunning s; btp.miner := btp.miner s;
     btp.gasPrice := price; btp.btperbase := btp.btperbase s;
     btp.networkID := btp.networkID s; btp.history := btp.history s |}.

(** Modelled from the spec: [TxPool.SetGasPrice] sets the minimum price of
    the pool (section 4.5). *)
Definition TxPool_SetGasPrice (p : txpool.TxPool) (price : Z) : txpool.TxPool :=
  {| txpool.config := txpool.config p; txpool.gasPrice := price;
     txpool.journalOpen := txpool.journalOpen p |}.

Definition withTxPool (s : btp.btpereum) (pool : txpool.TxPool) : btp.btpereum :=
  btp.onRest s pool (btp.miner s) (btp.chainDb s) (btp.lesServer s)
    (btp.eventMuxRunning s) (btp.engineClosed s) (btp.bloomIndexerRunning s)
    (btp.shutdownChanClosed s).

Definition withMiner (s : btp.btpereum) (m : miner.Miner) : btp.btpereum :=
  btp.onRest s (btp.txPool s) m (btp.chainDb s) (btp.lesServer s)
    (btp.eventMuxRunning s) (btp.engineClosed s) (btp.bloomIndexerRunning s)
    (btp.shutdownChanClosed s).

(** [btperbase] (lines 407-428): the configured address, or else the first
    account of the first wallet, which is then stored. *)
Definition btperbase (wallets : Wallets) (s : btp.btpereum)
  : btp.btpereum * result bytes :=
  let btperbase := btp.btperbase s in
  if negb (isZeroAddress btperbase) then (s, Ok btperbase)
  else
    match wallets with
    | (btperbase :: _) :: _ => (withBtperbase s btperbase, Ok btperbase)
    | _ => (s, Err "btperbase must be explicitly specified")
    end.

(** [isLocalBlock] (lines 435-456). *)
Definition isLocalBlock `{Consensus} (s : btp.btpereum) (block : types.Block) : bool :=
  match Author (btp.engine s) (types.header block) with
  | Err _ => false
  | Ok author =>
      (* Check whether the given address is btperbase. *)
      if decide (author = btp.btperbase s) then true
      else
        (* Check whether the given address is specified by `txpool.local` *)
        existsb (fun account => bool_decide (account = author))
                (txpool.Locals (btp.TxPool (btp.config s)))
  end.

(** [shouldPreserve] (lines 461-482). *)
Definition shouldPreserve `{Consensus} (s : btp.btpereum) (block : types.Block) : bool :=
  match btp.engine s with
  | btp.CliqueEngine => false
  | _ => isLocalBlock s block
  end.

(** [Setbtperbase] (lines 485-491); the address the miner keeps is not
    part of the miner's record. *)
Definition Setbtperbase (s : btp.btpereum) (btperbase : bytes) : btp.btpereum :=
  withBtperbase s btperbase.

(** The calls [StartMining] makes on the engine and on the miner, which
    keep what they are given outside the service record. *)
Inductive MiningCall : Type :=
| CallAuthorize (signer : bytes)
| CallMinerStart (coinbase : bytes).

Definition withAcceptTxs (s : btp.btpereum) (value : Z) : btp.btpereum :=
  btp.onProtocolManager
    (fun m => {| pm.dl := pm.dl m; pm.acceptingPeers := pm.acceptingPeers m;
                 pm.acceptTxs := value |}) s.

(** [IsMining] and [Synced] (lines 553 and 566). *)
Definition IsMining (s : btp.btpereum) : bool := miner.mining (btp.miner s).

Definition Synced (s : btp.btpereum) : bool :=
  bool_decide (pm.acceptTxs (btp.protocolManager s) = 1%Z).

(** [StartMining] (lines 496-537).  [miner.Start] is started as a
    goroutine: the call is recorded, the miner's own state changes later. *)
Definition StartMining `{Accounts} (wallets : Wallets) (s : btp.btpereum) (threads : Z)
  : btp.btpereum * list MiningCall * option string :=
  (* Update the thread count within the consensus engine *)
  let s :=
    if threaded (btp.engine s) then
      let threads := if decide (threads = 0%Z) then (-1)%Z else threads in
      withEngine s (SetThreads (btp.engine s) threads)
    else s in
  (* If the miner was not running, initialize it *)
  if negb (IsMining s) then
    (* Propagate the initial price point to the transaction pool *)
    let price := btp.gasPrice s in
    let s := withTxPool s (TxPool_SetGasPrice (btp.txPool s) price) in
    (* Configure the local mining address *)
    let '(s, eb) := btperbase wallets s in
    match eb with
    | Err err => (s, [], Some ("btperbase missing: " +:+ err))
    | Ok eb =>
        let started :=
          (* If mining is started, we can disable the transaction rejection
             mechanism introduced to speed sync times. *)
          (withAcceptTxs s 1, [CallMinerStart eb], None) in
        match btp.engine s with
        | btp.CliqueEngine =>
            match Find wallets eb with
            | Err err => (s, [], Some ("signer missing: " +:+ err))
            | Ok _ =>
                (withAcceptTxs s 1, [CallAuthorize eb; CallMinerStart eb], None)
            end
        | _ => started
        end
    end
  else (s, [], None).

(** [StopMining] (lines 541-551). *)
Definition StopMining (s : btp.btpereum) : btp.btpereum :=
  (* Update the thread count within the consensus engine *)
  let s :=
    if threaded (btp.engine s) then withEngine s (SetThreads (btp.engine s) (-1))
    else s in
  (* Stop the block creating itself *)
  withMiner s (miner.Stop (btp.miner s)).

(** The miner API (api.go): [Start] (lines 110-115), with
    [runtime.NumCPU] a parameter, and [SetGasPrice] (lines 132-139). *)
Definition PrivateMinerAPI_Start `{Accounts} (numCPU : Z) (wallets : Wallets)
    (s : btp.btpereum)
    (threads : option Z) : btp.btpereum * list MiningCall * option string :=
  match threads with
  | None => StartMining wallets s numCPU
  | Some threads => StartMining wallets s threads
  end.

Definition PrivateMinerAPI_SetGasPrice (s : btp.btpereum) (gasPrice : Z)
  : btp.btpereum * bool :=
  let s := withGasPrice s gasPrice in
  (withTxPool s (TxPool_SetGasPrice (btp.txPool s) gasPrice), true).

(** Go's [int] on a 64-bit platform: the value wrapped to 64 bits, signed. *)
Definition int (z : Z) : Z := ((z + 2 ^ 63) mod 2 ^ 64 - 2 ^ 63)%Z.

(** The calls [Start] makes, in the order it makes them. *)
Inductive StartCall : Type :=
| CallStartEntryUpdate
| CallStartBloomHandlers
| CallNewPublicNetAPI (networkID : Z)
| CallProtocolManagerStart (maxPeers : Z)
| CallLesServerStart.

(** [Start] (lines 585-608); [MaxPeers] is [srvr.MaxPeers]. *)
Definition Start (s : btp.btpereum) (MaxPeers : Z) : list StartCall * option string :=
  let started :=
    [CallStartEntryUpdate; CallStartBloomHandlers;
     CallNewPublicNetAPI (btp.networkID s)] in
  (* Start the networking layer and the light server if requested *)
  let network (maxPeers : Z) :=
    (started ++ [CallProtocolManagerStart maxPeers]
       ++ match btp.lesServer s with
          | Some _ => [CallLesServerStart]
          | None => []
          end,
     None) in
  (* Figure out a max peers count based on the server limits *)
  if (0 <? btp.LightServ (btp.config s))%Z then
    if (MaxPeers <=? btp.LightPeers (btp.config s))%Z then
      (started,
       Some ("invalid peer config: light peer count ("
             +:+ pretty (btp.LightPeers (btp.config s))
             +:+ ") >= total peer count (" +:+ pretty MaxPeers +:+ ")"))
    else network (int (MaxPeers - btp.LightPeers (btp.config s)))
  else network MaxPeers.

End service.

(** A service that serves light clients, for the examples: 30 light peers
    out of the peer limit of the server. *)
Definition servingConfig : btp.Config :=
  {| btp.Genesis := None; btp.NetworkId := 1;
     btp.SyncMode := downloader.FullSync;
     btp.NoPruning := false; btp.NoPrefetch := false;
     btp.LightServ := 20; btp.LightPeers := 30;
     btp.SkipBcVersionCheck := false;
     btp.DatabaseCache := 512; btp.TrieCleanCache := 256; btp.TrieDirtyCache := 256;
     btp.Miner := btp.Miner btp.DefaultConfig;
     btp.btpash := btp.btpash btp.DefaultConfig;
     btp.TxPool := btp.TxPool btp.DefaultConfig;
     btp.GPODefault := None |}.

Definition servingNode : btp.btpereum :=
  {| btp.config := servingConfig;
     btp.shutdownChanClosed := false;
     btp.txPool := example.pool;
     btp.blockchain := example.chain2;
     btp.protocolManager := example.manager;
     btp.lesServer := Some true;
     btp.chainDb := example.database (Some 7%Z);
     btp.eventMuxRunning := true;
     btp.engine := btp.Btpash (-1);
     btp.engineClosed := false;
     btp.bloomIndexerRunning := true;
     btp.miner := {| miner.extra := []; miner.mining := false |};
     btp.gasPrice := btp.DefaultGasPrice;
     btp.btperbase := [];
     btp.networkID := 1;
     btp.history := [] |}.

(** ** Storage tries as the state holds them

    What the pages of [storageRangeAt] rely on: the iteration of a trie
    goes by increasing key ([sortedTrie]), and the keys of a secure trie are
    hashes ([hashedKeys]). *)

Definition sortedTrie (st : trie.SecureTrie) : Prop :=
  StronglySorted (fun leaf1 leaf2 => trie.bytes_ltb leaf1.1 leaf2.1 = true)
                 (trie.leaves st).

Definition hashedKeys (st : trie.SecureTrie) : Prop :=
  Forall (fun leaf => length leaf.1 = common.HashLength) (trie.leaves st).

(** A storage trie with three slots under 32-byte keys, for the examples. *)
Definition pagedTrie : trie.SecureTrie :=
  {| trie.leaves :=
       [ (replicate 31 Byte.x00 ++ [Byte.x11], [Byte.x01]);
         (replicate 31 Byte.x00 ++ [Byte.x22], [Byte.x82; Byte.xab; Byte.xcd]);
         (replicate 31 Byte.x00 ++ [Byte.x33], [Byte.x05]) ];
     trie.preimages := ∅ |}.

(** ** The accounts modified between two blocks

    [GetModifiedAccountsByNumber], [GetModifiedAccountsByHash] and
    [getModifiedAccounts] of the debug API (api.go, lines 391-467). *)

Module modified.

Import types.

(** The state cache ([trie.NewSecure] over the trie database), the
    difference iterator of package [trie] and [common.BytesToAddress] are
    outside the repository: they are parameters.  The difference iterator is
    given the leaves of the two node iterators and yields the leaves it
    visits. *)
Class StateCache : Type := {
  NewSecure : common.Hash -> result trie.SecureTrie;
  NewDifferenceIterator :
    list (bytes * bytes) -> list (bytes * bytes) -> list (bytes * bytes);
  BytesToAddress : bytes -> bytes;
}.

(** Go's [%x] on a byte slice and on an unsigned number. *)
Definition formatBytesHex (data : bytes) : string :=
  String.concat ""
    (map (fun b => abidecode.hexDigit (Z_of_byte b / 16)
                   +:+ abidecode.hexDigit (Z_of_byte b mod 16)) data).

Fixpoint formatHex_loop (fuel : nat) (z : Z) (acc : string) : string :=
  match fuel with
  | O => acc
  | S fuel' =>
      if (z <? 16)%Z then abidecode.hexDigit z +:+ acc
      else formatHex_loop fuel' (z / 16)%Z (abidecode.hexDigit (z mod 16) +:+ acc)
  end.

Definition formatHex (z : Z) : string := formatHex_loop 64 z "".

(** The loop [for iter.Next()] of [getModifiedAccounts] (lines 458-465)
    over the leaves the iterator yields. *)
Fixpoint dirtyLoop `{StateCache} (newTrie : trie.SecureTrie)
    (iter : list (bytes * bytes)) (dirty : list bytes) : result (list bytes) :=
  match iter with
  | [] => Ok dirty
  | (iterKey, _) :: iter' =>
      match trie.GetKey newTrie iterKey with
      | None => Err ("no preimage found for hash " +:+ formatBytesHex iterKey)
      | Some key => dirtyLoop newTrie iter' (dirty ++ [BytesToAddress key])
      end
  end.

(** [getModifiedAccounts] (lines 441-467). *)
Definition getModifiedAccounts `{StateCache} (startBlock endBlock : Block)
  : result (list bytes) :=
  if (NumberU64 endBlock <=? NumberU64 startBlock)%Z then
    Err ("start block height (" +:+ pretty (NumberU64 startBlock)
         +:+ ") must be less than end block height ("
         +:+ pretty (NumberU64 endBlock) +:+ ")")
  else
    oldTrie <- NewSecure (Root (header startBlock)) ;;;
    newTrie <- NewSecure (Root (header endBlock)) ;;;
    let diff := NewDifferenceIterator (trie.NodeIterator oldTrie [])
                                      (trie.NodeIterator newTrie []) in
    dirtyLoop newTrie diff [].

(** [GetModifiedAccountsByNumber] (lines 391-412). *)
Definition GetModifiedAccountsByNumber `{StateCache} (bc : core.BlockChain)
    (startNum : Z) (endNum : option Z) : result (list bytes) :=
  match core.GetBlockByNumber bc startNum with
  | None => Err ("start block " +:+ formatHex startNum +:+ " not found")
  | Some startBlock =>
      match endNum with
      | None =>
          let endBlock := startBlock in
          match core.GetBlockByHash bc (ParentHash (header startBlock)) with
          | None =>
              Err ("block " +:+ formatHex (Number (header endBlock)) +:+ " has no parent")
          | Some startBlock => getModifiedAccounts startBlock endBlock
          end
      | Some endNum =>
          match core.GetBlockByNumber bc endNum with
          | None => Err ("end block " +:+ pretty endNum +:+ " not found")
          | Some endBlock => getModifiedAccounts startBlock endBlock
          end
      end
  end.

(** [GetModifiedAccountsByHash] (lines 419-439). *)
Definition GetModifiedAccountsByHash `{StateCache} (bc : core.BlockChain)
    (startHash : common.Hash) (endHash : option common.Hash) : result (list bytes) :=
  match core.GetBlockByHash bc startHash with
  | None => Err ("start block " +:+ formatBytesHex startHash +:+ " not found")
  | Some startBlock =>
      match endHash with
      | None =>
          let endBlock := startBlock in
          match core.GetBlockByHash bc (ParentHash (header startBlock)) with
          | None =>
              Err ("block " +:+ formatHex (Number (header endBlock)) +:+ " has no parent")
          | Some startBlock => getModifiedAccounts startBlock endBlock
          end
      | Some endHash =>
          match core.GetBlockByHash bc endHash with
          | None => Err ("end block " +:+ formatBytesHex endHash +:+ " not found")
          | Some endBlock => getModifiedAccounts startBlock endBlock
          end
      end
  end.

(** The blocks a call compares: the two blocks named, or with one argument
    the parent of the block named and the block itself. *)
Definition compared (bc : core.BlockChain) (first : option Block)
    (second : option (option Block)) : option (Block * Block) :=
  match first, second with
  | Some block, None =>
      parent ← core.GetBlockByHash bc (ParentHash (header block)); Some (parent, block)
  | Some startBlock, Some (Some endBlock) => Some (startBlock, endBlock)
  | _, _ => None
  end.

(** What one comparison returns: the first block is the lower one, both
    state tries open, and there is one address per leaf of the difference,
    that of the preimage of its key. *)
Definition modifiedBetween `{StateCache} (startBlock endBlock : Block)
    (dirty : list bytes) : Prop :=
  exists oldTrie newTrie,
    (NumberU64 startBlock < NumberU64 endBlock)%Z
    /\ NewSecure (Root (header startBlock)) = Ok oldTrie
    /\ NewSecure (Root (header endBlock)) = Ok newTrie
    /\ Forall2 (fun leaf address =>
                  exists key, trie.GetKey newTrie leaf.1 = Some key
                              /\ address = BytesToAddress key)
               (NewDifferenceIterator (trie.NodeIterator oldTrie [])
                                      (trie.NodeIterator newTrie []))
               dirty.

End modified.

(** A state cache for the examples: the state of block 1 holds one account,
    that of block 2 two more, one of them without a known preimage in the
    state of block 3. *)
#[global] Instance exampleCache : modified.StateCache :=
  {| modified.NewSecure root :=
       if decide (root = example.hashOf 101) then
         Ok {| trie.leaves := [([Byte.x11], [Byte.x01])];
               trie.preimages := {[ [Byte.x11] := [Byte.xa1] ]} |}
       else if decide (root = example.hashOf 102) then
         Ok {| trie.leaves := [([Byte.x11], [Byte.x01]); ([Byte.x22], [Byte.x02]);
                               ([Byte.x33], [Byte.x03])];
               trie.preimages := {[ [Byte.x11] := [Byte.xa1];
                                    [Byte.x22] := [Byte.xa2];
                                    [Byte.x33] := [Byte.xa3] ]} |}
       else Err "missing trie node";
     modified.NewDifferenceIterator a b :=
       filter (fun leaf => leaf ∉ a) b;
     modified.BytesToAddress key := key |}.

(** ** The API backend: the pending transactions

    [GetPoolTransactions] (the API backend, lines 166-176).  [Pending]
    returns the pending transactions of every account, a Go map whose
    iteration order is not fixed: the result of [Pending] is given as the
    entries in the order in which the loop of one run visits them. *)

Module apibackend.

Definition GetPoolTransactions {T : Type} (pending : result (list (bytes * list T)))
  : result (list T) :=
  match pending with
  | Err err => Err err
  | Ok pending =>
      Ok (fold_left (fun txs entry => txs ++ entry.2) pending [])
  end.

(** An order in which a loop may visit the entries of the map [m]. *)
Definition visits {T : Type} (m : gmap bytes (list T)) (order : list (bytes * list T))
  : Prop :=
  order ≡ₚ map_to_list m.

End apibackend.

(** The minimum price of the pool is the gas price of the service. *)
Definition pricePropagated (s : btp.btpereum) : Prop :=
  txpool.gasPrice (btp.txPool s) = btp.gasPrice s.

(* ===================================================================== *)
(** * Part II: theorems *)
(* ===================================================================== *)

(** ** The codec *)

Section Codec.

Local Open Scope Z_scope.

Lemma Z_of_byte_range (b : byte) : 0 <= Z_of_byte b < 256.
Proof. unfold Z_of_byte. pose proof (Byte.to_N_bounded b). lia. Qed.

Lemma Z_of_byte_of_Z (z : Z) : 0 <= z < 256 -> Z_of_byte (byte_of_Z z) = z.
Proof.
  intros Hz. unfold Z_of_byte, byte_of_Z. rewrite Z.mod_small by exact Hz.
  destruct (Byte.of_N (Z.to_N z)) as [b|] eqn:Hb.
  - apply Byte.to_of_N in Hb. simpl. rewrite Hb. lia.
  - apply Byte.of_N_None_iff in Hb. lia.
Qed.

Lemma length_bytes_of_string (s : string) :
  length (bytes_of_string s) = String.length s.
Proof.
  unfold bytes_of_string, String.list_byte_of_string.
  induction s as [|a s IH]; simpl; [reflexivity|]. by rewrite IH.
Qed.

(** A string that is not a single byte below [0x80] is written after a tag
    of one byte as long as it has fewer than 56 bytes. *)
Lemma encodeString_short (b : bytes) :
  (forall x, b = [x] -> 128 <= Z_of_byte x) ->
  Z.of_nat (length b) < 56 ->
  rlp.encodeString b = byte_of_Z (128 + Z.of_nat (length b)) :: b.
Proof.
  intros Hsingle Hshort. unfold rlp.encodeString, rlp.puthead.
  destruct b as [|x [|y b']].
  - reflexivity.
  - specialize (Hsingle x eq_refl).
    rewrite (proj2 (Z.ltb_ge _ _)) by lia. reflexivity.
  - rewrite (proj2 (Z.ltb_lt _ _)) by lia. reflexivity.
Qed.

(** [Split] reads back what [encodeString] wrote: the content is the
    string and nothing is left over. *)
Lemma Split_encodeString (b : bytes) :
  Z.of_nat (length b) < 56 ->
  exists k, rlp.Split (rlp.encodeString b) = Ok (k, b, []).
Proof.
  intros Hshort.
  assert ((exists x, b = [x] /\ Z_of_byte x < 128)
          \/ (forall x, b = [x] -> 128 <= Z_of_byte x)) as [(x & -> & Hx)|Hnot].
  { destruct b as [|x [|y b']].
    - right. intros x [=].
    - destruct (Z_lt_le_dec (Z_of_byte x) 128); [left; by eauto|].
      right. by intros x' [= <-].
    - right. intros x' [=]. }
  - exists rlp.KByte. unfold rlp.encodeString.
    rewrite (proj2 (Z.ltb_lt _ _)) by exact Hx.
    unfold rlp.Split, rlp.readKind. rewrite (proj2 (Z.ltb_lt _ _)) by exact Hx.
    reflexivity.
  - exists rlp.KString. rewrite encodeString_short by assumption.
    unfold rlp.Split, rlp.readKind.
    rewrite Z_of_byte_of_Z by lia.
    rewrite (proj2 (Z.ltb_ge _ _)) by lia.
    rewrite (proj2 (Z.ltb_lt (128 + _) 184)) by lia.
    replace (128 + Z.of_nat (length b) - 128) with (Z.of_nat (length b)) by lia.
    assert (((Z.of_nat (length b) =? 1)
             && match b with b1 :: _ => Z_of_byte b1 <? 128 | [] => false end) = false)
      as ->.
    { destruct b as [|x [|y b']].
      - reflexivity.
      - simpl. apply Z.ltb_ge. by apply Hnot.
      - rewrite (proj2 (Z.eqb_neq _ _)) by (simpl length; lia). reflexivity. }
    simpl bind. cbv iota beta.
    assert ((Z.of_nat (S (length b)) - 1 <? Z.of_nat (length b)) = false) as ->
      by (apply Z.ltb_ge; lia).
    cbn [bind].
    replace (Z.to_nat (1 + Z.of_nat (length b))) with (S (length b)) by lia.
    change (Z.to_nat 1) with 1%nat. rewrite Nat2Z.id. cbn [drop].
    rewrite drop_0, (take_ge b), (drop_ge b) by lia. reflexivity.
Qed.

(** The version word of a client whose major version is a non-zero byte
    takes three bytes. *)
Lemma putint_version (major minor patch : Z) :
  1 <= major < 256 -> 0 <= minor < 256 -> 0 <= patch < 256 ->
  length (rlp.putint
            (uint64 (Z.lor (Z.lor (Z.shiftl major 16) (Z.shiftl minor 8)) patch)))
  = 3%nat.
Proof.
  intros Hmajor Hminor Hpatch.
  set (v := Z.lor (Z.lor (Z.shiftl major 16) (Z.shiftl minor 8)) patch).
  assert (2 ^ 16 <= v < 2 ^ 24) as Hv.
  { assert (0 <= v) as Hnonneg.
    { unfold v. rewrite !Z.lor_nonneg, !Z.shiftl_nonneg. lia. }
    assert (Z.log2 v = Z.log2 (Z.shiftl major 16)) as Hlog.
    { unfold v. rewrite !Z.log2_lor, !Z.log2_shiftl
        by (rewrite ?Z.lor_nonneg, ?Z.shiftl_nonneg; lia).
      - destruct (decide (minor = 0)) as [->|Hm].
        + rewrite Z.shiftl_0_l. simpl Z.log2 at 2.
          assert (Z.log2 patch < 8)
            by (destruct (decide (patch = 0)) as [->|];
                [simpl; lia | apply Z.log2_lt_pow2; lia]).
          pose proof (Z.log2_nonneg major). lia.
        + rewrite Z.log2_shiftl by lia.
          assert (Z.log2 minor < 8) by (apply Z.log2_lt_pow2; lia).
          assert (Z.log2 patch < 8)
            by (destruct (decide (patch = 0)) as [->|];
                [simpl; lia | apply Z.log2_lt_pow2; lia]).
          pose proof (Z.log2_nonneg major). lia. }
    rewrite Z.log2_shiftl in Hlog by lia.
    assert (Z.log2 major < 8) by (apply Z.log2_lt_pow2; lia).
    pose proof (Z.log2_nonneg major).
    assert (0 < v).
    { destruct (decide (v = 0)) as [Hz|]; [|lia]. rewrite Hz in Hlog. simpl in Hlog. lia. }
    split.
    - apply Z.log2_le_pow2; lia.
    - apply Z.log2_lt_pow2; lia. }
  clearbody v. change (2 ^ 16) with 65536 in Hv. change (2 ^ 24) with 16777216 in Hv.
  unfold uint64. change (2 ^ 64) with 18446744073709551616.
  rewrite Z.mod_small by lia.
  unfold rlp.putint. cbn [be_of_Z].
  assert (256 <= v / 256 < 65536) as Hv1
    by (split; [apply Z.div_le_lower_bound | apply Z.div_lt_upper_bound]; lia).
  assert (1 <= v / 256 / 256 < 256) as Hv2
    by (split; [apply Z.div_le_lower_bound | apply Z.div_lt_upper_bound]; lia).
  assert (v / 256 / 256 / 256 = 0) as Hv3 by (apply Z.div_small; lia).
  rewrite (proj2 (Z.leb_gt v 0)) by lia.
  rewrite (proj2 (Z.leb_gt (v / 256) 0)) by lia.
  rewrite (proj2 (Z.leb_gt (v / 256 / 256) 0)) by lia.
  rewrite Hv3. reflexivity.
Qed.

End Codec.

(** ** The miner's extra data *)

Section ExtraData.

Local Open Scope Z_scope.

Lemma makeExtraData_unfold (bi : BuildInfo) (extra : bytes) :
  makeExtraData bi extra =
  let chosen := match extra with [] => defaultExtraData bi | _ => extra end in
  if params.MaximumExtraDataSize <? Z.of_nat (length chosen) then [] else chosen.
Proof.
  unfold makeExtraData. destruct extra as [|x extra']; simpl length.
  - rewrite decide_True by reflexivity. reflexivity.
  - rewrite decide_False by discriminate. reflexivity.
Qed.

Lemma encodeString_length (b : bytes) :
  length b <> 1%nat -> Z.of_nat (length b) < 56 ->
  length (rlp.encodeString b) = S (length b).
Proof.
  intros Hmany Hshort. rewrite encodeString_short; [reflexivity| |exact Hshort].
  intros x ->. by destruct Hmany.
Qed.

(** The length of the default extra data of a build whose major version is
    a non-zero byte and whose two strings have at least two characters:
    a list tag, four bytes of version, five of the client name, and each
    string after its tag. *)
Lemma defaultExtraData_length (bi : BuildInfo) :
  1 <= VersionMajor bi < 256 ->
  0 <= VersionMinor bi < 256 ->
  0 <= VersionPatch bi < 256 ->
  (2 <= String.length (runtimeVersion bi))%nat ->
  (2 <= String.length (GOOS bi))%nat ->
  (String.length (runtimeVersion bi) + String.length (GOOS bi) < 45)%nat ->
  length (defaultExtraData bi)
  = (12 + String.length (runtimeVersion bi) + String.length (GOOS bi))%nat.
Proof.
  intros Hmajor Hminor Hpatch Hrv Hgoos Hshort.
  pose proof (putint_version _ _ _ Hmajor Hminor Hpatch) as Hversion.
  unfold defaultExtraData. cbn [rlp.EncodeToBytes map concat].
  unfold rlp.ofUint, rlp.ofString. cbn [rlp.EncodeToBytes].
  rewrite app_nil_r.
  match goal with
  | |- length (rlp.puthead _ _ (Z.of_nat (length ?items)) ++ _) = _ =>
      set (payload := items)
  end.
  assert (length payload
          = (11 + String.length (runtimeVersion bi) + String.length (GOOS bi))%nat)
    as Hpayload.
  { unfold payload. rewrite !length_app.
    rewrite !encodeString_length;
      rewrite ?length_bytes_of_string, ?Hversion; simpl String.length; lia. }
  unfold rlp.puthead. rewrite (proj2 (Z.ltb_lt _ _)) by lia.
  rewrite length_app. simpl length. lia.
Qed.

(** Such a build keeps its default extra data exactly when the two strings
    have at most 20 characters together. *)
Lemma defaultExtraData_within_cap_iff (bi : BuildInfo) :
  1 <= VersionMajor bi < 256 ->
  0 <= VersionMinor bi < 256 ->
  0 <= VersionPatch bi < 256 ->
  (2 <= String.length (runtimeVersion bi))%nat ->
  (2 <= String.length (GOOS bi))%nat ->
  (String.length (runtimeVersion bi) + String.length (GOOS bi) < 45)%nat ->
  makeExtraData bi [] = defaultExtraData bi
  <-> (String.length (runtimeVersion bi) + String.length (GOOS bi) <= 20)%nat.
Proof.
  intros Hmajor Hminor Hpatch Hrv Hgoos Hshort.
  pose proof (defaultExtraData_length bi Hmajor Hminor Hpatch Hrv Hgoos Hshort)
    as Hlength.
  rewrite makeExtraData_unfold. cbv zeta. unfold params.MaximumExtraDataSize.
  destruct (32 <? Z.of_nat (length (defaultExtraData bi))) eqn:Hcap.
  - apply Z.ltb_lt in Hcap. split; [|lia].
    intros Hempty. rewrite <- Hempty in Hlength. simpl in Hlength. lia.
  - apply Z.ltb_ge in Hcap. split; [lia|reflexivity].
Qed.

(** The default extra data of a release build, byte by byte: the list tag,
    the version [1.9.9], then the three strings with their length tags. *)
Example defaultExtraData_release :
  map Z_of_byte (defaultExtraData releaseBuild) =
  [0xd8; 0x83; 1; 9; 9;
   0x84; 103; 98; 116; 112;
   0x88; 103; 111; 49; 46; 49; 51; 46; 52;
   0x85; 108; 105; 110; 117; 120].
Proof. vm_compute. reflexivity. Qed.

(** With a development toolchain the default encoding is above the cap and
    is dropped like any other over-long extra data. *)
Example makeExtraData_devel :
  (params.MaximumExtraDataSize < Z.of_nat (length (defaultExtraData develBuild)))
  /\ makeExtraData develBuild [] = [].
Proof. split; [vm_compute; reflexivity | vm_compute; reflexivity]. Qed.



End ExtraData.

(** ** Packing a mbtpod call *)

(** The tables of [TestMbtpodSig] and [TestMbtpodString]. *)
Example TestMbtpodSig :
  map (fun name => abi.Sig (abitest.lookup name))
      ["balance"; "send"; "transfer"; "tuple"; "tupleArray"; "tupleSlice"; "complexTuple"]
  = ["balance()"; "send(uint256)"; "transfer(address,address,uint256)";
     "tuple((uint256,uint256))"; "tupleArray((uint256,uint256)[5])";
     "tupleSlice((uint256,uint256)[])"; "complexTuple((uint256,uint256)[5][])"].
Proof. vm_compute. reflexivity. Qed.

Example TestMbtpodString :
  map (fun name => abi.Mbtpod_String (abitest.lookup name))
      ["balance"; "send"; "transfer"; "tuple"; "tupleArray"; "tupleSlice"; "complexTuple"]
  = ["function balance() constant returns()";
     "function send(uint256 amount) returns()";
     "function transfer(address from, address to, uint256 value) returns(bool success)";
     "function tuple((uint256,uint256) a) returns()";
     "function tupleArray((uint256,uint256)[5] a) returns()";
     "function tupleSlice((uint256,uint256)[] a) returns()";
     "function complexTuple((uint256,uint256)[5][] a) returns()"].
Proof. vm_compute. reflexivity. Qed.

(** Known digests: the hash of the empty string (the code hash of an
    externally owned account) and two well-known selectors. *)
Example Keccak256_empty :
  map Z_of_byte (keccak.Keccak256 []) =
  [0xc5; 0xd2; 0x46; 0x01; 0x86; 0xf7; 0x23; 0x3c; 0x92; 0x7e; 0x7d; 0xb2;
   0xdc; 0xc7; 0x03; 0xc0; 0xe5; 0x00; 0xb6; 0x53; 0xca; 0x82; 0x27; 0x3b;
   0x7b; 0xfa; 0xd8; 0x04; 0x5d; 0x85; 0xa4; 0x70]%Z.
Proof. vm_compute. reflexivity. Qed.

Example Keccak256_selectors :
  map Z_of_byte (take 4 (keccak.Keccak256 (bytes_of_string "transfer(address,uint256)")))
    = [0xa9; 0x05; 0x9c; 0xbb]%Z
  /\ map Z_of_byte (take 4 (keccak.Keccak256 (bytes_of_string "baz(uint32,bool)")))
    = [0xcd; 0xcd; 0x77; 0xc0]%Z.
Proof. split; vm_compute; reflexivity. Qed.

Section FreshName.

Context {X : Type}.
Implicit Types (m : gmap string X) (base name : string).

(** The loop returns a free name as soon as one of the names it tries is
    free. *)
Lemma freshName_loop_free m base fuel : forall idx name,
  (m !! name = None
   \/ exists j, idx <= j < idx + fuel /\ m !! (base +:+ pretty j) = None) ->
  m !! abi.freshName_loop m base fuel idx name = None.
Proof.
  induction fuel as [|fuel IH]; intros idx name Hfree; simpl.
  - destruct (m !! name) eqn:Hname; [|exact Hname].
    destruct Hfree as [Hfree|(j & Hj & _)]; [congruence|lia].
  - destruct (m !! name) eqn:Hname; [|exact Hname].
    apply IH. destruct Hfree as [Hfree|(j & Hj & Hfree)]; [congruence|].
    destruct (decide (j = idx)) as [->|Hne]; [left; exact Hfree|].
    right. exists j. split; [lia|exact Hfree].
Qed.

(** Among [size m + 1] numbered names one is not a key of [m]. *)
Lemma numbered_name_free m base :
  exists j, j < S (size m) /\ m !! (base +:+ pretty j) = None.
Proof.
  set (names := (fun j : nat => base +:+ pretty j) <$> seq 0 (S (size m))).
  destruct (decide (Forall (fun name => is_Some (m !! name)) names)) as [Hall|Hsome].
  - exfalso.
    assert (NoDup names) as Hnodup.
    { apply NoDup_fmap_2; [|apply NoDup_seq].
      intros i j Hij. apply (inj (String.app base)) in Hij.
      by apply (inj pretty) in Hij. }
    assert (list_to_set names ⊆ dom m) as Hsub.
    { intros name Hin. apply elem_of_list_to_set in Hin.
      apply elem_of_dom. rewrite Forall_forall in Hall. by apply Hall. }
    apply subseteq_size in Hsub.
    rewrite size_list_to_set in Hsub by exact Hnodup.
    rewrite size_dom in Hsub. unfold names in Hsub.
    rewrite length_fmap, length_seq in Hsub. lia.
  - apply not_Forall_Exists in Hsome; [|intros name; apply _].
    apply Exists_exists in Hsome as (name & Hin & Hfree).
    apply list_elem_of_fmap in Hin as (j & -> & Hj).
    apply elem_of_seq in Hj. exists j. split; [lia|].
    by apply eq_None_not_Some.
Qed.

(** The renaming loop of [UnmarshalJSON] ends on a name that is not yet a
    key: the fuel it is given is enough. *)
Lemma freshName_free m base : m !! abi.freshName m base = None.
Proof.
  unfold abi.freshName. apply freshName_loop_free.
  right. destruct (numbered_name_free m base) as (j & Hj & Hfree).
  exists j. split; [lia|exact Hfree].
Qed.

End FreshName.

Section Pack.

Context `{abi.Hasher} {V : Type} `{abi.ArgPacker V}.

Lemma addField_namedByKey (a : abi.ABI) (field : abi.Field) :
  namedByKey a -> namedByKey (abi.addField a field).
Proof.
  intros Hnamed name mbtpod. unfold abi.addField.
  repeat case_decide; simpl; try apply Hnamed.
  intros Hlookup. apply lookup_insert_Some in Hlookup as [[<- <-]|[_ Hold]].
  - reflexivity.
  - by apply Hnamed.
Qed.

Lemma UnmarshalJSON_namedByKey (fields : list abi.Field) :
  namedByKey (abi.UnmarshalJSON fields).
Proof.
  unfold abi.UnmarshalJSON.
  set (a0 := {| abi.Constructor := _ |}).
  assert (namedByKey a0) as Hinit by (intros name mbtpod Hlookup; done).
  clearbody a0. revert a0 Hinit.
  induction fields as [|field fields IH]; intros a0 Hinit; simpl.
  - exact Hinit.
  - apply IH. by apply addField_namedByKey.
Qed.

(** The identifier of a mbtpod has four bytes. *)
Lemma Id_length (mbtpod : abi.Mbtpod) : length (abi.Id mbtpod) = 4.
Proof.
  unfold abi.Id. rewrite length_take, abi.Keccak256_length. reflexivity.
Qed.

(** C10: for every parsed ABI, non-empty mbtpod name and argument list,
    [Pack] returns an error if the name is not among the ABI's mbtpods;
    otherwise the bytes it returns are the mbtpod's identifier, which is the
    first 4 bytes of the Keccak-256 digest of the signature string
    [name(type1,type2,...)], followed by the packed arguments (an error of
    the argument packer is passed on). *)
Theorem Pack_mbtpod_id (fields : list abi.Field) (name : string) (args : list V) :
  name <> "" ->
  match abi.Mbtpods (abi.UnmarshalJSON fields) !! name with
  | None =>
      abi.Pack (abi.UnmarshalJSON fields) name args
      = Err ("mbtpod '" +:+ name +:+ "' not found")
  | Some mbtpod =>
      let types := map (fun input => abi.Ty_String (abi.arg_Type input))
                       (abi.Inputs mbtpod) in
      let signature := name +:+ "(" +:+ String.concat "," types +:+ ")" in
      let id := take 4 (abi.Keccak256 (bytes_of_string signature)) in
      length id = 4
      /\ match abi.Arguments_Pack (abi.Inputs mbtpod) args with
         | Ok arguments =>
             abi.Pack (abi.UnmarshalJSON fields) name args = Ok (id ++ arguments)
         | Err msg =>
             abi.Pack (abi.UnmarshalJSON fields) name args = Err msg
         end
  end.
Proof.
  intros Hname. unfold abi.Pack.
  rewrite decide_False by exact Hname.
  destruct (abi.Mbtpods (abi.UnmarshalJSON fields) !! name) as [mbtpod|] eqn:Hlookup;
    [|reflexivity].
  apply UnmarshalJSON_namedByKey in Hlookup as Hkey.
  cbv zeta. rewrite <- Hkey. fold (abi.Sig mbtpod). fold (abi.Id mbtpod).
  split; [apply Id_length|].
  destruct (abi.Arguments_Pack (abi.Inputs mbtpod) args) as [arguments|msg];
    reflexivity.
Qed.

End Pack.

(** [Pack] on the interface of the tests: [send(1)] is the selector of
    [send(uint256)] followed by the 32 bytes of the amount. *)
Lemma Pack_mbtpod_id_witness :
  abi.Pack (abi.UnmarshalJSON abitest.mbtpoddata) "send" [1%Z]
  = Ok (take 4 (keccak.Keccak256 (bytes_of_string "send(uint256)"))
          ++ abitest.packUint256 1).
Proof.
  pose proof (Pack_mbtpod_id (V := Z) abitest.mbtpoddata "send" [1%Z]) as Hpack.
  assert ("send" <> "") as Hname by discriminate.
  specialize (Hpack Hname).
  vm_compute in Hpack. destruct Hpack as [_ Hpack].
  vm_compute. exact Hpack.
Defined.

(** ** The storage range of the debug API *)

Section StorageRange.

Import debugapi.

Implicit Types (st : trie.SecureTrie) (it : trie.Iterator)
  (storage : gmap common.Hash storageEntry).

Lemma storeEntry_ok st it storage :
  decodable (trie.Key it, trie.Value it) ->
  exists e, storeEntry st it storage
            = Ok (<[common.BytesToHash (trie.Key it) := e]> storage).
Proof.
  unfold decodable, storeEntry. simpl.
  destruct (rlp.Split (trie.Value it)) as [[[k content] rest]|msg]; [|discriminate].
  intros _. simpl. eauto.
Qed.

(** The loop consumes [n] leaves, or all of them when there are fewer, and
    files each one under the hash of its key. *)
Lemma storageLoop_spec st n : forall it storage,
  Forall decodable (trie.nodeIt it) ->
  exists it' storage',
    storageLoop st n it storage = Ok (it', storage')
    /\ trie.nodeIt it' = drop n (trie.nodeIt it)
    /\ dom storage' = dom storage ∪ filedKeys (take n (trie.nodeIt it))
    /\ size storage' <= size storage + n.
Proof.
  induction n as [|n IH]; intros it storage Hdec.
  - exists it, storage. simpl. rewrite drop_0, take_0.
    repeat split; [set_solver | lia].
  - simpl. unfold trie.Next.
    destruct (trie.nodeIt it) as [|[k v] rest] eqn:Hleaves.
    + eexists _, storage. repeat split; [set_solver | lia].
    + apply Forall_cons in Hdec as [Hleaf Hrest].
      set (it1 := {| trie.nodeIt := rest; trie.Key := k; trie.Value := v |}).
      destruct (storeEntry_ok st it1 storage Hleaf) as [e ->]. simpl.
      destruct (IH it1 (<[common.BytesToHash k := e]> storage) Hrest)
        as (it' & storage' & -> & Hdrop & Hdom & Hsize).
      exists it', storage'. repeat split.
      * exact Hdrop.
      * rewrite Hdom, dom_insert_L. unfold filedKeys. simpl. set_solver.
      * pose proof (map_size_insert (common.BytesToHash k) e storage) as Hins.
        destruct (storage !! common.BytesToHash k); unfold id in Hins; lia.
Qed.

Lemma NodeIterator_decodable st start :
  Forall decodable (trie.leaves st) ->
  Forall decodable (trie.NodeIterator st start).
Proof.
  unfold trie.NodeIterator. rewrite !Forall_forall.
  intros Hall leaf Hin. apply list_elem_of_filter in Hin as [_ Hin]. by apply Hall.
Qed.

(** C9: for every storage trie (whose values are encoded items), start key
    and bound [maxResult] (not negative), [storageRangeAt] returns at most
    [maxResult] storage entries, those of the first keys from [start] on,
    and its [NextKey] is non-nil exactly when the trie has a further key
    after the returned range: it is then the hash of that key. *)
Theorem storageRangeAt_range st (start : bytes) (maxResult : Z) :
  (0 <= maxResult)%Z ->
  Forall decodable (trie.leaves st) ->
  let range := trie.NodeIterator st start in
  exists r,
    storageRangeAt st start maxResult = Ok r
    /\ (Z.of_nat (size (Storage r)) <= maxResult)%Z
    /\ dom (Storage r) = filedKeys (take (Z.to_nat maxResult) range)
    /\ NextKey r
       = (fun leaf => common.BytesToHash leaf.1) <$> range !! Z.to_nat maxResult
    /\ (NextKey r <> None <-> Z.to_nat maxResult < length range).
Proof.
  intros Hmax Hdec range.
  pose proof (NodeIterator_decodable st start Hdec) as Hrange. fold range in Hrange.
  unfold storageRangeAt. fold range.
  destruct (storageLoop_spec st (Z.to_nat maxResult) (trie.NewIterator range) ∅ Hrange)
    as (it' & storage' & -> & Hdrop & Hdom & Hsize).
  simpl in Hdrop, Hdom, Hsize. simpl.
  rewrite map_size_empty in Hsize. rewrite dom_empty_L, (left_id_L ∅ (∪)) in Hdom.
  unfold trie.Next. rewrite Hdrop.
  destruct (drop (Z.to_nat maxResult) range) as [|[k v] rest] eqn:Hrest.
  - eexists. split; [reflexivity|]. simpl.
    apply drop_nil_inv in Hrest.
    repeat split; [lia | exact Hdom | | tauto | lia].
    symmetry. apply fmap_None. by apply lookup_ge_None_2.
  - eexists. split; [reflexivity|]. simpl.
    assert (range !! Z.to_nat maxResult = Some (k, v)) as Hnext.
    { rewrite <- (Nat.add_0_r (Z.to_nat maxResult)), <- lookup_drop, Hrest.
      reflexivity. }
    repeat split; [lia | exact Hdom | by rewrite Hnext | | discriminate].
    intros _. by apply lookup_lt_Some in Hnext.
Qed.

(** On the example trie a range of two entries from the start leaves the
    third key as the next key; a range of three reaches the end. *)
Lemma storageRangeAt_range_witness :
  exists r,
    storageRangeAt exampleTrie [] 2 = Ok r
    /\ size (Storage r) = 2
    /\ NextKey r = Some (common.BytesToHash [Byte.x33]).
Proof.
  assert (0 <= 2)%Z as Hmax by lia.
  assert (Forall decodable (trie.leaves exampleTrie)) as Hdec.
  { repeat constructor. }
  destruct (storageRangeAt_range exampleTrie [] 2 Hmax Hdec)
    as (r & Hr & _ & _ & Hnext & _).
  exists r. split; [exact Hr|]. split; [|exact Hnext].
  vm_compute in Hr. injection Hr as <-. reflexivity.
Defined.

Example storageRangeAt_end :
  NextKey <$> (match storageRangeAt exampleTrie [] 3 with
               | Ok r => Some r | Err _ => None end) = Some None.
Proof. vm_compute. reflexivity. Qed.

End StorageRange.

(** ** The chain ID of the public API *)

Section ChainId.

Local Open Scope Z_scope.


Lemma IsEIP155_iff (c : params.ChainConfig) (num : Z) :
  params.IsEIP155 c num = true
  <-> exists fork, params.EIP155Block c = Some fork /\ fork <= num.
Proof.
  unfold params.IsEIP155, params.isForked.
  destruct (params.EIP155Block c) as [fork|].
  - rewrite Z.leb_le. split.
    + intros Hle. exists fork. split; [reflexivity|exact Hle].
    + intros (fork' & [= <-] & Hle). exact Hle.
  - split; [discriminate|]. intros (fork & Hfork & _). discriminate.
Qed.


(** Without a scheduled EIP-155 block the chain ID is 0 as well. *)
Lemma ChainId_unscheduled (e : btp.btpereum) :
  params.EIP155Block (core.Config (btp.blockchain e)) = None ->
  btp.ChainId e = 0.
Proof.
  intros Hnone. unfold btp.ChainId, params.IsEIP155, params.isForked.
  rewrite Hnone. reflexivity.
Qed.


End ChainId.

(** ** Rewinding the chain *)

Section SetHead.

Local Open Scope Z_scope.

Import types.

Lemma GetBlock_number (bc : core.BlockChain) (hash : common.Hash) (number : Z)
    (block : Block) :
  core.GetBlock bc hash number = Some block ->
  Hash block = hash /\ NumberU64 block = number.
Proof.
  unfold core.GetBlock. intros Hget.
  apply fmap_Some in Hget as (e & Hfind & ->).
  apply find_some in Hfind as [_ Hboth].
  apply andb_prop in Hboth as [Hhash Hnumber].
  apply bool_decide_eq_true in Hhash, Hnumber. split; assumption.
Qed.

Lemma GetBlockByNumber_number (bc : core.BlockChain) (number : Z) (block : Block) :
  core.GetBlockByNumber bc number = Some block -> NumberU64 block = number.
Proof.
  unfold core.GetBlockByNumber. intros Hget.
  apply bind_Some in Hget as (hash & _ & Hget).
  by apply GetBlock_number in Hget as [_ Hnumber].
Qed.

(** After [Sbtpead head] no header, body or receipt above [head] is left,
    the canonical index ends at [head], and the current block is not above
    [head] (or is the genesis block). *)
Lemma core_Sbtpead_drops_newer (bc : core.BlockChain) (head : Z) :
  let bc' := core.Sbtpead bc head in
  Forall (fun e => NumberU64 (core.e_block e) <= head) (core.entries bc')
  /\ (forall number hash, core.canonical bc' !! number = Some hash -> number <= head)
  /\ (forall e, e ∈ core.entries bc -> NumberU64 (core.e_block e) <= head ->
                e ∈ core.entries bc')
  /\ (NumberU64 (core.CurrentBlock bc') <= head
      \/ core.CurrentBlock bc' = core.genesisBlock bc).
Proof.
  cbv zeta. unfold core.Sbtpead, core.CurrentBlock. simpl. repeat split.
  - apply Forall_forall. intros e Hin.
    by apply list_elem_of_filter in Hin as [Hle _].
  - intros number hash Hlookup.
    by apply map_lookup_filter_Some in Hlookup as [_ Hle].
  - intros e Hin Hle. apply list_elem_of_filter. split; assumption.
  - destruct (NumberU64 (core.currentBlock bc) <=? head) eqn:Hcur.
    + left. by apply Z.leb_le.
    + destruct (core.GetBlockByNumber bc head) as [block|] eqn:Hget; simpl.
      * left. apply GetBlockByNumber_number in Hget. lia.
      * right. reflexivity.
Qed.

(** C6: for every [Sbtpead number] request through the API backend the
    sync is cancelled first, which leaves the downloader without requests
    in flight while the chain is still untouched, and only then is the
    chain rewound to block [number], which drops the newer headers, bodies
    and receipts. *)
Theorem Sbtpead_cancels_then_rewinds (b : btp.btpereum) (number : Z) :
  exists cancelled : btp.btpereum,
    (* first the cancellation ... *)
    btp.history cancelled = btp.history b ++ [btp.EvDownloaderCancel]
    /\ downloader.inflight (pm.dl (btp.protocolManager cancelled)) = []
    /\ btp.blockchain cancelled = btp.blockchain b
    (* ... then the rewind, on the state the cancellation left *)
    /\ btp.Sbtpead b number = btp.rewindBlockChain number cancelled
    /\ btp.blockchain (btp.Sbtpead b number)
       = core.Sbtpead (btp.blockchain b) number
    /\ btp.history (btp.Sbtpead b number)
       = btp.history b ++ [btp.EvDownloaderCancel; btp.EvSbtpead number]
    /\ downloader.inflight (pm.dl (btp.protocolManager (btp.Sbtpead b number))) = []
    /\ Forall (fun e => NumberU64 (core.e_block e) <= number)
              (core.entries (btp.blockchain (btp.Sbtpead b number)))
    /\ (forall n hash,
          core.canonical (btp.blockchain (btp.Sbtpead b number)) !! n = Some hash ->
          n <= number).
Proof.
  exists (btp.cancelDownloader b).
  split; [reflexivity|]. split; [reflexivity|]. split; [reflexivity|].
  split; [reflexivity|]. split; [reflexivity|].
  split; [|split; [reflexivity|]].
  - unfold btp.Sbtpead, btp.rewindBlockChain, btp.cancelDownloader. simpl.
    rewrite <- app_assoc. reflexivity.
  - pose proof (core_Sbtpead_drops_newer (btp.blockchain b) number)
      as (Hentries & Hcanonical & _).
    split; [exact Hentries | exact Hcanonical].
Qed.

Example Sbtpead_example :
  map (fun e => NumberU64 (core.e_block e))
      (core.entries (btp.blockchain (btp.Sbtpead example.node 1))) = [1; 0]
  /\ NumberU64 (core.CurrentBlock (btp.blockchain (btp.Sbtpead example.node 1))) = 1
  /\ btp.history (btp.Sbtpead example.node 1)
     = [btp.EvDownloaderCancel; btp.EvSbtpead 1].
Proof. vm_compute. repeat split. Qed.

End SetHead.

(** ** Shutdown *)

Section Shutdown.

Lemma inOrder_sublist (steps trace : list btp.Event) :
  inOrder steps trace = true <-> steps `sublist_of` trace.
Proof.
  split.
  - revert steps. induction trace as [|t trace IH]; intros [|s steps] Hin;
      simpl in Hin; try discriminate.
    + constructor.
    + apply sublist_nil_l.
    + case_decide as Hst.
      * subst t. apply sublist_skip. by apply IH.
      * apply sublist_cons. by apply IH.
  - revert steps. induction trace as [|t trace IH]; intros [|s steps] Hsub;
      simpl; try reflexivity.
    + by apply sublist_nil_r in Hsub.
    + apply sublist_cons_r in Hsub as [Hsub|(steps' & Heq & Hsub)].
      * case_decide as Hst; [|by apply IH].
        apply IH. etrans; [apply sublist_cons; reflexivity | exact Hsub].
      * injection Heq as -> ->. rewrite decide_True by reflexivity. by apply IH.
Qed.

(** The calls of [Stop], in the order of its statements. *)
Lemma Stop_history (s : btp.btpereum) :
  btp.history (btp.Stop s)
  = btp.history s
    ++ [btp.EvBloomIndexerClose; btp.EvBlockChainStop; btp.EvEngineClose;
        btp.EvProtocolManagerStop]
    ++ match btp.lesServer s with Some _ => [btp.EvLesServerStop] | None => [] end
    ++ [btp.EvTxPoolStop; btp.EvMinerStop; btp.EvEventMuxStop;
        btp.EvChainDbClose; btp.EvShutdownChanClose].
Proof.
  unfold btp.Stop, btp.closeShutdownChan, btp.closeChainDb, btp.stopEventMux,
    btp.stopMiner, btp.stopTxPool, btp.stopLesServer.
  destruct (btp.lesServer s) as [les|] eqn:Hles; simpl; rewrite Hles; simpl;
    repeat rewrite <- app_assoc; reflexivity.
Qed.

Lemma shutdownCalls_eq (s : btp.btpereum) :
  shutdownCalls s
  = [btp.EvBloomIndexerClose; btp.EvBlockChainStop; btp.EvEngineClose;
     btp.EvProtocolManagerStop]
    ++ match btp.lesServer s with Some _ => [btp.EvLesServerStop] | None => [] end
    ++ [btp.EvTxPoolStop; btp.EvMinerStop; btp.EvEventMuxStop;
        btp.EvChainDbClose; btp.EvShutdownChanClose].
Proof.
  unfold shutdownCalls. rewrite Stop_history. apply drop_app_length.
Qed.

(** X6: what [Stop] leaves of the components: nothing runs any more. *)
Lemma Stop_components (s : btp.btpereum) :
  let s' := btp.Stop s in
  core.running (btp.blockchain s') = false
  /\ pm.acceptingPeers (btp.protocolManager s') = false
  /\ downloader.inflight (pm.dl (btp.protocolManager s')) = []
  /\ txpool.journalOpen (btp.txPool s') = false
  /\ miner.mining (btp.miner s') = false
  /\ rawdb.closed (btp.chainDb s') = true
  /\ btp.shutdownChanClosed s' = true.
Proof.
  cbv zeta. unfold btp.Stop, btp.stopLesServer.
  destruct (btp.lesServer s) eqn:Hles; simpl; rewrite Hles; simpl;
    repeat split; reflexivity.
Qed.

(** The order of the specification is not the order of [Stop]: the example
    service closes its chain manager before it stops the protocol manager,
    the pool and the miner. *)
Lemma Stop_not_spec_order :
  ~ specShutdownOrder `sublist_of` shutdownCalls example.node.
Proof.
  rewrite <- inOrder_sublist. vm_compute. discriminate.
Qed.

(** No service is stopped in the order of the specification. *)
Lemma Stop_never_spec_order (s : btp.btpereum) :
  ~ specShutdownOrder `sublist_of` shutdownCalls s.
Proof.
  rewrite shutdownCalls_eq, <- inOrder_sublist.
  destruct (btp.lesServer s); vm_compute; discriminate.
Qed.

(** C5 (amended): on every shutdown of the service the components are
    stopped in this order: the chain manager is closed (flushing what it
    holds), then the protocol manager is stopped (no more peers, sync
    cancelled), then the pool (its journal drained), then the miner, and
    finally the chain database is closed, after every other component. *)
Theorem Stop_order (s : btp.btpereum) :
  codeShutdownOrder `sublist_of` shutdownCalls s
  /\ exists others,
       shutdownCalls s = others ++ [btp.EvChainDbClose; btp.EvShutdownChanClose]
       /\ btp.EvChainDbClose ∉ others.
Proof.
  rewrite shutdownCalls_eq. split.
  - destruct (btp.lesServer s); rewrite <- inOrder_sublist; reflexivity.
  - exists ([btp.EvBloomIndexerClose; btp.EvBlockChainStop; btp.EvEngineClose;
             btp.EvProtocolManagerStop]
            ++ match btp.lesServer s with
               | Some _ => [btp.EvLesServerStop] | None => [] end
            ++ [btp.EvTxPoolStop; btp.EvMinerStop; btp.EvEventMuxStop]).
    destruct (btp.lesServer s); (split; [reflexivity|]);
      rewrite list_elem_of_In; simpl; intros Hin;
      repeat (destruct Hin as [Hin|Hin]; [discriminate|]); exact Hin.
Qed.

End Shutdown.

(** ** Construction of the service *)

Section Construction.

Context `{btp.Backend}.

Local Open Scope Z_scope.

(** The three modes are the valid ones. *)
Lemma IsValid_iff (mode : Z) :
  downloader.IsValid mode = true
  <-> mode = downloader.FullSync \/ mode = downloader.FastSync
      \/ mode = downloader.LightSync.
Proof.
  unfold downloader.IsValid, downloader.FullSync, downloader.FastSync,
    downloader.LightSync.
  rewrite andb_true_iff, !Z.leb_le. lia.
Qed.

(** A start-up whose every step succeeds: the service is built over the
    chain the chain manager opened, rewound and reconfigured when the
    genesis configuration was an incompatible upgrade. *)
Lemma New_ok (ctx : btp.ServiceContext) (config : btp.Config)
    (db db1 : rawdb.Database) (cfg : params.ChainConfig) (hash : common.Hash)
    (genesisErr : option btp.GenesisError) (h1 : list btp.Event) :
  btp.SyncMode config = downloader.FullSync
    \/ btp.SyncMode config = downloader.FastSync ->
  btp.OpenDatabaseWithFreezer ctx = Ok db ->
  btp.SetupGenesisBlock db (btp.Genesis config) = (cfg, hash, genesisErr) ->
  (forall msg, genesisErr <> Some (btp.OtherGenesisError msg)) ->
  btp.checkDatabaseVersion config db = Ok (db1, h1) ->
  chainOpens cfg ->
  managerStarts cfg (btp.SyncMode config) (btp.NetworkId config) ->
  exists node bc cache eng,
    btp.New ctx config = Ok node
    /\ btp.NewBlockChain db1 cache cfg eng = Ok bc
    /\ btp.blockchain node = rewound genesisErr bc
    /\ btp.chainDb node = reconfigured genesisErr db1 hash cfg
    /\ btp.history node = h1 ++ rewindEvents genesisErr hash.
Proof.
  intros Hmode Hopen Hgenesis Hcompat Hversion Hchain Hmanager.
  unfold btp.New.
  rewrite decide_False
    by (unfold downloader.FullSync, downloader.FastSync, downloader.LightSync in *; lia).
  assert (downloader.IsValid (btp.SyncMode config) = true) as ->
    by (apply IsValid_iff; tauto).
  simpl negb. cbv iota.
  destruct (btp.NoPruning config && (0 <? btp.TrieDirtyCache config)) eqn:Hprune;
    rewrite Hopen; simpl; rewrite Hgenesis;
    (destruct genesisErr as [[compat|msg]|]; [| by destruct (Hcompat msg) |]);
    rewrite Hversion; simpl;
    match goal with
    | |- context [btp.NewBlockChain ?d ?c ?g ?e] =>
        pose proof (Hchain d c e) as Hbc;
        destruct (btp.NewBlockChain d c g e) as [bc|] eqn:Hnew; [|discriminate]
    end; simpl;
    match goal with
    | |- context [btp.NewProtocolManager ?g ?m ?n ?p ?b ?l] =>
        pose proof (Hmanager p b l) as Hpm;
        destruct (btp.NewProtocolManager g m n p b l) as [manager|]; [|discriminate]
    end; simpl;
    (eexists _, bc, _, _; split; [reflexivity|]; split; [exact Hnew|];
     repeat split; reflexivity).
Qed.

(** *** The database version *)

Lemma checkDatabaseVersion_newer (config : btp.Config) (db : rawdb.Database) (v : Z) :
  btp.SkipBcVersionCheck config = false ->
  rawdb.databaseVersion db = Some v ->
  btp.BlockChainVersion < v ->
  exists msg, btp.checkDatabaseVersion config db = Err msg.
Proof.
  intros Hcheck Hstored Hnewer. unfold btp.checkDatabaseVersion.
  rewrite Hcheck. unfold rawdb.ReadDatabaseVersion. rewrite Hstored. simpl.
  apply Z.ltb_lt in Hnewer. rewrite Hnewer. eauto.
Qed.

Lemma checkDatabaseVersion_upgrade (config : btp.Config) (db : rawdb.Database) :
  btp.SkipBcVersionCheck config = false ->
  (forall v, rawdb.databaseVersion db = Some v -> v < btp.BlockChainVersion) ->
  btp.checkDatabaseVersion config db
  = Ok (rawdb.WriteDatabaseVersion db btp.BlockChainVersion,
        [btp.EvWriteDatabaseVersion btp.BlockChainVersion]).
Proof.
  intros Hcheck Holder. unfold btp.checkDatabaseVersion.
  rewrite Hcheck. unfold rawdb.ReadDatabaseVersion. simpl.
  destruct (rawdb.databaseVersion db) as [v|]; [|reflexivity].
  specialize (Holder v eq_refl).
  rewrite (proj2 (Z.ltb_ge _ _)) by lia.
  rewrite (proj2 (Z.ltb_lt _ _)) by lia. reflexivity.
Qed.

Lemma checkDatabaseVersion_accepts (config : btp.Config) (db : rawdb.Database) :
  btp.SkipBcVersionCheck config = true
    \/ (forall v, rawdb.databaseVersion db = Some v -> v <= btp.BlockChainVersion) ->
  exists db1 h1,
    btp.checkDatabaseVersion config db = Ok (db1, h1)
    /\ rawdb.chainConfigs db1 = rawdb.chainConfigs db.
Proof.
  intros Haccepted. unfold btp.checkDatabaseVersion, rawdb.ReadDatabaseVersion.
  destruct (btp.SkipBcVersionCheck config) eqn:Hskip; simpl; [by eauto|].
  destruct Haccepted as [Hskipped|Hle]; [discriminate|].
  destruct (rawdb.databaseVersion db) as [v|]; [|by eauto].
  specialize (Hle v eq_refl). rewrite (proj2 (Z.ltb_ge _ _)) by lia.
  destruct (v <? btp.BlockChainVersion); eauto.
Qed.

Lemma reconfigured_version (genesisErr : option btp.GenesisError)
    (db : rawdb.Database) (hash : common.Hash) (cfg : params.ChainConfig) :
  rawdb.databaseVersion (reconfigured genesisErr db hash cfg)
  = rawdb.databaseVersion db.
Proof. destruct genesisErr as [[compat|msg]|]; reflexivity. Qed.

(** C3: on every start-up with the version check enabled the stored
    database version is compared with the supported one.  A stored version
    above the supported one is fatal: [New] returns an error.  A missing or
    older version has a migration path: the supported version is written
    and the start-up succeeds (its other steps succeeding).  An equal
    version is left as it is. *)
Theorem New_checks_database_version (ctx : btp.ServiceContext) (config : btp.Config) :
  btp.SkipBcVersionCheck config = false ->
  (forall db v,
      btp.OpenDatabaseWithFreezer ctx = Ok db ->
      rawdb.databaseVersion db = Some v ->
      btp.BlockChainVersion < v ->
      exists msg, btp.New ctx config = Err msg)
  /\ (forall db cfg hash genesisErr,
        btp.SyncMode config = downloader.FullSync
          \/ btp.SyncMode config = downloader.FastSync ->
        btp.OpenDatabaseWithFreezer ctx = Ok db ->
        btp.SetupGenesisBlock db (btp.Genesis config) = (cfg, hash, genesisErr) ->
        (forall msg, genesisErr <> Some (btp.OtherGenesisError msg)) ->
        chainOpens cfg ->
        managerStarts cfg (btp.SyncMode config) (btp.NetworkId config) ->
        (forall v, rawdb.databaseVersion db = Some v -> v <= btp.BlockChainVersion) ->
        exists node,
          btp.New ctx config = Ok node
          /\ rawdb.databaseVersion (btp.chainDb node) = Some btp.BlockChainVersion
          /\ (rawdb.databaseVersion db <> Some btp.BlockChainVersion ->
              btp.EvWriteDatabaseVersion btp.BlockChainVersion ∈ btp.history node)).
Proof.
  intros Hcheck. split.
  - intros db v Hopen Hstored Hnewer. unfold btp.New.
    case_decide; [by eauto|].
    destruct (downloader.IsValid (btp.SyncMode config)); simpl; [|by eauto].
    destruct (btp.NoPruning config && (0 <? btp.TrieDirtyCache config));
      rewrite Hopen; simpl;
      destruct (btp.SetupGenesisBlock db (btp.Genesis config)) as [[cfg hash] genesisErr];
      destruct (checkDatabaseVersion_newer config db v Hcheck Hstored Hnewer)
        as [msg Hfatal];
      (destruct genesisErr as [[compat|other]|]; [| by eauto |]);
      rewrite Hfatal; simpl; eauto.
  - intros db cfg hash genesisErr Hmode Hopen Hgenesis Hcompat Hchain Hmanager Hle.
    destruct (decide (rawdb.databaseVersion db = Some btp.BlockChainVersion))
      as [Hsame|Hdiffer].
    + assert (btp.checkDatabaseVersion config db = Ok (db, [])) as Hversion.
      { unfold btp.checkDatabaseVersion, rawdb.ReadDatabaseVersion.
        rewrite Hcheck, Hsame. simpl. by rewrite Z.ltb_irrefl. }
      destruct (New_ok ctx config db db cfg hash genesisErr []
                  Hmode Hopen Hgenesis Hcompat Hversion Hchain Hmanager)
        as (node & bc & cache & eng & Hnew & _ & _ & Hdb & _).
      exists node. split; [exact Hnew|]. split; [|done].
      rewrite Hdb, reconfigured_version. exact Hsame.
    + assert (forall v, rawdb.databaseVersion db = Some v -> v < btp.BlockChainVersion)
        as Holder.
      { intros v Hv. specialize (Hle v Hv).
        assert (v <> btp.BlockChainVersion) by congruence. lia. }
      pose proof (checkDatabaseVersion_upgrade config db Hcheck Holder) as Hversion.
      destruct (New_ok ctx config db _ cfg hash genesisErr _
                  Hmode Hopen Hgenesis Hcompat Hversion Hchain Hmanager)
        as (node & bc & cache & eng & Hnew & _ & _ & Hdb & Hhistory).
      exists node. split; [exact Hnew|]. split.
      * rewrite Hdb, reconfigured_version. reflexivity.
      * intros _. rewrite Hhistory. set_solver.
Qed.

(** *** An incompatible configuration upgrade *)

(** C2: when the genesis configuration is an upgrade that is incompatible
    with the stored chain configuration, the compatibility error does not
    make [New] fail: (the other steps of the start-up succeeding) the chain
    that was opened is rewound to the error's rewind-to number, the new
    chain configuration is written under the genesis hash, in this order,
    and the service is built over the rewound chain. *)
Theorem New_rewinds_incompatible_config (ctx : btp.ServiceContext)
    (config : btp.Config) (db : rawdb.Database) (cfg : params.ChainConfig)
    (hash : common.Hash) (compat : params.ConfigCompatError) :
  btp.SyncMode config = downloader.FullSync
    \/ btp.SyncMode config = downloader.FastSync ->
  btp.OpenDatabaseWithFreezer ctx = Ok db ->
  btp.SetupGenesisBlock db (btp.Genesis config)
    = (cfg, hash, Some (btp.CompatError compat)) ->
  btp.SkipBcVersionCheck config = true
    \/ (forall v, rawdb.databaseVersion db = Some v -> v <= btp.BlockChainVersion) ->
  chainOpens cfg ->
  managerStarts cfg (btp.SyncMode config) (btp.NetworkId config) ->
  exists node opened,
    btp.New ctx config = Ok node
    /\ (exists db1 cache eng, btp.NewBlockChain db1 cache cfg eng = Ok opened)
    /\ btp.blockchain node = core.Sbtpead opened (params.RewindTo compat)
    /\ Forall (fun e => types.NumberU64 (core.e_block e) <= params.RewindTo compat)
              (core.entries (btp.blockchain node))
    /\ rawdb.chainConfigs (btp.chainDb node) !! hash = Some cfg
    /\ exists earlier,
         btp.history node
         = earlier ++ [btp.EvSbtpead (params.RewindTo compat);
                       btp.EvWriteChainConfig hash].
Proof.
  intros Hmode Hopen Hgenesis Haccepted Hchain Hmanager.
  destruct (checkDatabaseVersion_accepts config db Haccepted)
    as (db1 & h1 & Hversion & _).
  assert (forall msg, Some (btp.CompatError compat)
                      <> Some (btp.OtherGenesisError msg)) as Hcompat
    by (intros msg; discriminate).
  destruct (New_ok ctx config db db1 cfg hash _ h1
              Hmode Hopen Hgenesis Hcompat Hversion Hchain Hmanager)
    as (node & opened & cache & eng & Hnew & Hopened & Hbc & Hdb & Hhistory).
  simpl in Hbc, Hdb, Hhistory.
  exists node, opened. split; [exact Hnew|]. split; [by eauto|].
  split; [exact Hbc|]. split; [|split].
  - rewrite Hbc.
    by destruct (core_Sbtpead_drops_newer opened (params.RewindTo compat)) as [Hdrop _].
  - rewrite Hdb. simpl. apply lookup_insert_eq.
  - exists h1. exact Hhistory.
Qed.

(** *** The sync mode *)

(** C4 (amended): the core recognises exactly the sync modes full, fast
    and light, but the full-node service runs only the first two: [New]
    fails with an error for the light mode and for every unrecognised
    value, and succeeds for full and fast (the other steps of the start-up
    succeeding). *)
Theorem New_sync_modes (ctx : btp.ServiceContext) (config : btp.Config) :
  (btp.SyncMode config = downloader.LightSync ->
   btp.New ctx config
   = Err "can't run btp.btpereum in light sync mode, use les.Lightbtpereum")
  /\ (btp.SyncMode config <> downloader.FullSync ->
      btp.SyncMode config <> downloader.FastSync ->
      btp.SyncMode config <> downloader.LightSync ->
      btp.New ctx config
      = Err ("invalid sync mode " +:+ pretty (btp.SyncMode config)))
  /\ (btp.SyncMode config = downloader.FullSync
        \/ btp.SyncMode config = downloader.FastSync ->
      forall db db1 cfg hash genesisErr h1,
        btp.OpenDatabaseWithFreezer ctx = Ok db ->
        btp.SetupGenesisBlock db (btp.Genesis config) = (cfg, hash, genesisErr) ->
        (forall msg, genesisErr <> Some (btp.OtherGenesisError msg)) ->
        btp.checkDatabaseVersion config db = Ok (db1, h1) ->
        chainOpens cfg ->
        managerStarts cfg (btp.SyncMode config) (btp.NetworkId config) ->
        exists node, btp.New ctx config = Ok node).
Proof.
  split; [|split].
  - intros Hlight. unfold btp.New. by rewrite decide_True.
  - intros Hfull Hfast Hlight. unfold btp.New.
    rewrite decide_False by exact Hlight.
    destruct (downloader.IsValid (btp.SyncMode config)) eqn:Hvalid; [|reflexivity].
    apply IsValid_iff in Hvalid. tauto.
  - intros Hmode db db1 cfg hash genesisErr h1 Hopen Hgenesis Hcompat Hversion
      Hchain Hmanager.
    destruct (New_ok ctx config db db1 cfg hash genesisErr h1
                Hmode Hopen Hgenesis Hcompat Hversion Hchain Hmanager)
      as (node & _ & _ & _ & Hnew & _).
    by exists node.
Qed.

End Construction.

(** The example backend opens its chain and starts its protocol manager
    whatever it is given. *)
Lemma example_chainOpens (cfg : params.ChainConfig) : chainOpens cfg.
Proof. intros db cache eng. reflexivity. Qed.

Lemma example_managerStarts (cfg : params.ChainConfig) (mode networkId : Z) :
  managerStarts cfg mode networkId.
Proof. intros pool bc limit. reflexivity. Qed.

(** The light mode is recognised, and yet the service refuses it, on a
    configuration that starts in fast mode. *)
Lemma New_light_refused :
  downloader.IsValid downloader.LightSync = true
  /\ btp.New (example.context (Some 7%Z))
             (example.withSyncMode downloader.LightSync None)
     = Err "can't run btp.btpereum in light sync mode, use les.Lightbtpereum"
  /\ is_ok (btp.New (example.context (Some 7%Z))
                    (example.withSyncMode downloader.FastSync None)) = true.
Proof. vm_compute. repeat split. Qed.

Lemma New_sync_modes_witness :
  exists node,
    btp.New (example.context (Some 7%Z))
            (example.withSyncMode downloader.FullSync None) = Ok node.
Proof.
  pose proof (New_sync_modes (example.context (Some 7%Z))
                (example.withSyncMode downloader.FullSync None))
    as (_ & _ & Hruns).
  apply (Hruns (or_introl eq_refl) (example.database (Some 7%Z))
               (example.database (Some 7%Z)) example.chainConfig
               (types.Hash example.genesis) None []);
    [reflexivity | reflexivity | discriminate | reflexivity
    | apply example_chainOpens | apply example_managerStarts].
Defined.

(** A database of version 6 is upgraded to the supported version 7; one of
    version 8 stops the start-up. *)
Lemma New_checks_database_version_witness :
  (exists node,
     btp.New (example.context (Some 6%Z))
             (example.withSyncMode downloader.FastSync None) = Ok node
     /\ rawdb.databaseVersion (btp.chainDb node) = Some 7%Z)
  /\ (exists msg,
        btp.New (example.context (Some 8%Z))
                (example.withSyncMode downloader.FastSync None) = Err msg).
Proof.
  split.
  - destruct (New_checks_database_version (example.context (Some 6%Z))
                (example.withSyncMode downloader.FastSync None) eq_refl)
      as [_ Hmigrates].
    destruct (Hmigrates (example.database (Some 6%Z)) example.chainConfig
                (types.Hash example.genesis) None)
      as (node & Hnew & Hversion & _);
      [right; reflexivity | reflexivity | reflexivity | discriminate
      | apply example_chainOpens | apply example_managerStarts
      | intros v [= <-]; vm_compute; discriminate |].
    exists node. split; [exact Hnew | exact Hversion].
  - destruct (New_checks_database_version (example.context (Some 8%Z))
                (example.withSyncMode downloader.FastSync None) eq_refl)
      as [Hfatal _].
    apply (Hfatal (example.database (Some 8%Z)) 8%Z);
      [reflexivity | reflexivity | reflexivity].
Defined.

(** The upgrade of the example: the stored chain of three blocks is rewound
    to block 1 and the new configuration is written. *)
Lemma New_rewinds_incompatible_config_witness :
  exists node,
    btp.New (example.context (Some 7%Z))
            (example.withSyncMode downloader.FastSync (Some example.upgradedConfig))
      = Ok node
    /\ btp.blockchain node = core.Sbtpead example.chain2 1
    /\ rawdb.chainConfigs (btp.chainDb node) !! types.Hash example.genesis
       = Some example.upgradedConfig.
Proof.
  destruct (New_rewinds_incompatible_config (example.context (Some 7%Z))
              (example.withSyncMode downloader.FastSync (Some example.upgradedConfig))
              (example.database (Some 7%Z)) example.upgradedConfig
              (types.Hash example.genesis)
              {| params.What := "EIP155 fork block"; params.RewindTo := 1 |})
    as (node & opened & Hnew & (db1 & cache & eng & Hopened) & Hbc & _ & Hcfg & _);
    [right; reflexivity | reflexivity | reflexivity
    | right; intros v [= <-]; vm_compute; discriminate
    | apply example_chainOpens | apply example_managerStarts |].
  exists node. split; [exact Hnew|]. split; [|exact Hcfg].
  injection Hopened as <-. exact Hbc.
Defined.

(** ** Inserting a chain of blocks *)

Section InsertChain.

Context `{core.Engine}.

Import types.

Implicit Types (bc : core.BlockChain) (block : Block) (blocks : list Block).

Lemma HasBlock_entries bc bc' (hash : common.Hash) (number : Z) :
  core.entries bc' = core.entries bc ->
  core.HasBlock bc' hash number = core.HasBlock bc hash number.
Proof.
  intros Hentries. unfold core.HasBlock, core.GetBlock. by rewrite Hentries.
Qed.

Lemma HasBlock_stored bc bc' (e : core.Entry) (hash : common.Hash) (number : Z) :
  core.entries bc' = e :: core.entries bc ->
  core.HasBlock bc hash number = true ->
  core.HasBlock bc' hash number = true.
Proof.
  unfold core.HasBlock, core.GetBlock. intros -> Hhas.
  apply bool_decide_eq_true in Hhas. apply bool_decide_eq_true.
  simpl. destruct (_ && _); [by eexists|exact Hhas].
Qed.

Lemma HasBlock_new bc' (entries : list core.Entry) block (td : Z) :
  core.entries bc' = {| core.e_block := block; core.e_td := td |} :: entries ->
  committed bc' block.
Proof.
  unfold committed, core.HasBlock, core.GetBlock. intros ->.
  apply bool_decide_eq_true. simpl.
  rewrite !bool_decide_eq_true_2 by reflexivity. simpl. by eexists.
Qed.

(** One insert either fails and stores nothing, or finds the block stored
    already, or stores it on top of what was stored. *)
Lemma insertBlock_cases bc block :
  match core.insertBlock bc block with
  | (bc', Some err) => core.entries bc' = core.entries bc
  | (bc', None) =>
      (bc' = bc /\ committed bc block)
      \/ exists td,
           core.entries bc'
           = {| core.e_block := block; core.e_td := td |} :: core.entries bc
  end.
Proof.
  unfold core.insertBlock.
  destruct (core.poisoned bc !! Hash block) as [err|]; [reflexivity|].
  destruct (core.HasBlock bc (Hash block) (NumberU64 block)) eqn:Hknown.
  - left. split; [reflexivity | exact Hknown].
  - destruct (core.validateBlock bc block) as [out|err]; [|reflexivity].
    right. unfold core.writeBlock. destruct (core.heavier _ _ _ _); simpl; eauto.
Qed.

Lemma insertBlock_keeps bc block (hash : common.Hash) (number : Z) :
  core.HasBlock bc hash number = true ->
  core.HasBlock (core.insertBlock bc block).1 hash number = true.
Proof.
  intros Hhas. pose proof (insertBlock_cases bc block) as Hcases.
  destruct (core.insertBlock bc block) as [bc' [err|]]; simpl.
  - by rewrite (HasBlock_entries bc bc').
  - destruct Hcases as [[-> _]|[td Hentries]]; [exact Hhas|].
    by eapply HasBlock_stored.
Qed.

Lemma insertBlock_commits bc bc' block :
  core.insertBlock bc block = (bc', None) -> committed bc' block.
Proof.
  intros Hinsert. pose proof (insertBlock_cases bc block) as Hcases.
  rewrite Hinsert in Hcases. destruct Hcases as [[-> Hknown]|[td Hentries]].
  - exact Hknown.
  - by eapply HasBlock_new.
Qed.

(** The loop of [InsertChain] from any starting index. *)
Lemma insertChain_spec blocks : forall bc (i : nat),
  match core.insertChain bc i blocks with
  | (bc', (index, err)) =>
      exists k : nat,
        index = i + k
        /\ Forall (committed bc') (take k blocks)
        /\ (forall hash number,
              core.HasBlock bc hash number = true ->
              core.HasBlock bc' hash number = true)
        /\ match err with
           | None => k = length blocks
           | Some msg =>
               exists mid block,
                 blocks !! k = Some block
                 /\ core.insertChain bc i (take k blocks) = (mid, (index, None))
                 /\ core.insertBlock mid block = (bc', Some msg)
           end
  end.
Proof.
  induction blocks as [|block rest IH]; intros bc i; simpl.
  - exists 0. repeat split; [lia | constructor | auto].
  - pose proof (insertBlock_keeps bc block) as Hkeeps.
    destruct (core.insertBlock bc block) as [bc1 [msg|]] eqn:Hinsert; simpl in Hkeeps.
    + exists 0. rewrite Nat.add_0_r. split; [reflexivity|].
      split; [constructor|]. split; [exact Hkeeps|].
      exists bc, block. by repeat split.
    + specialize (IH bc1 (S i)).
      destruct (core.insertChain bc1 (S i) rest) as [bc' [index err]].
      destruct IH as (k & -> & Hcommitted & Hmono & Herr).
      exists (S k). split; [lia|]. split; [|split].
      * simpl. constructor; [|exact Hcommitted].
        apply Hmono. by eapply insertBlock_commits.
      * intros hash number Hhas. by apply Hmono, Hkeeps.
      * destruct err as [msg|]; [|simpl; lia].
        destruct Herr as (mid & failing & Hlookup & Hprefix & Hfail).
        exists mid, failing. split; [exact Hlookup|]. split; [|exact Hfail].
        simpl. rewrite Hinsert. exact Hprefix.
Qed.

(** C1: for every list of blocks passed to [InsertChain] on top of an
    existing chain, the blocks are validated in order, and the call returns
    the index of the first failing block together with its error, with all
    blocks before that index committed (and nothing that was stored lost);
    if no block fails, every block of the list is committed. *)
Theorem InsertChain_first_failure bc blocks :
  match core.InsertChain bc blocks with
  | (bc', (index, err)) =>
      Forall (committed bc') (take index blocks)
      /\ (forall block, committed bc block -> committed bc' block)
      /\ match err with
         | None => index = length blocks /\ Forall (committed bc') blocks
         | Some msg =>
             exists mid block,
               blocks !! index = Some block
               /\ core.InsertChain bc (take index blocks) = (mid, (index, None))
               /\ core.insertBlock mid block = (bc', Some msg)
         end
  end.
Proof.
  unfold core.InsertChain. pose proof (insertChain_spec blocks bc 0) as Hspec.
  destruct (core.insertChain bc 0 blocks) as [bc' [index err]].
  destruct Hspec as (k & -> & Hcommitted & Hmono & Herr). simpl.
  split; [exact Hcommitted|]. split; [intros block; apply Hmono|].
  destruct err as [msg|]; [exact Herr|].
  split; [exact Herr|]. subst k. by rewrite firstn_all in Hcommitted.
Qed.

(** *** Importing a file of blocks *)

(** A batch is a prefix of the stream, all of it decoded blocks; it is
    empty only when the stream is at its end (or there is no room). *)
Lemma loadBatch_spec (room : nat) : forall (stream : list (result Block)) (index : nat),
  match btp.loadBatch room stream index with
  | Ok (loaded, rest, index') =>
      stream = map Ok loaded ++ rest
      /\ index' = index + length loaded
      /\ (loaded = [] -> room = 0 \/ stream = [])
  | Err _ => True
  end.
Proof.
  induction room as [|room IH]; intros stream index; simpl.
  - repeat split; [lia | auto].
  - destruct stream as [|[block|err] rest]; [|specialize (IH rest (S index))|exact I].
    + simpl. repeat split; [lia | auto].
    + destruct (btp.loadBatch room rest (S index)) as [[[loaded rest'] index']|err];
        [|exact I].
      simpl. destruct IH as (-> & -> & _).
      repeat split; [simpl; lia | discriminate].
Qed.

(** The rounds of [ImportChain]: nothing stored is lost, and when the
    import ends well every element of the stream was a block and is
    stored. *)
Lemma importBatches_spec (fuel : nat) : forall bc (stream : list (result Block))
    (index batch : nat),
  length stream < fuel ->
  match btp.importBatches fuel bc stream index batch with
  | (bc', imported) =>
      (forall hash number,
          core.HasBlock bc hash number = true ->
          core.HasBlock bc' hash number = true)
      /\ match imported with
         | Ok done =>
             done = true
             /\ exists blocks, stream = map Ok blocks /\ Forall (committed bc') blocks
         | Err _ => True
         end
  end.
Proof.
  induction fuel as [|fuel IH]; intros bc stream index batch Hfuel; [lia|].
  cbn [btp.importBatches].
  pose proof (loadBatch_spec btp.batchSize stream index) as Hload.
  destruct (btp.loadBatch btp.batchSize stream index)
    as [[[loaded rest] index']|err]; [|split; [auto|exact I]].
  destruct Hload as (Hstream & _ & Hempty).
  case_decide as Hnone.
  - split; [auto|]. split; [reflexivity|].
    apply nil_length_inv in Hnone. destruct (Hempty Hnone) as [Hroom| ->].
    + discriminate.
    + exists []. split; [reflexivity | constructor].
  - assert (length rest < fuel) as Hrest.
    { rewrite Hstream, length_app, length_map in Hfuel. lia. }
    destruct (btp.hasAllBlocks bc loaded) eqn:Hall.
    + specialize (IH bc rest index' (S batch) Hrest).
      destruct (btp.importBatches fuel bc rest index' (S batch)) as [bc' imported].
      destruct IH as [Hmono Himported]. split; [exact Hmono|].
      destruct imported as [done|err]; [|exact I].
      destruct Himported as (-> & blocks & -> & Hcommitted).
      split; [reflexivity|]. exists (loaded ++ blocks).
      split; [by rewrite Hstream, map_app|].
      apply Forall_app. split; [|exact Hcommitted].
      unfold btp.hasAllBlocks in Hall. rewrite forallb_forall in Hall.
      apply Forall_forall. intros block Hin. apply Hmono, Hall.
      by apply list_elem_of_In.
    + unfold core.InsertChain.
      pose proof (insertChain_spec loaded bc 0) as Hinsert.
      destruct (core.insertChain bc 0 loaded) as [bc1 [n [err|]]].
      * destruct Hinsert as (k & _ & _ & Hmono & _). by split.
      * destruct Hinsert as (k & _ & Hloaded & Hmono1 & ->).
        rewrite firstn_all in Hloaded.
        specialize (IH bc1 rest index' (S batch) Hrest).
        destruct (btp.importBatches fuel bc1 rest index' (S batch)) as [bc' imported].
        destruct IH as [Hmono Himported]. split; [by auto|].
        destruct imported as [done|err]; [|exact I].
        destruct Himported as (-> & blocks & -> & Hcommitted).
        split; [reflexivity|]. exists (loaded ++ blocks).
        split; [by rewrite Hstream, map_app|].
        apply Forall_app. split; [|exact Hcommitted].
        eapply Forall_impl; [exact Hloaded|]. intros block. apply Hmono.
Qed.

(** X16: [ImportChain] returns [true] only when every block of the file was
    decoded and is stored in the chain afterwards; whatever it returns,
    what the chain held before is still there. *)
Theorem ImportChain_imports bc (stream : list (result Block)) :
  match btp.ImportChain bc stream with
  | (bc', imported) =>
      (forall block, committed bc block -> committed bc' block)
      /\ match imported with
         | Ok done =>
             done = true
             /\ exists blocks, stream = map Ok blocks /\ Forall (committed bc') blocks
         | Err _ => True
         end
  end.
Proof.
  unfold btp.ImportChain.
  pose proof (importBatches_spec (S (length stream)) bc stream 0 0 (Nat.lt_succ_diag_r _))
    as Hspec.
  destruct (btp.importBatches (S (length stream)) bc stream 0 0) as [bc' imported].
  destruct Hspec as [Hmono Himported]. split; [|exact Himported].
  intros block. apply Hmono.
Qed.

End InsertChain.

(** On the example chain: blocks 3, 4, 5 with a bad block 4 stop at index
    1 with the error of block 4, block 3 committed; blocks 2 and 3 are both
    committed. *)
Example InsertChain_example :
  (core.InsertChain example.chain2 [example.block3; example.badBlock4; example.block5]).2
    = (1, Some "invalid transaction")
  /\ (core.InsertChain example.chain1 [example.block2; example.block3]).2 = (2, None)
  /\ types.NumberU64 (core.CurrentBlock (core.InsertChain example.chain1 [example.block2; example.block3]).1) = 3%Z.
Proof. vm_compute. repeat split. Qed.

(** A file with blocks 2 and 3 is imported on top of block 1; one with a
    bad block 4 fails in its first batch; one that does not parse fails at
    the block that does not decode. *)
Example ImportChain_example :
  (btp.ImportChain example.chain1 [Ok example.block2; Ok example.block3]).2 = Ok true
  /\ (btp.ImportChain example.chain2
        [Ok example.block3; Ok example.badBlock4; Ok example.block5]).2
     = Err "batch 0: failed to insert: invalid transaction"
  /\ (btp.ImportChain example.chain1 [Ok example.block2; Err "EOF in list"]).2
     = Err "block 1: failed to parse: EOF in list".
Proof. vm_compute. repeat split. Qed.

(** ** Lookup by identifier and the size of a parsed interface *)

Section AbiLookup.

Context `{abi.Hasher} {V : Type} `{abi.ArgPacker V}.

Import abidecode.

Lemma iterationOrder_lookup (a : abi.ABI) order name mbtpod :
  iterationOrder a order ->
  (name, mbtpod) ∈ order <-> abi.Mbtpods a !! name = Some mbtpod.
Proof.
  intros Horder. unfold iterationOrder in Horder. rewrite Horder.
  apply elem_of_map_to_list.
Qed.

(** When a mbtpod of the interface has the identifier asked for, the loop
    stops on a mbtpod of the interface with this identifier. *)
Lemma MbtpodById_order_complete (a : abi.ABI) order (sigdata : bytes) name mbtpod :
  iterationOrder a order ->
  4 <= length sigdata ->
  abi.Mbtpods a !! name = Some mbtpod ->
  abi.Id mbtpod = take 4 sigdata ->
  exists found,
    MbtpodById order sigdata = Ok found
    /\ abi.Id found = take 4 sigdata
    /\ exists other, abi.Mbtpods a !! other = Some found.
Proof.
  intros Horder Hlen Hlookup Hid. unfold MbtpodById.
  rewrite decide_False by lia.
  destruct (find _ order) as [entry|] eqn:Hfind.
  - apply find_some in Hfind as [Hin Hfound]. apply bool_decide_eq_true in Hfound.
    exists entry.2. split; [reflexivity|]. split; [exact Hfound|].
    exists entry.1. apply list_elem_of_In in Hin. destruct entry as [other found].
    by apply (iterationOrder_lookup a order).
  - exfalso. apply (iterationOrder_lookup a order) in Hlookup; [|exact Horder].
    apply list_elem_of_In in Hlookup.
    apply (find_none _ _ Hfind) in Hlookup. simpl in Hlookup.
    apply bool_decide_eq_false in Hlookup. contradiction.
Qed.

(** X3: whatever the order in which the loop of [MbtpodById] visits the
    map, a mbtpod it returns is a mbtpod of the interface whose identifier
    is the first four bytes of the data, and it returns an error only when
    the data has fewer than four bytes or no mbtpod of the interface has
    this identifier. *)
Theorem MbtpodById_finds (a : abi.ABI) order (sigdata : bytes) :
  iterationOrder a order ->
  match MbtpodById order sigdata with
  | Ok mbtpod =>
      4 <= length sigdata
      /\ abi.Id mbtpod = take 4 sigdata
      /\ exists name, abi.Mbtpods a !! name = Some mbtpod
  | Err _ =>
      length sigdata < 4
      \/ forall name mbtpod,
           abi.Mbtpods a !! name = Some mbtpod -> abi.Id mbtpod <> take 4 sigdata
  end.
Proof.
  intros Horder. unfold MbtpodById. case_decide as Hlen; [left; exact Hlen|].
  destruct (find _ order) as [entry|] eqn:Hfind.
  - apply find_some in Hfind as [Hin Hid]. apply bool_decide_eq_true in Hid.
    split; [lia|]. split; [exact Hid|]. exists entry.1.
    apply list_elem_of_In in Hin. destruct entry as [name mbtpod].
    by apply (iterationOrder_lookup a order).
  - right. intros name mbtpod Hlookup Hid.
    apply (iterationOrder_lookup a order) in Hlookup; [|exact Horder].
    apply list_elem_of_In in Hlookup.
    apply (find_none _ _ Hfind) in Hlookup. simpl in Hlookup.
    apply bool_decide_eq_false in Hlookup. contradiction.
Qed.

(** X4: the data [Pack] builds for a mbtpod call leads [MbtpodById] back to
    a mbtpod with the identifier of the packed one, in every iteration
    order, and to the packed mbtpod itself when no two mbtpods of the
    interface share an identifier. *)
Theorem Pack_MbtpodById (a : abi.ABI) order (name : string) (args : list V)
    (data : bytes) :
  iterationOrder a order ->
  name <> "" ->
  abi.Pack a name args = Ok data ->
  exists mbtpod found,
    abi.Mbtpods a !! name = Some mbtpod
    /\ MbtpodById order data = Ok found
    /\ abi.Id found = abi.Id mbtpod
    /\ ((forall n1 m1 n2 m2,
           abi.Mbtpods a !! n1 = Some m1 -> abi.Mbtpods a !! n2 = Some m2 ->
           abi.Id m1 = abi.Id m2 -> m1 = m2) ->
        found = mbtpod).
Proof.
  intros Horder Hname Hpack. unfold abi.Pack in Hpack.
  rewrite decide_False in Hpack by exact Hname.
  destruct (abi.Mbtpods a !! name) as [mbtpod|] eqn:Hlookup; [|discriminate].
  destruct (abi.Arguments_Pack (abi.Inputs mbtpod) args) as [arguments|msg];
    [|discriminate].
  simpl in Hpack. injection Hpack as <-.
  assert (length (abi.Id mbtpod) = 4) as Hlen.
  { unfold abi.Id. rewrite length_take, abi.Keccak256_length. reflexivity. }
  assert (take 4 (abi.Id mbtpod ++ arguments) = abi.Id mbtpod) as Htake.
  { rewrite <- Hlen at 1. apply take_app_length. }
  exists mbtpod.
  pose proof (MbtpodById_order_complete a order (abi.Id mbtpod ++ arguments)
                name mbtpod Horder) as Hfound.
  destruct Hfound as (found & Hfound & Hid & other & Hother);
    [rewrite length_app; lia|exact Hlookup|by rewrite Htake|].
  exists found. split; [reflexivity|]. split; [exact Hfound|].
  rewrite Htake in Hid. split; [exact Hid|].
  intros Hunique. by apply (Hunique other found name mbtpod).
Qed.

End AbiLookup.

(** [MbtpodById] on the interface of the tests, visited in the order of the
    map's listing, with the call data of [send(1)]. *)
Lemma MbtpodById_finds_witness :
  let a := abi.UnmarshalJSON abitest.mbtpoddata in
  let order := map_to_list (abi.Mbtpods a) in
  let sigdata := take 4 (keccak.Keccak256 (bytes_of_string "send(uint256)"))
                 ++ abitest.packUint256 1 in
  abidecode.iterationOrder a order
  /\ match abidecode.MbtpodById order sigdata with
     | Ok mbtpod =>
         4 <= length sigdata
         /\ abi.Id mbtpod = take 4 sigdata
         /\ exists name, abi.Mbtpods a !! name = Some mbtpod
     | Err _ =>
         length sigdata < 4
         \/ forall name mbtpod,
              abi.Mbtpods a !! name = Some mbtpod -> abi.Id mbtpod <> take 4 sigdata
     end.
Proof.
  intros a order sigdata.
  assert (abidecode.iterationOrder a order) as Horder
    by (unfold abidecode.iterationOrder; reflexivity).
  split; [exact Horder|].
  exact (@MbtpodById_finds keccakHasher a order sigdata Horder).
Defined.

Lemma Pack_MbtpodById_witness :
  let a := abi.UnmarshalJSON abitest.mbtpoddata in
  let order := map_to_list (abi.Mbtpods a) in
  let data := take 4 (keccak.Keccak256 (bytes_of_string "send(uint256)"))
              ++ abitest.packUint256 1 in
  abi.Pack a "send" [1%Z] = Ok data
  /\ exists mbtpod found,
       abi.Mbtpods a !! "send" = Some mbtpod
       /\ abidecode.MbtpodById order data = Ok found
       /\ abi.Id found = abi.Id mbtpod
       /\ ((forall n1 m1 n2 m2,
              abi.Mbtpods a !! n1 = Some m1 -> abi.Mbtpods a !! n2 = Some m2 ->
              abi.Id m1 = abi.Id m2 -> m1 = m2) ->
           found = mbtpod).
Proof.
  intros a order data.
  assert (abidecode.iterationOrder a order) as Horder
    by (unfold abidecode.iterationOrder; reflexivity).
  assert ("send" <> "") as Hname by discriminate.
  assert (abi.Pack a "send" [1%Z] = Ok data) as Hpack by (vm_compute; reflexivity).
  split; [exact Hpack|].
  exact (@Pack_MbtpodById keccakHasher Z abitest.uintPacker a order
           "send" [1%Z] data Horder Hname Hpack).
Defined.

(** ** Every entry of the JSON array is kept *)

Section UnmarshalSize.

Implicit Types (a : abi.ABI) (field : abi.Field) (fields : list abi.Field).

(** One entry: a function adds one mbtpod, an event one event, and nothing
    registered before is replaced. *)
Lemma addField_size a field :
  size (abi.Mbtpods (abi.addField a field))
  = size (abi.Mbtpods a) + (if decide (isFunction field) then 1 else 0)
  /\ size (abi.Events (abi.addField a field))
     = size (abi.Events a) + (if decide (isEvent field) then 1 else 0).
Proof.
  unfold abi.addField, isFunction, isEvent.
  destruct (decide (abi.f_Type field = "constructor")) as [Hc|Hc].
  { rewrite !decide_False; [simpl; lia|rewrite Hc; discriminate
                           |rewrite Hc; intros [?|?]; discriminate]. }
  destruct (decide (abi.f_Type field = "function" \/ abi.f_Type field = ""))
    as [Hf|Hf].
  { rewrite decide_False by (destruct Hf as [-> | ->]; discriminate).
    simpl. rewrite map_size_insert_None by apply freshName_free. lia. }
  destruct (decide (abi.f_Type field = "event")) as [He|He]; simpl; [|lia].
  rewrite map_size_insert_None by apply freshName_free. lia.
Qed.

Lemma addField_keeps a field :
  (forall name mbtpod, abi.Mbtpods a !! name = Some mbtpod ->
                       abi.Mbtpods (abi.addField a field) !! name = Some mbtpod)
  /\ (forall name event, abi.Events a !! name = Some event ->
                         abi.Events (abi.addField a field) !! name = Some event).
Proof.
  unfold abi.addField. split; intros name x Hlookup;
    repeat case_decide; simpl; try exact Hlookup.
  - rewrite lookup_insert_ne; [exact Hlookup|].
    intros <-. rewrite freshName_free in Hlookup. discriminate.
  - rewrite lookup_insert_ne; [exact Hlookup|].
    intros <-. rewrite freshName_free in Hlookup. discriminate.
Qed.

Lemma addField_registers a field :
  (isFunction field ->
   exists name, abi.Mbtpods (abi.addField a field) !! name = Some (mbtpodOf name field))
  /\ (isEvent field ->
      exists name, abi.Events (abi.addField a field) !! name = Some (eventOf name field)).
Proof.
  unfold abi.addField, isFunction, isEvent. split; intros Hkind.
  - rewrite decide_False by (destruct Hkind as [-> | ->]; discriminate).
    rewrite decide_True by exact Hkind. simpl.
    eexists. apply lookup_insert_eq.
  - rewrite decide_False by (rewrite Hkind; discriminate).
    rewrite decide_False by (rewrite Hkind; intros [?|?]; discriminate).
    rewrite decide_True by exact Hkind. simpl.
    eexists. apply lookup_insert_eq.
Qed.

Lemma fold_addField_spec fields : forall a,
  let parsed := fold_left abi.addField fields a in
  size (abi.Mbtpods parsed) = size (abi.Mbtpods a) + length (filter isFunction fields)
  /\ size (abi.Events parsed) = size (abi.Events a) + length (filter isEvent fields)
  /\ (forall name mbtpod, abi.Mbtpods a !! name = Some mbtpod ->
                          abi.Mbtpods parsed !! name = Some mbtpod)
  /\ (forall name event, abi.Events a !! name = Some event ->
                         abi.Events parsed !! name = Some event)
  /\ (forall field, field ∈ fields -> isFunction field ->
        exists name, abi.Mbtpods parsed !! name = Some (mbtpodOf name field))
  /\ (forall field, field ∈ fields -> isEvent field ->
        exists name, abi.Events parsed !! name = Some (eventOf name field)).
Proof.
  induction fields as [|field fields IH]; intros a; cbn [fold_left].
  - repeat split; try done; try (simpl; lia);
      intros field Hin; by apply elem_of_nil in Hin.
  - specialize (IH (abi.addField a field)). cbv zeta in IH.
    destruct IH as (Hm & He & Hkm & Hke & Hrm & Hre).
    destruct (addField_size a field) as [Hsm Hse].
    destruct (addField_keeps a field) as [Hkm1 Hke1].
    destruct (addField_registers a field) as [Hrm1 Hre1].
    rewrite !filter_cons. repeat split.
    + rewrite Hm, Hsm. destruct (decide (isFunction field)); simpl; lia.
    + rewrite He, Hse. destruct (decide (isEvent field)); simpl; lia.
    + intros name mbtpod Hlookup. by apply Hkm, Hkm1.
    + intros name event Hlookup. by apply Hke, Hke1.
    + intros f Hin Hkind. apply elem_of_cons in Hin as [->|Hin].
      * destruct (Hrm1 Hkind) as (name & Hname). exists name. by apply Hkm.
      * by apply Hrm.
    + intros f Hin Hkind. apply elem_of_cons in Hin as [->|Hin].
      * destruct (Hre1 Hkind) as (name & Hname). exists name. by apply Hke.
      * by apply Hre.
Qed.

(** X2: [UnmarshalJSON] loses no entry to a name clash: the interface it
    builds has as many mbtpods as the array has function entries and as many
    events as it has event entries, and each of these entries is registered
    under some key, with its own inputs, outputs and flags and the key as
    its name. *)
Theorem UnmarshalJSON_keeps_entries fields :
  let parsed := abi.UnmarshalJSON fields in
  size (abi.Mbtpods parsed) = length (filter isFunction fields)
  /\ size (abi.Events parsed) = length (filter isEvent fields)
  /\ (forall field, field ∈ fields -> isFunction field ->
        exists name, abi.Mbtpods parsed !! name = Some (mbtpodOf name field))
  /\ (forall field, field ∈ fields -> isEvent field ->
        exists name, abi.Events parsed !! name = Some (eventOf name field)).
Proof.
  unfold abi.UnmarshalJSON.
  destruct (fold_addField_spec fields
              {| abi.Constructor := {| abi.Name := ""; abi.Const := false;
                                       abi.Inputs := []; abi.Outputs := [] |};
                 abi.Mbtpods := ∅; abi.Events := ∅ |})
    as (Hm & He & _ & _ & Hrm & Hre).
  cbv zeta. simpl in Hm, He. rewrite !map_size_empty in *.
  repeat split; [lia|lia|exact Hrm|exact Hre].
Qed.

End UnmarshalSize.

(** ** The mining address and the local blocks *)

Section Btperbase.

Import service.

Implicit Types (s : btp.btpereum) (wallets : Wallets).

(** A configured address is returned as it is, whatever the wallets. *)
Lemma btperbase_configured wallets s :
  isZeroAddress (btp.btperbase s) = false ->
  btperbase wallets s = (s, Ok (btp.btperbase s)).
Proof. intros Hset. unfold btperbase. rewrite Hset. reflexivity. Qed.

(** X7: [btperbase] returns the configured address when there is one, and
    otherwise the first account of the first wallet, which it stores; a
    non-zero address it has returned is returned by every later call,
    whatever the wallets have become, without any further change.  It fails
    only when no address is configured and there is no wallet or the first
    wallet has no account (accounts of other wallets are not looked at), and
    then the service is unchanged. *)
Theorem btperbase_resolution wallets s :
  match btperbase wallets s with
  | (s', Ok eb) =>
      (if isZeroAddress (btp.btperbase s)
       then exists rest others, wallets = (eb :: rest) :: others
       else eb = btp.btperbase s /\ s' = s)
      /\ btp.btperbase s' = eb
      /\ (isZeroAddress eb = false ->
          forall wallets', btperbase wallets' s' = (s', Ok eb))
  | (s', Err _) =>
      s' = s
      /\ isZeroAddress (btp.btperbase s) = true
      /\ (wallets = [] \/ exists others, wallets = [] :: others)
  end.
Proof.
  unfold btperbase at 1.
  destruct (isZeroAddress (btp.btperbase s)) eqn:Hzero; simpl.
  - destruct wallets as [|[|eb rest] others].
    + split; [reflexivity|]. split; [reflexivity|]. by left.
    + split; [reflexivity|]. split; [reflexivity|]. right. by exists others.
    + split; [by exists rest, others|]. split; [reflexivity|].
      intros Hset wallets'. by apply btperbase_configured.
  - split; [by split|]. split; [reflexivity|].
    intros _ wallets'. by apply btperbase_configured.
Qed.

(** X8: an address set with [Setbtperbase] is the one [btperbase] returns
    afterwards, whatever the wallets hold, unless it is the zero address:
    setting the zero address unsets the mining address, and [btperbase]
    resolves it from the wallets again. *)
Theorem Setbtperbase_btperbase wallets s (address : bytes) :
  let s' := Setbtperbase s address in
  btp.btperbase s' = address
  /\ (isZeroAddress address = false -> btperbase wallets s' = (s', Ok address))
  /\ (isZeroAddress address = true ->
      (btperbase wallets s').2
      = match wallets with
        | (first :: _) :: _ => Ok first
        | _ => Err "btperbase must be explicitly specified"
        end).
Proof.
  cbv zeta. split; [reflexivity|]. split.
  - intros Hset. by apply btperbase_configured.
  - intros Hzero. unfold btperbase. simpl. rewrite Hzero. simpl.
    destruct wallets as [|[|eb rest] others]; reflexivity.
Qed.

Context `{Consensus}.

(** X9: a block is preserved across a reorganisation exactly when the
    engine is not the proof-of-authority engine, the engine recovers the
    block's author, and the author is the mining address of the service or
    one of the local accounts of the pool's configuration. *)
Theorem shouldPreserve_local s (block : types.Block) :
  shouldPreserve s block = true
  <-> btp.engine s <> btp.CliqueEngine
      /\ exists author,
           Author (btp.engine s) (types.header block) = Ok author
           /\ (author = btp.btperbase s
               \/ author ∈ txpool.Locals (btp.TxPool (btp.config s))).
Proof.
  assert (isLocalBlock s block = true
          <-> exists author,
                Author (btp.engine s) (types.header block) = Ok author
                /\ (author = btp.btperbase s
                    \/ author ∈ txpool.Locals (btp.TxPool (btp.config s))))
    as Hlocal.
  { unfold isLocalBlock.
    destruct (Author (btp.engine s) (types.header block)) as [author|msg].
    - case_decide as Heb.
      + split; [|done]. intros _. exists author. by split; [|left].
      + rewrite existsb_exists. split.
        * intros (account & Hin & Heq). apply bool_decide_eq_true in Heq as ->.
          exists author. split; [reflexivity|]. right. by apply list_elem_of_In.
        * intros (a & Ha & [Hl|Hl]); injection Ha as <-; [contradiction|].
          exists author. split; [by apply list_elem_of_In|].
          by apply bool_decide_eq_true.
    - split; [discriminate|]. by intros (a & Ha & _). }
  unfold shouldPreserve.
  destruct (btp.engine s) eqn:Hengine; rewrite ?Hlocal;
    try (split; [intros Hl; split; [discriminate|exact Hl]|intros [_ Hl]; exact Hl]).
  split; [discriminate|]. by intros [Hne _].
Qed.

End Btperbase.

(** ** Starting the miner and the network *)

Section Mining.

Import service.

Context `{Accounts}.

Implicit Types (s : btp.btpereum) (wallets : Wallets).

(** What [btperbase] returns depends on the mining address of the service
    and on the wallets only. *)
Lemma btperbase_result wallets s1 s2 :
  btp.btperbase s1 = btp.btperbase s2 ->
  (btperbase wallets s1).2 = (btperbase wallets s2).2.
Proof.
  intros Heq. unfold btperbase. rewrite Heq.
  destruct (isZeroAddress (btp.btperbase s2)); simpl; [|reflexivity].
  destruct wallets as [|[|eb rest] others]; reflexivity.
Qed.

(** What [btperbase] leaves of the service: everything but the mining
    address, which is the address returned. *)
Lemma btperbase_state wallets s :
  match btperbase wallets s with
  | (s', Ok eb) => s' = withBtperbase s eb
  | (s', Err _) => s' = s
  end.
Proof.
  unfold btperbase. destruct (isZeroAddress (btp.btperbase s)); simpl.
  - destruct wallets as [|[|eb rest] others]; reflexivity.
  - by destruct s.
Qed.

(** X10: [StartMining] on a running miner makes no call and never fails:
    it leaves the pool (and its minimum price), the mining address and the
    protocol manager as they are.  On an idle miner it sets the pool's
    minimum price to the gas price of the service and then either fails,
    with no call made and the transaction rejection as it was, because no
    mining address can be resolved or, under proof of authority, because
    [Find] finds no wallet for it; or it succeeds: the node then accepts
    transactions ([Synced]), the miner is started with the resolved address,
    which is the mining address of the service, and under proof of
    authority the engine was authorised with this address before. *)
Theorem StartMining_spec wallets s (threads : Z) :
  match StartMining wallets s threads with
  | (s', calls, err) =>
      if IsMining s then
        err = None /\ calls = []
        /\ btp.txPool s' = btp.txPool s
        /\ btp.btperbase s' = btp.btperbase s
        /\ btp.protocolManager s' = btp.protocolManager s
      else
        txpool.gasPrice (btp.txPool s') = btp.gasPrice s
        /\ match err with
           | None =>
               exists eb,
                 (btperbase wallets s).2 = Ok eb
                 /\ btp.btperbase s' = eb
                 /\ Synced s' = true
                 /\ match btp.engine s with
                    | btp.CliqueEngine =>
                        is_ok (Find wallets eb) = true
                        /\ calls = [CallAuthorize eb; CallMinerStart eb]
                    | _ => calls = [CallMinerStart eb]
                    end
           | Some _ =>
               calls = []
               /\ pm.acceptTxs (btp.protocolManager s')
                  = pm.acceptTxs (btp.protocolManager s)
               /\ (is_ok (btperbase wallets s).2 = false
                   \/ btp.engine s = btp.CliqueEngine
                      /\ exists eb, (btperbase wallets s).2 = Ok eb
                                    /\ is_ok (Find wallets eb) = false)
           end
  end.
Proof.
  unfold StartMining.
  set (s1 := if threaded (btp.engine s) then _ else s).
  assert (btp.miner s1 = btp.miner s /\ btp.txPool s1 = btp.txPool s
          /\ btp.btperbase s1 = btp.btperbase s
          /\ btp.protocolManager s1 = btp.protocolManager s
          /\ btp.gasPrice s1 = btp.gasPrice s
          /\ (btp.engine s1 = btp.CliqueEngine <-> btp.engine s = btp.CliqueEngine))
    as (Hminer & Hpool & Heb & Hpm & Hprice & Hclique).
  { unfold s1. destruct (btp.engine s) eqn:Hengine; simpl; rewrite ?Hengine;
      repeat split; try discriminate; try done. }
  clearbody s1. unfold IsMining. rewrite Hminer.
  destruct (miner.mining (btp.miner s)); simpl; [by repeat split|].
  set (s2 := withTxPool s1 _).
  pose proof (btperbase_state wallets s2) as Hstate.
  pose proof (btperbase_result wallets s2 s) as Hresult.
  destruct (btperbase wallets s2) as [s3 [eb|msg]]; simpl in Hresult;
    rewrite <- Hresult by exact Heb; subst s3.
  - assert (btp.engine (withBtperbase s2 eb) = btp.engine s1) as Hengine
      by reflexivity.
    rewrite Hengine.
    destruct (btp.engine s) eqn:Hc.
    + assert (btp.engine s1 = btp.CliqueEngine) as Hc1 by (by apply Hclique).
      rewrite Hc1.
      destruct (Find wallets eb) as [[]|err] eqn:Hfind; simpl.
      * split; [by rewrite Hprice|]. exists eb.
        split; [reflexivity|]. split; [reflexivity|]. split; [reflexivity|].
        rewrite Hfind. by split.
      * split; [by rewrite Hprice|]. split; [reflexivity|].
        split; [by rewrite Hpm|]. right. split; [reflexivity|].
        exists eb. rewrite Hfind. by split.
    + destruct (btp.engine s1) eqn:Hc1;
        [destruct Hclique as [Hcl _]; discriminate (Hcl eq_refl)|..]; simpl;
        (split; [by rewrite Hprice|]; exists eb; by repeat split).
    + destruct (btp.engine s1) eqn:Hc1;
        [destruct Hclique as [Hcl _]; discriminate (Hcl eq_refl)|..]; simpl;
        (split; [by rewrite Hprice|]; exists eb; by repeat split).
    + destruct (btp.engine s1) eqn:Hc1;
        [destruct Hclique as [Hcl _]; discriminate (Hcl eq_refl)|..]; simpl;
        (split; [by rewrite Hprice|]; exists eb; by repeat split).
    + destruct (btp.engine s1) eqn:Hc1;
        [destruct Hclique as [Hcl _]; discriminate (Hcl eq_refl)|..]; simpl;
        (split; [by rewrite Hprice|]; exists eb; by repeat split).
  - simpl. split; [by rewrite Hprice|]. split; [reflexivity|].
    split; [by rewrite Hpm|]. by left.
Qed.


End Mining.

(** ** What a built service holds *)

Section Built.

Context `{btp.Backend}.

Local Open Scope Z_scope.

(** The extra data [makeExtraData] returns is accepted by the miner. *)
Lemma SetExtra_makeExtraData (m : miner.Miner) (bi : BuildInfo) (extra : bytes) :
  miner.SetExtra m (makeExtraData bi extra)
  = ({| miner.extra := makeExtraData bi extra; miner.mining := miner.mining m |}, None)
  /\ Z.of_nat (length (makeExtraData bi extra)) <= params.MaximumExtraDataSize.
Proof.
  assert (Z.of_nat (length (makeExtraData bi extra)) <= params.MaximumExtraDataSize)
    as Hcap.
  { rewrite makeExtraData_unfold. cbv zeta.
    destruct (params.MaximumExtraDataSize <? _) eqn:Hlong.
    - simpl. unfold params.MaximumExtraDataSize. lia.
    - by apply Z.ltb_ge in Hlong. }
  split; [|exact Hcap]. unfold miner.SetExtra.
  apply Z.ltb_ge in Hcap. rewrite Hcap. reflexivity.
Qed.

(** The steps of [New], read back from a service it has built. *)
Lemma New_inv (ctx : btp.ServiceContext) (config : btp.Config) (node : btp.btpereum) :
  btp.New ctx config = Ok node ->
  exists db cfg hash genesisErr db1 h1 cache bc manager,
    btp.OpenDatabaseWithFreezer ctx = Ok db
    /\ btp.SetupGenesisBlock db (btp.Genesis config) = (cfg, hash, genesisErr)
    /\ (forall msg, genesisErr <> Some (btp.OtherGenesisError msg))
    /\ btp.checkDatabaseVersion config db = Ok (db1, h1)
    /\ cache
       = (if btp.NoPruning config && (0 <? btp.TrieDirtyCache config)
          then {| btp.TrieCleanLimit := btp.TrieCleanCache config + btp.TrieDirtyCache config;
                  btp.TrieCleanNoPrefetch := btp.NoPrefetch config;
                  btp.TrieDirtyLimit := 0;
                  btp.TrieDirtyDisabled := btp.NoPruning config |}
          else {| btp.TrieCleanLimit := btp.TrieCleanCache config;
                  btp.TrieCleanNoPrefetch := btp.NoPrefetch config;
                  btp.TrieDirtyLimit := btp.TrieDirtyCache config;
                  btp.TrieDirtyDisabled := btp.NoPruning config |})
    /\ btp.NewBlockChain db1 cache cfg (btp.CreateConsensusEngine cfg (btp.btpash config))
       = Ok bc
    /\ node
       = {| btp.config := config;
            btp.shutdownChanClosed := false;
            btp.txPool :=
              btp.NewTxPool
                (if decide (txpool.Journal (btp.TxPool config) = "")
                 then btp.TxPool config
                 else {| txpool.Locals := txpool.Locals (btp.TxPool config);
                         txpool.Journal :=
                           btp.ResolvePath ctx (txpool.Journal (btp.TxPool config)) |})
                cfg (rewound genesisErr bc);
            btp.blockchain := rewound genesisErr bc;
            btp.protocolManager := manager;
            btp.lesServer := None;
            btp.chainDb := reconfigured genesisErr db1 hash cfg;
            btp.eventMuxRunning := true;
            btp.engine := btp.CreateConsensusEngine cfg (btp.btpash config);
            btp.engineClosed := false;
            btp.bloomIndexerRunning := true;
            btp.miner :=
              (miner.SetExtra {| miner.extra := []; miner.mining := false |}
                 (makeExtraData btp.build (miner.ExtraData (btp.Miner config)))).1;
            btp.gasPrice :=
              match miner.GasPrice (btp.Miner config) with
              | Some p => if p <=? 0 then btp.DefaultGasPrice else p
              | None => btp.DefaultGasPrice
              end;
            btp.btperbase := miner.btperbase (btp.Miner config);
            btp.networkID := btp.NetworkId config;
            btp.history := h1 ++ rewindEvents genesisErr hash |}
    /\ (btp.SyncMode config = downloader.FullSync
        \/ btp.SyncMode config = downloader.FastSync).
Proof.
  unfold btp.New. intros Hnew.
  case_decide as Hlight; [discriminate|].
  destruct (downloader.IsValid (btp.SyncMode config)) eqn:Hvalid; [|discriminate].
  simpl negb in Hnew. cbv iota in Hnew.
  assert (btp.SyncMode config = downloader.FullSync
          \/ btp.SyncMode config = downloader.FastSync) as Hmode.
  { apply IsValid_iff in Hvalid. tauto. }
  destruct (btp.NoPruning config && (0 <? btp.TrieDirtyCache config)) eqn:Hprune;
    (destruct (btp.OpenDatabaseWithFreezer ctx) as [db|] eqn:Hopen; [|discriminate]);
    simpl in Hnew;
    (destruct (btp.SetupGenesisBlock db (btp.Genesis config))
       as [[cfg hash] genesisErr] eqn:Hgenesis);
    (destruct genesisErr as [[compat|msg]|]; [|discriminate|]);
    (destruct (btp.checkDatabaseVersion config db) as [[db1 h1]|] eqn:Hversion;
       [|discriminate]);
    simpl in Hnew;
    match type of Hnew with
    | context [btp.NewBlockChain ?d ?c ?g ?e] =>
        destruct (btp.NewBlockChain d c g e) as [bc|] eqn:Hbc; [|discriminate]
    end;
    simpl in Hnew;
    match type of Hnew with
    | context [btp.NewProtocolManager ?g ?m ?n ?p ?b ?l] =>
        destruct (btp.NewProtocolManager g m n p b l) as [manager|]; [|discriminate]
    end;
    simpl in Hnew; injection Hnew as <-;
    (eexists db, cfg, hash, _, db1, h1, _, bc, manager;
     split; [reflexivity|]; split; [exact Hgenesis|];
     split; [intros msg; discriminate|]; split; [exact Hversion|];
     split; [reflexivity|]; split; [exact Hbc|]; split; [reflexivity|exact Hmode]).
Qed.

(** X13: a service [New] has built holds sane values whatever the
    configuration said: its gas price is positive (the configured one when
    that is positive, the default of one gwei otherwise), the miner holds
    the extra data [makeExtraData] chose, within the cap (so the error of
    [SetExtra], which [New] ignores, cannot occur), the miner is idle with
    CPU mining disabled in the normal proof-of-work engine, the mining
    address and the network are the configured ones, there is no light
    server, and the sync mode is full or fast. *)
Theorem New_sanitizes (ctx : btp.ServiceContext) (config : btp.Config)
    (node : btp.btpereum) :
  btp.New ctx config = Ok node ->
  0 < btp.gasPrice node
  /\ btp.gasPrice node
     = match miner.GasPrice (btp.Miner config) with
       | Some p => if 0 <? p then p else btp.DefaultGasPrice
       | None => btp.DefaultGasPrice
       end
  /\ miner.extra (btp.miner node)
     = makeExtraData btp.build (miner.ExtraData (btp.Miner config))
  /\ Z.of_nat (length (miner.extra (btp.miner node))) <= params.MaximumExtraDataSize
  /\ miner.mining (btp.miner node) = false
  /\ (forall threads, btp.engine node = btp.Btpash threads -> threads = -1)
  /\ btp.btperbase node = miner.btperbase (btp.Miner config)
  /\ btp.networkID node = btp.NetworkId config
  /\ btp.lesServer node = None
  /\ (btp.SyncMode config = downloader.FullSync
      \/ btp.SyncMode config = downloader.FastSync).
Proof.
  intros Hnew.
  destruct (New_inv ctx config node Hnew)
    as (db & cfg & hash & genesisErr & db1 & h1 & cache & bc & manager
        & _ & _ & _ & _ & _ & _ & -> & Hmode).
  destruct (SetExtra_makeExtraData {| miner.extra := []; miner.mining := false |}
              btp.build (miner.ExtraData (btp.Miner config))) as [Hset Hcap].
  simpl. rewrite Hset. simpl.
  repeat split; try exact Hmode; try exact Hcap.
  - destruct (miner.GasPrice (btp.Miner config)) as [p|];
      [destruct (p <=? 0) eqn:Hp; [|apply Z.leb_gt in Hp; exact Hp]|];
      unfold btp.DefaultGasPrice; lia.
  - destruct (miner.GasPrice (btp.Miner config)) as [p|]; [|reflexivity].
    destruct (p <=? 0) eqn:Hp.
    + apply Z.leb_le in Hp. by rewrite (proj2 (Z.ltb_ge 0 p)) by lia.
    + apply Z.leb_gt in Hp. by rewrite (proj2 (Z.ltb_lt 0 p)) by lia.
  - unfold btp.CreateConsensusEngine. intros threads.
    destruct (params.Clique cfg); [discriminate|].
    destruct (btp.powMode (btp.btpash config)); intros [= <-]; reflexivity.
Qed.


End Built.

(** The service of the examples is built in full sync mode. *)
Lemma New_sanitizes_witness :
  exists node,
    btp.New (example.context (Some 7%Z))
            (example.withSyncMode downloader.FullSync None) = Ok node
    /\ btp.gasPrice node = btp.DefaultGasPrice
    /\ length (miner.extra (btp.miner node)) = 25.
Proof.
  assert (exists node,
            btp.New (example.context (Some 7%Z))
                    (example.withSyncMode downloader.FullSync None) = Ok node)
    as [node Hnew] by (vm_compute; eauto).
  exists node. split; [exact Hnew|].
  destruct (New_sanitizes _ _ node Hnew) as (_ & Hprice & Hextra & _).
  split; [exact Hprice|]. rewrite Hextra. vm_compute. reflexivity.
Defined.


(** ** Starting the network *)

Section StartService.

Import service.

Local Open Scope Z_scope.

(** X12: [Start] with a light server configured refuses a light-peer count
    that leaves no room for full peers, after it has started the entry
    updater, the bloom handlers and the network API but before it starts the
    protocol manager or the light server; otherwise it starts the protocol
    manager with what is left of the peer limit, a positive number of peers
    that adds up with the light peers to the limit of the server.  Without
    light serving the protocol manager gets the whole limit. *)
Theorem Start_peer_budget (s : btp.btpereum) (MaxPeers : Z) :
  0 <= btp.LightPeers (btp.config s) ->
  MaxPeers < 2 ^ 63 ->
  let started :=
    [CallStartEntryUpdate; CallStartBloomHandlers;
     CallNewPublicNetAPI (btp.networkID s)] in
  match Start s MaxPeers with
  | (calls, None) =>
      exists maxPeers,
        calls = started ++ [CallProtocolManagerStart maxPeers]
                  ++ match btp.lesServer s with
                     | Some _ => [CallLesServerStart]
                     | None => []
                     end
        /\ if 0 <? btp.LightServ (btp.config s)
           then 0 < maxPeers /\ maxPeers + btp.LightPeers (btp.config s) = MaxPeers
           else maxPeers = MaxPeers
  | (calls, Some _) =>
      0 < btp.LightServ (btp.config s)
      /\ MaxPeers <= btp.LightPeers (btp.config s)
      /\ calls = started
  end.
Proof.
  intros Hlight Hmax started. unfold Start. fold started.
  destruct (0 <? btp.LightServ (btp.config s)) eqn:Hserv.
  - destruct (MaxPeers <=? btp.LightPeers (btp.config s)) eqn:Hroom.
    + apply Z.ltb_lt in Hserv. apply Z.leb_le in Hroom. by repeat split.
    + apply Z.leb_gt in Hroom. eexists. split; [reflexivity|].
      assert (int (MaxPeers - btp.LightPeers (btp.config s))
              = MaxPeers - btp.LightPeers (btp.config s)) as ->.
      { unfold int. rewrite Z.mod_small; lia. }
      lia.
  - eexists. split; reflexivity.
Qed.

End StartService.

(** With 30 light peers out of 50 the protocol manager is started for 20
    peers, and then the light server; out of 30 the start is refused. *)
Lemma Start_peer_budget_witness :
  service.Start servingNode 50
  = ([service.CallStartEntryUpdate; service.CallStartBloomHandlers;
      service.CallNewPublicNetAPI 1; service.CallProtocolManagerStart 20;
      service.CallLesServerStart], None)
  /\ (service.Start servingNode 30).1
     = [service.CallStartEntryUpdate; service.CallStartBloomHandlers;
        service.CallNewPublicNetAPI 1].
Proof.
  assert (0 <= btp.LightPeers (btp.config servingNode))%Z as Hlight
    by (vm_compute; discriminate).
  split.
  - assert (50 < 2 ^ 63)%Z as Hmax by reflexivity.
    pose proof (Start_peer_budget servingNode 50 Hlight Hmax) as Hstart.
    cbv zeta in Hstart.
    destruct (service.Start servingNode 50) as [calls [msg|]] eqn:Hcalls.
    + vm_compute in Hcalls. discriminate.
    + destruct Hstart as (maxPeers & -> & Hpeers).
      change (0 < maxPeers /\ maxPeers + 30 = 50)%Z in Hpeers.
      destruct Hpeers as [_ Hpeers].
      assert (maxPeers = 20%Z) as -> by lia. reflexivity.
  - assert (30 < 2 ^ 63)%Z as Hmax by reflexivity.
    pose proof (Start_peer_budget servingNode 30 Hlight Hmax) as Hstart.
    cbv zeta in Hstart.
    destruct (service.Start servingNode 30) as [calls [msg|]] eqn:Hcalls.
    + by destruct Hstart as (_ & _ & ->).
    + vm_compute in Hcalls. discriminate.
Defined.

(** ** Files that are known already, and files that do not parse *)

Section ImportFile.

Context `{core.Engine}.

Import types.

Implicit Types (bc : core.BlockChain) (blocks : list Block).

(** A stream of blocks fills the buffer with its first [room] blocks. *)
Lemma loadBatch_blocks (room : nat) : forall blocks (index : nat),
  btp.loadBatch room (map Ok blocks) index
  = Ok (take room blocks, map Ok (drop room blocks),
        index + length (take room blocks)).
Proof.
  induction room as [|room IH]; intros blocks index; simpl.
  - rewrite drop_0, Nat.add_0_r. reflexivity.
  - destruct blocks as [|block blocks]; simpl.
    + rewrite Nat.add_0_r. reflexivity.
    + rewrite IH. simpl. do 3 f_equal. lia.
Qed.

(** A parse error before the buffer is full ends the loading with the
    index of the element that does not decode. *)
Lemma loadBatch_parse_error (room : nat) : forall blocks (err : string)
    (rest : list (result Block)) (index : nat),
  length blocks < room ->
  btp.loadBatch room (map Ok blocks ++ Err err :: rest) index
  = Err ("block " +:+ pretty (index + length blocks) +:+ ": failed to parse: " +:+ err).
Proof.
  induction room as [|room IH]; intros blocks err rest index Hroom; [lia|].
  destruct blocks as [|block blocks]; simpl.
  - rewrite Nat.add_0_r. reflexivity.
  - simpl in Hroom. rewrite IH by lia. simpl. do 4 f_equal. lia.
Qed.

Lemma importBatches_known (fuel : nat) : forall bc blocks (index batch : nat),
  length blocks < fuel ->
  Forall (committed bc) blocks ->
  btp.importBatches fuel bc (map Ok blocks) index batch = (bc, Ok true).
Proof.
  induction fuel as [|fuel IH]; intros bc blocks index batch Hfuel Hknown; [lia|].
  cbn [btp.importBatches]. rewrite loadBatch_blocks.
  case_decide as Hnone; [reflexivity|].
  assert (btp.hasAllBlocks bc (take btp.batchSize blocks) = true) as ->.
  { unfold btp.hasAllBlocks. apply forallb_forall. intros block Hin.
    apply list_elem_of_In in Hin.
    pose proof (Forall_take _ btp.batchSize _ Hknown) as Htake.
    rewrite Forall_forall in Htake. by apply Htake. }
  apply IH.
  - rewrite length_drop. rewrite length_take in Hnone.
    unfold btp.batchSize in *. lia.
  - by apply Forall_drop.
Qed.

(** X17: importing a file whose blocks the chain holds already returns
    [true] and leaves the chain as it is: every batch is skipped by
    [hasAllBlocks], and [InsertChain] is not called. *)
Theorem ImportChain_known bc blocks :
  Forall (committed bc) blocks ->
  btp.ImportChain bc (map Ok blocks) = (bc, Ok true).
Proof.
  intros Hknown. unfold btp.ImportChain.
  apply importBatches_known; [|exact Hknown].
  rewrite length_map. lia.
Qed.

(** X18: a file whose first element that does not decode comes before the
    first batch of 2500 blocks is full is refused with the index of that
    element, and none of the blocks before it is imported: the chain is
    unchanged. *)
Theorem ImportChain_parse_error bc blocks (err : string) (rest : list (result Block)) :
  length blocks < btp.batchSize ->
  btp.ImportChain bc (map Ok blocks ++ Err err :: rest)
  = (bc, Err ("block " +:+ pretty (length blocks) +:+ ": failed to parse: " +:+ err)).
Proof.
  intros Hroom. unfold btp.ImportChain. cbn [btp.importBatches].
  rewrite loadBatch_parse_error by exact Hroom. reflexivity.
Qed.

End ImportFile.

(** Blocks 1 and 2 are on the example chain: importing them again changes
    nothing. *)
Lemma ImportChain_known_witness :
  btp.ImportChain example.chain2 [Ok example.block1; Ok example.block2]
  = (example.chain2, Ok true).
Proof.
  assert (Forall (committed example.chain2) [example.block1; example.block2])
    as Hknown by (repeat constructor).
  exact (ImportChain_known example.chain2 [example.block1; example.block2] Hknown).
Defined.

(** Block 3 followed by an element that does not decode: block 3 is not
    imported. *)
Lemma ImportChain_parse_error_witness :
  btp.ImportChain example.chain2 [Ok example.block3; Err "EOF in list"]
  = (example.chain2, Err "block 1: failed to parse: EOF in list").
Proof.
  assert (length [example.block3] < btp.batchSize) as Hroom
    by (unfold btp.batchSize; simpl; lia).
  exact (ImportChain_parse_error example.chain2 [example.block3] "EOF in list" []
           Hroom).
Defined.

(** ** Pages of the storage range *)

Section StoragePages.

Import debugapi.

Implicit Types (st : trie.SecureTrie) (it : trie.Iterator)
  (storage : gmap common.Hash storageEntry) (leaf : bytes * bytes).

(** The loop fails exactly when one of the leaves it visits holds a value
    that is not an encoded item. *)
Lemma storageLoop_ok_iff st n : forall it storage,
  is_ok (storageLoop st n it storage) = true
  <-> Forall decodable (take n (trie.nodeIt it)).
Proof.
  induction n as [|n IH]; intros it storage; simpl.
  - split; [constructor|reflexivity].
  - unfold trie.Next. destruct (trie.nodeIt it) as [|[k v] rest] eqn:Hleaves; simpl.
    + split; [constructor|reflexivity].
    + rewrite Forall_cons. unfold storeEntry, decodable at 1. simpl.
      destruct (rlp.Split v) as [[[kind content] tail]|msg]; simpl.
      * rewrite IH. simpl. tauto.
      * split; [discriminate|]. by intros [? _].
Qed.

(** X19: [storageRangeAt] fails exactly when one of the first [maxResult]
    leaves from [start] on holds a value that is not an encoded item: leaves
    beyond the page do not matter, not even the one that gives the next
    key.  With a bound that is zero or negative it returns an empty page
    whose next key is the first key from [start] on. *)
Theorem storageRangeAt_ok_iff st (start : bytes) (maxResult : Z) :
  (is_ok (storageRangeAt st start maxResult) = true
   <-> Forall decodable (take (Z.to_nat maxResult) (trie.NodeIterator st start)))
  /\ ((maxResult <= 0)%Z ->
      storageRangeAt st start maxResult
      = Ok {| Storage := ∅;
              NextKey := (fun leaf => common.BytesToHash leaf.1)
                           <$> head (trie.NodeIterator st start) |}).
Proof.
  split.
  - rewrite <- (storageLoop_ok_iff st (Z.to_nat maxResult)
                  (trie.NewIterator (trie.NodeIterator st start)) ∅).
    unfold storageRangeAt.
    destruct (storageLoop st _ _ _) as [[it' storage']|msg]; simpl; [|tauto].
    by destruct (trie.Next it') as [[] ?].
  - intros Hmax. unfold storageRangeAt.
    replace (Z.to_nat maxResult) with 0 by lia. simpl. unfold trie.Next. simpl.
    by destruct (trie.NodeIterator st start) as [|[k v] rest].
Qed.

(** The order of keys. *)
Lemma bytes_ltb_irrefl (a : bytes) : trie.bytes_ltb a a = false.
Proof.
  induction a as [|x a IH]; simpl; [reflexivity|].
  rewrite Z.ltb_irrefl. exact IH.
Qed.

Lemma Z_of_byte_inj (x y : byte) : Z_of_byte x = Z_of_byte y -> x = y.
Proof.
  unfold Z_of_byte. intros Heq. apply N2Z.inj in Heq.
  assert (Some x = Some y) as [= ->]; [|reflexivity].
  by rewrite <- (Byte.of_to_N x), <- (Byte.of_to_N y), Heq.
Qed.

Lemma bytes_ltb_trans (a : bytes) : forall b c,
  trie.bytes_ltb a b = true -> trie.bytes_ltb b c = true -> trie.bytes_ltb a c = true.
Proof.
  induction a as [|x a IH]; intros [|y b] [|z c]; simpl; try done.
  destruct (Z.ltb_spec (Z_of_byte x) (Z_of_byte y)),
           (Z.ltb_spec (Z_of_byte y) (Z_of_byte x)),
           (Z.ltb_spec (Z_of_byte y) (Z_of_byte z)),
           (Z.ltb_spec (Z_of_byte z) (Z_of_byte y)),
           (Z.ltb_spec (Z_of_byte x) (Z_of_byte z)),
           (Z.ltb_spec (Z_of_byte z) (Z_of_byte x));
    try done; try lia.
  apply IH.
Qed.

Lemma bytes_ltb_total (a : bytes) : forall b,
  trie.bytes_ltb a b = false -> trie.bytes_ltb b a = false -> a = b.
Proof.
  induction a as [|x a IH]; intros [|y b]; simpl; try done.
  destruct (Z.ltb_spec (Z_of_byte x) (Z_of_byte y)),
           (Z.ltb_spec (Z_of_byte y) (Z_of_byte x)); try done; try lia.
  intros Hab Hba. f_equal; [apply Z_of_byte_inj; lia|by apply IH].
Qed.

(** A key that is not below [start] has nothing below [start] above it. *)
Lemma bytes_ltb_above (start k x : bytes) :
  trie.bytes_ltb k start = false ->
  trie.bytes_ltb x k = false ->
  trie.bytes_ltb x start = false.
Proof.
  intros Hk Hx. destruct (trie.bytes_ltb x start) eqn:Hxs; [|reflexivity].
  destruct (trie.bytes_ltb start k) eqn:Hsk.
  - by rewrite (bytes_ltb_trans x start k Hxs Hsk) in Hx.
  - rewrite (bytes_ltb_total k start Hk Hsk) in Hx. congruence.
Qed.

Lemma BytesToHash_hash (b : bytes) :
  length b = common.HashLength -> common.BytesToHash b = b.
Proof.
  intros Hlen. unfold common.BytesToHash. rewrite Hlen, Nat.sub_diag, drop_0.
  rewrite Hlen, Nat.sub_diag. reflexivity.
Qed.

Lemma NodeIterator_sorted st (start : bytes) :
  sortedTrie st ->
  StronglySorted (fun leaf1 leaf2 => trie.bytes_ltb leaf1.1 leaf2.1 = true)
                 (trie.NodeIterator st start).
Proof.
  unfold sortedTrie, trie.NodeIterator.
  induction 1 as [|leaf leaves Hsorted IH Hfirst]; [constructor|].
  rewrite filter_cons. case_decide; [|exact IH].
  constructor; [exact IH|].
  rewrite Forall_forall in *. intros x Hin.
  apply list_elem_of_filter in Hin as [_ Hin]. by apply Hfirst.
Qed.

(** Iterating from the key at position [n] of a range gives the range
    without its first [n] leaves. *)
Lemma NodeIterator_next st (start : bytes) (n : nat) (k v : bytes) :
  sortedTrie st ->
  trie.NodeIterator st start !! n = Some (k, v) ->
  trie.NodeIterator st k = drop n (trie.NodeIterator st start).
Proof.
  intros Hsorted Hn.
  pose proof (NodeIterator_sorted st start Hsorted) as Hrange.
  assert (trie.bytes_ltb k start = false) as Hk.
  { apply list_elem_of_lookup_2 in Hn. unfold trie.NodeIterator in Hn.
    by apply list_elem_of_filter in Hn as [Hk _]. }
  transitivity (filter (fun leaf => trie.bytes_ltb leaf.1 k = false)
                       (trie.NodeIterator st start)).
  { unfold trie.NodeIterator. symmetry. apply list_filter_filter_l.
    intros x Hx. by apply (bytes_ltb_above start k). }
  pose proof (take_drop_middle _ _ _ Hn) as Hmid.
  rewrite (drop_S _ _ _ Hn).
  set (before := take n (trie.NodeIterator st start)) in *.
  set (after := drop (S n) (trie.NodeIterator st start)) in *.
  rewrite <- Hmid in Hrange.
  transitivity (filter (fun leaf => trie.bytes_ltb leaf.1 k = false)
                       (before ++ (k, v) :: after)); [by rewrite Hmid|].
  clearbody before after. clear Hmid Hn.
  apply StronglySorted_app in Hrange as (Hcross & _ & Htail).
  apply StronglySorted_cons in Htail as [Hafter _].
  rewrite filter_app.
  assert (filter (fun leaf => trie.bytes_ltb leaf.1 k = false) before = []) as ->.
  { induction before as [|x l IHl]; [reflexivity|].
    rewrite filter_cons_False.
    - apply IHl. intros x1 x2 Hx1 Hx2. apply Hcross; [by right|exact Hx2].
    - intros Hx. pose proof (Hcross x (k, v)) as Hc. simpl in Hc.
      rewrite Hc in Hx; [discriminate|by left|by left]. }
  simpl. rewrite filter_cons_True by apply bytes_ltb_irrefl. f_equal.
  clear Hcross. induction after as [|y l IHl]; [reflexivity|].
  apply Forall_cons in Hafter as [Hy Hl].
  rewrite filter_cons_True; [by rewrite IHl|].
  simpl in Hy. destruct (trie.bytes_ltb y.1 k) eqn:Hyk; [|reflexivity].
  pose proof (bytes_ltb_trans k y.1 k Hy Hyk) as Hkk.
  by rewrite bytes_ltb_irrefl in Hkk.
Qed.

(** One page: the keys filed and the next key. *)
Lemma storageRangeAt_page st (start : bytes) (n : nat) :
  Forall decodable (trie.leaves st) ->
  exists r,
    storageRangeAt st start (Z.of_nat n) = Ok r
    /\ dom (Storage r) = filedKeys (take n (trie.NodeIterator st start))
    /\ NextKey r
       = (fun leaf => common.BytesToHash leaf.1) <$> trie.NodeIterator st start !! n.
Proof.
  intros Hdec.
  pose proof (NodeIterator_decodable st start Hdec) as Hrange.
  unfold storageRangeAt. rewrite Nat2Z.id.
  destruct (storageLoop_spec st n (trie.NewIterator (trie.NodeIterator st start))
              ∅ Hrange) as (it' & storage' & -> & Hdrop & Hdom & _).
  simpl in Hdrop, Hdom. simpl.
  rewrite dom_empty_L, (left_id_L ∅ (∪)) in Hdom.
  unfold trie.Next. rewrite Hdrop.
  destruct (drop n (trie.NodeIterator st start)) as [|[k v] rest] eqn:Hrest.
  - eexists. split; [reflexivity|]. simpl. split; [exact Hdom|].
    apply drop_nil_inv in Hrest.
    symmetry. apply fmap_None. by apply lookup_ge_None_2.
  - eexists. split; [reflexivity|]. simpl. split; [exact Hdom|].
    assert (trie.NodeIterator st start !! n = Some (k, v)) as ->; [|reflexivity].
    rewrite <- (Nat.add_0_r n), <- lookup_drop, Hrest. reflexivity.
Qed.

(** X20: the next key of a page is where the following page starts.  On a
    trie whose leaves are in key order under 32-byte keys and hold encoded
    items, a page of [n] entries from [start] that reports a next key,
    followed by a page of [m] entries from that key, serves what one page of
    [n + m] entries from [start] serves: the keys of the two pages together
    are the keys of the long page, no key is in both, and the second page
    ends on the next key of the long page. *)
Theorem storageRangeAt_paging st (start : bytes) (n m : nat)
    (r1 : StorageRangeResult) (next : common.Hash) :
  sortedTrie st ->
  hashedKeys st ->
  Forall decodable (trie.leaves st) ->
  storageRangeAt st start (Z.of_nat n) = Ok r1 ->
  NextKey r1 = Some next ->
  exists r2 r,
    storageRangeAt st next (Z.of_nat m) = Ok r2
    /\ storageRangeAt st start (Z.of_nat (n + m)) = Ok r
    /\ dom (Storage r) = dom (Storage r1) ∪ dom (Storage r2)
    /\ dom (Storage r1) ## dom (Storage r2)
    /\ NextKey r = NextKey r2.
Proof.
  intros Hsorted Hhashed Hdec Hfirst Hnext.
  set (range := trie.NodeIterator st start).
  assert (Forall (fun leaf => length leaf.1 = common.HashLength) range) as Hlen.
  { unfold range, trie.NodeIterator. rewrite Forall_forall. intros leaf Hin.
    apply list_elem_of_filter in Hin as [_ Hin].
    unfold hashedKeys in Hhashed. rewrite Forall_forall in Hhashed. by apply Hhashed. }
  destruct (storageRangeAt_page st start n Hdec) as (r1' & Hr1 & Hdom1 & Hnext1).
  rewrite Hfirst in Hr1. injection Hr1 as <-. fold range in Hdom1, Hnext1.
  rewrite Hnext in Hnext1.
  destruct (range !! n) as [[k v]|] eqn:Hn; [|discriminate].
  simpl in Hnext1. injection Hnext1 as ->.
  assert (common.BytesToHash k = k) as Hk.
  { apply BytesToHash_hash. rewrite Forall_forall in Hlen.
    apply (Hlen (k, v)). by apply list_elem_of_lookup_2 in Hn. }
  rewrite Hk.
  pose proof (NodeIterator_next st start n k v Hsorted Hn) as Hrest.
  fold range in Hrest.
  destruct (storageRangeAt_page st k m Hdec) as (r2 & Hr2 & Hdom2 & Hnext2).
  destruct (storageRangeAt_page st start (n + m) Hdec) as (r & Hr & Hdom & Hnext').
  fold range in Hdom, Hnext'. rewrite Hrest in Hdom2, Hnext2.
  exists r2, r. split; [exact Hr2|]. split; [exact Hr|].
  split; [|split].
  - rewrite Hdom, Hdom1, Hdom2. unfold filedKeys.
    by rewrite <- take_take_drop, fmap_app, list_to_set_app_L.
  - rewrite Hdom1, Hdom2. unfold filedKeys.
    intros hash Hin1 Hin2.
    apply elem_of_list_to_set, list_elem_of_fmap in Hin1 as (leaf1 & -> & Hin1).
    apply elem_of_list_to_set, list_elem_of_fmap in Hin2 as (leaf2 & Heq & Hin2).
    assert (leaf1 ∈ range) as Hr1 by (by apply (subseteq_take n)).
    assert (leaf2 ∈ drop n range) as Hd by (by apply (subseteq_take m)).
    assert (leaf2 ∈ range) as Hr2' by (by apply (subseteq_drop n)).
    rewrite Forall_forall in Hlen.
    rewrite !BytesToHash_hash in Heq by (by apply Hlen).
    pose proof (NodeIterator_sorted st start Hsorted) as Hrange. fold range in Hrange.
    rewrite <- (take_drop n range) in Hrange.
    apply StronglySorted_app in Hrange as (Hcross & _ & _).
    specialize (Hcross leaf1 leaf2 Hin1 Hd). simpl in Hcross.
    rewrite Heq, bytes_ltb_irrefl in Hcross. discriminate.
  - rewrite Hnext', Hnext2, lookup_drop. reflexivity.
Qed.

End StoragePages.

(** On the trie of the examples, a page of one entry followed by a page of
    one entry from its next key serves the page of two entries. *)
Lemma storageRangeAt_paging_witness :
  exists r1 next r2 r,
    debugapi.storageRangeAt pagedTrie [] 1 = Ok r1
    /\ debugapi.NextKey r1 = Some next
    /\ debugapi.storageRangeAt pagedTrie next 1 = Ok r2
    /\ debugapi.storageRangeAt pagedTrie [] 2 = Ok r
    /\ dom (debugapi.Storage r)
       = dom (debugapi.Storage r1) ∪ dom (debugapi.Storage r2)
    /\ debugapi.NextKey r = debugapi.NextKey r2.
Proof.
  assert (sortedTrie pagedTrie) as Hsorted.
  { unfold sortedTrie. repeat constructor. }
  assert (hashedKeys pagedTrie) as Hhashed.
  { unfold hashedKeys. repeat constructor. }
  assert (Forall decodable (trie.leaves pagedTrie)) as Hdec.
  { repeat constructor. }
  assert (exists r1, debugapi.storageRangeAt pagedTrie [] (Z.of_nat 1) = Ok r1
                     /\ debugapi.NextKey r1
                        = Some (replicate 31 Byte.x00 ++ [Byte.x22]))
    as (r1 & Hr1 & Hnext) by (eexists; split; vm_compute; reflexivity).
  destruct (storageRangeAt_paging pagedTrie [] 1 1 r1 _
              Hsorted Hhashed Hdec Hr1 Hnext)
    as (r2 & r & Hr2 & Hr & Hdom & _ & Hnext').
  exists r1, (replicate 31 Byte.x00 ++ [Byte.x22]), r2, r. by repeat split.
Defined.

(** ** The accounts modified between two blocks *)

Section Modified.

Context `{modified.StateCache}.

Import types modified.

(** The loop returns one address per leaf, after those it was given, or
    fails at the first leaf whose key has no known preimage. *)
Lemma dirtyLoop_spec (newTrie : trie.SecureTrie) (iter : list (bytes * bytes)) :
  forall dirty,
  match dirtyLoop newTrie iter dirty with
  | Ok found =>
      exists added,
        found = dirty ++ added
        /\ Forall2 (fun leaf address =>
                      exists key, trie.GetKey newTrie leaf.1 = Some key
                                  /\ address = BytesToAddress key) iter added
  | Err _ => Exists (fun leaf => trie.GetKey newTrie leaf.1 = None) iter
  end.
Proof.
  induction iter as [|[k v] iter IH]; intros dirty; simpl.
  - exists []. split; [by rewrite app_nil_r|constructor].
  - destruct (trie.GetKey newTrie k) as [key|] eqn:Hkey; [|by left].
    specialize (IH (dirty ++ [BytesToAddress key])).
    destruct (dirtyLoop newTrie iter (dirty ++ [BytesToAddress key])) as [found|msg].
    + destruct IH as (added & -> & Hadded). exists (BytesToAddress key :: added).
      split; [by rewrite <- app_assoc|]. constructor; [|exact Hadded].
      exists key. by split.
    + by right.
Qed.

Lemma getModifiedAccounts_ok (startBlock endBlock : Block) (dirty : list bytes) :
  getModifiedAccounts startBlock endBlock = Ok dirty ->
  modifiedBetween startBlock endBlock dirty.
Proof.
  unfold getModifiedAccounts, modifiedBetween.
  destruct (NumberU64 endBlock <=? NumberU64 startBlock)%Z eqn:Hheight;
    [discriminate|].
  apply Z.leb_gt in Hheight.
  destruct (NewSecure (Root (header startBlock))) as [oldTrie|]; [|discriminate].
  destruct (NewSecure (Root (header endBlock))) as [newTrie|]; [|discriminate].
  simpl. intros Hloop.
  pose proof (dirtyLoop_spec newTrie
                (NewDifferenceIterator (trie.NodeIterator oldTrie [])
                                       (trie.NodeIterator newTrie [])) [])
    as Hspec.
  rewrite Hloop in Hspec. destruct Hspec as (added & -> & Hadded).
  exists oldTrie, newTrie. by repeat split.
Qed.

(** X21: by number or by hash, a list of modified accounts is returned
    only for two stored blocks of which the first is lower than the second
    (with one argument: the parent of the block named and the block itself),
    whose state tries both open; it then holds one address per leaf of the
    difference of the two tries, in the order of the iteration, each the
    address of the preimage that the newer trie knows for the key of the
    leaf.  One missing preimage fails the whole call. *)
Theorem GetModifiedAccounts_ok (bc : core.BlockChain) (dirty : list bytes) :
  (forall (startNum : Z) (endNum : option Z),
     GetModifiedAccountsByNumber bc startNum endNum = Ok dirty ->
     exists startBlock endBlock,
       compared bc (core.GetBlockByNumber bc startNum)
                (core.GetBlockByNumber bc <$> endNum)
       = Some (startBlock, endBlock)
       /\ modifiedBetween startBlock endBlock dirty)
  /\ (forall (startHash : common.Hash) (endHash : option common.Hash),
        GetModifiedAccountsByHash bc startHash endHash = Ok dirty ->
        exists startBlock endBlock,
          compared bc (core.GetBlockByHash bc startHash)
                   (core.GetBlockByHash bc <$> endHash)
          = Some (startBlock, endBlock)
          /\ modifiedBetween startBlock endBlock dirty).
Proof.
  split.
  - intros startNum endNum.
    unfold GetModifiedAccountsByNumber, compared.
    destruct (core.GetBlockByNumber bc startNum) as [block|]; [|discriminate].
    destruct endNum as [endNum|]; simpl.
    + destruct (core.GetBlockByNumber bc endNum) as [endBlock|]; [|discriminate].
      intros Hok. exists block, endBlock. split; [reflexivity|].
      by apply getModifiedAccounts_ok.
    + destruct (core.GetBlockByHash bc (ParentHash (header block))) as [parent|];
        [|discriminate].
      intros Hok. exists parent, block. split; [reflexivity|].
      by apply getModifiedAccounts_ok.
  - intros startHash endHash.
    unfold GetModifiedAccountsByHash, compared.
    destruct (core.GetBlockByHash bc startHash) as [block|]; [|discriminate].
    destruct endHash as [endHash|]; simpl.
    + destruct (core.GetBlockByHash bc endHash) as [endBlock|]; [|discriminate].
      intros Hok. exists block, endBlock. split; [reflexivity|].
      by apply getModifiedAccounts_ok.
    + destruct (core.GetBlockByHash bc (ParentHash (header block))) as [parent|];
        [|discriminate].
      intros Hok. exists parent, block. split; [reflexivity|].
      by apply getModifiedAccounts_ok.
Qed.

End Modified.

(** On the example chain block 2 modifies two accounts; asked in the wrong
    direction the call fails. *)
Lemma GetModifiedAccounts_ok_witness :
  modified.GetModifiedAccountsByNumber example.chain2 2 None
  = Ok [[Byte.xa2]; [Byte.xa3]]
  /\ exists startBlock endBlock,
       types.NumberU64 startBlock = 1%Z /\ types.NumberU64 endBlock = 2%Z
       /\ modified.compared example.chain2
            (core.GetBlockByNumber example.chain2 2) None
          = Some (startBlock, endBlock).
Proof.
  assert (modified.GetModifiedAccountsByNumber example.chain2 2 None
          = Ok [[Byte.xa2]; [Byte.xa3]]) as Hok by (vm_compute; reflexivity).
  split; [exact Hok|].
  destruct (proj1 (GetModifiedAccounts_ok example.chain2 _) 2%Z None Hok)
    as (startBlock & endBlock & Hcompared & _).
  exists startBlock, endBlock. split; [|split; [|exact Hcompared]].
  - vm_compute in Hcompared. by injection Hcompared as <- <-.
  - vm_compute in Hcompared. by injection Hcompared as <- <-.
Defined.

(** ** Decoding: what reaches the decoder *)

Section Unpack.

Context {W M : Type} `{abidecode.ArgUnpacker W M}.

Import abidecode.

(** X5: [Unpack] and [UnpackIntoMap] refuse empty data whatever the name,
    and hand the data to the decoder of the arguments only in two cases: the
    name is a mbtpod and the length of the data is a multiple of 32 (the
    outputs are decoded), or the name is no mbtpod but an event (its inputs
    are decoded, whatever the length); a name that is both is decoded as a
    mbtpod.  Their result is then the decoder's. *)
Theorem Unpack_decodes (a : abi.ABI) (v : M) (name : string) (data : bytes) :
  (data = [] ->
   Unpack a name data = Err "abi: unmarshalling empty output"
   /\ UnpackIntoMap a v name data = Err "abi: unmarshalling empty output")
  /\ (forall w, Unpack a name data = Ok w ->
        data <> []
        /\ match abi.Mbtpods a !! name with
           | Some mbtpod =>
               length data mod 32 = 0
               /\ Arguments_Unpack (abi.Outputs mbtpod) data = Ok w
           | None =>
               exists event, abi.Events a !! name = Some event
                             /\ Arguments_Unpack (abi.ev_Inputs event) data = Ok w
           end)
  /\ (forall filled, UnpackIntoMap a v name data = Ok filled ->
        data <> []
        /\ match abi.Mbtpods a !! name with
           | Some mbtpod =>
               length data mod 32 = 0
               /\ Arguments_UnpackIntoMap (abi.Outputs mbtpod) v data = Ok filled
           | None =>
               exists event,
                 abi.Events a !! name = Some event
                 /\ Arguments_UnpackIntoMap (abi.ev_Inputs event) v data = Ok filled
           end)
  /\ (data <> [] -> abi.Mbtpods a !! name = None -> abi.Events a !! name = None ->
      Unpack a name data = Err "abi: could not locate named mbtpod or event"
      /\ UnpackIntoMap a v name data
         = Err "abi: could not locate named mbtpod or event").
Proof.
  unfold Unpack, UnpackIntoMap. split; [|split; [|split]].
  - intros ->. by split.
  - intros w. case_decide as Hlen; [discriminate|].
    intros Hok. split; [by intros ->|].
    destruct (abi.Mbtpods a !! name) as [mbtpod|].
    + case_decide as Hmod; [discriminate|]. split; [lia|exact Hok].
    + destruct (abi.Events a !! name) as [event|]; [|discriminate]. by exists event.
  - intros filled. case_decide as Hlen; [discriminate|].
    intros Hok. split; [by intros ->|].
    destruct (abi.Mbtpods a !! name) as [mbtpod|].
    + case_decide as Hmod; [discriminate|]. split; [lia|exact Hok].
    + destruct (abi.Events a !! name) as [event|]; [|discriminate]. by exists event.
  - intros Hdata Hmbtpod Hevent.
    rewrite !decide_False by (by destruct data). by rewrite Hmbtpod, Hevent.
Qed.

End Unpack.

(** ** The database version, once checked *)

Section VersionCheck.

Context `{btp.Backend}.

(** X15: the version check of [New] is needed once: on the database a
    successful check leaves, the same check succeeds again and writes
    nothing.  Unless the check is skipped, that database holds the supported
    version; a skipped check leaves the database as it is. *)
Theorem checkDatabaseVersion_again (config : btp.Config) (db db1 : rawdb.Database)
    (h1 : list btp.Event) :
  btp.checkDatabaseVersion config db = Ok (db1, h1) ->
  btp.checkDatabaseVersion config db1 = Ok (db1, [])
  /\ (if btp.SkipBcVersionCheck config
      then db1 = db /\ h1 = []
      else rawdb.ReadDatabaseVersion db1 = Some btp.BlockChainVersion).
Proof.
  unfold btp.checkDatabaseVersion.
  destruct (btp.SkipBcVersionCheck config); simpl.
  - intros [= <- <-]. by split.
  - destruct (rawdb.ReadDatabaseVersion db) as [v|] eqn:Hstored.
    + destruct (btp.BlockChainVersion <? v)%Z eqn:Hnewer; [discriminate|].
      destruct (v <? btp.BlockChainVersion)%Z eqn:Holder; intros [= <- <-]; simpl.
      * rewrite Z.ltb_irrefl. by split.
      * rewrite Hstored, Hnewer, Holder. split; [reflexivity|].
        apply Z.ltb_ge in Hnewer, Holder. f_equal. lia.
    + intros [= <- <-]. simpl. rewrite Z.ltb_irrefl. by split.
Qed.

End VersionCheck.

(** A database of version 6 is upgraded by the first check and left alone
    by the second. *)
Lemma checkDatabaseVersion_again_witness :
  exists db1,
    btp.checkDatabaseVersion (example.withSyncMode downloader.FastSync None)
                             (example.database (Some 6%Z))
    = Ok (db1, [btp.EvWriteDatabaseVersion 7])
    /\ btp.checkDatabaseVersion (example.withSyncMode downloader.FastSync None) db1
       = Ok (db1, []).
Proof.
  eexists. split; [vm_compute; reflexivity|].
  refine (proj1 (checkDatabaseVersion_again
                   (example.withSyncMode downloader.FastSync None)
                   (example.database (Some 6%Z)) _ _ _)).
  vm_compute. reflexivity.
Defined.

(** ** The pending transactions of the pool *)

Section PoolTransactions.

Context {T : Type}.

Import apibackend.

Lemma GetPoolTransactions_join (order : list (bytes * list T)) : forall txs,
  fold_left (fun txs entry => txs ++ entry.2) order txs = txs ++ mjoin (snd <$> order).
Proof.
  induction order as [|entry order IH]; intros txs; simpl.
  - by rewrite app_nil_r.
  - rewrite IH. by rewrite <- app_assoc.
Qed.

(** X22: whatever the order in which the loop visits the accounts,
    [GetPoolTransactions] returns every pending transaction of every
    account and nothing else, as many as the batches hold together, and the
    batch of each account in one piece, in the order [Pending] gave it: only
    the order between accounts is open. *)
Theorem GetPoolTransactions_batches (m : gmap bytes (list T))
    (order : list (bytes * list T)) :
  visits m order ->
  exists txs,
    GetPoolTransactions (Ok order) = Ok txs
    /\ (forall account batch, m !! account = Some batch ->
          exists before after, txs = before ++ batch ++ after)
    /\ (forall tx, tx ∈ txs <-> exists account batch, m !! account = Some batch /\ tx ∈ batch)
    /\ length txs = sum_list_with (fun entry => length entry.2) (map_to_list m).
Proof.
  unfold visits. intros Horder. eexists. split; [reflexivity|].
  rewrite GetPoolTransactions_join. simpl. repeat split.
  - intros account batch Hlookup.
    apply elem_of_map_to_list in Hlookup. rewrite <- Horder in Hlookup.
    apply list_elem_of_split in Hlookup as (o1 & o2 & ->).
    exists (mjoin (snd <$> o1)), (mjoin (snd <$> o2)).
    by rewrite fmap_app, join_app.
  - intros Hin. apply list_elem_of_join in Hin as (batch & Hin & Hbatch).
    apply list_elem_of_fmap in Hbatch as ([account batch'] & -> & Hentry).
    rewrite Horder in Hentry. apply elem_of_map_to_list in Hentry.
    by exists account, batch'.
  - intros (account & batch & Hlookup & Hin).
    apply list_elem_of_join. exists batch. split; [exact Hin|].
    apply list_elem_of_fmap. exists (account, batch). split; [reflexivity|].
    rewrite Horder. by apply elem_of_map_to_list.
  - rewrite <- Horder. clear Horder.
    induction order as [|entry order IH]; [reflexivity|].
    change (mjoin (snd <$> entry :: order)) with (entry.2 ++ mjoin (snd <$> order)).
    change (sum_list_with (fun e : bytes * list T => length e.2) (entry :: order))
      with (length entry.2
            + sum_list_with (fun e : bytes * list T => length e.2) order).
    by rewrite length_app, IH.
Qed.

End PoolTransactions.

(** Two accounts, with two pending transactions and one. *)
Lemma GetPoolTransactions_batches_witness :
  let m : gmap bytes (list nat) := {[ [Byte.x01] := [10; 11]; [Byte.x02] := [20] ]} in
  exists txs,
    apibackend.GetPoolTransactions (Ok (map_to_list m)) = Ok txs
    /\ length txs = 3
    /\ exists before after, txs = before ++ [10; 11] ++ after.
Proof.
  intros m.
  assert (apibackend.visits m (map_to_list m)) as Hvisits
    by (unfold apibackend.visits; reflexivity).
  destruct (GetPoolTransactions_batches m (map_to_list m) Hvisits)
    as (txs & Hget & Hbatch & _ & Hlength).
  exists txs. split; [exact Hget|]. split.
  - rewrite Hlength. vm_compute. reflexivity.
  - apply (Hbatch [Byte.x01]). vm_compute. reflexivity.
Defined.

(** ** The name a clashing entry gets *)

Section FreshNameLeast.

Context {X : Type}.
Implicit Types (m : gmap string X) (base name : string).

(** The loop stops at once on a name that is free. *)
Lemma freshName_loop_stop m base fuel idx name :
  m !! name = None -> abi.freshName_loop m base fuel idx name = name.
Proof. intros Hfree. destruct fuel; simpl; by rewrite Hfree. Qed.

(** From a taken name the loop goes on to the first numbered name that is
    free, when its fuel reaches that far. *)
Lemma freshName_loop_least m base fuel : forall idx name j,
  is_Some (m !! name) ->
  idx <= j < idx + fuel ->
  m !! (base +:+ pretty j) = None ->
  (forall i, idx <= i < j -> is_Some (m !! (base +:+ pretty i))) ->
  abi.freshName_loop m base fuel idx name = base +:+ pretty j.
Proof.
  induction fuel as [|fuel IH]; intros idx name j [x Hname] Hj Hfree Hbelow; [lia|].
  simpl. rewrite Hname.
  destruct (decide (j = idx)) as [->|Hne].
  - by apply freshName_loop_stop.
  - apply IH; [apply Hbelow; lia|lia|exact Hfree|].
    intros i Hi. apply Hbelow. lia.
Qed.

(** Below a free numbered name there is a first one. *)
Lemma first_free_name m base (n : nat) :
  m !! (base +:+ pretty n) = None ->
  exists j, j <= n /\ m !! (base +:+ pretty j) = None
            /\ forall i, i < j -> is_Some (m !! (base +:+ pretty i)).
Proof.
  induction n as [n IH] using lt_wf_ind. intros Hfree.
  destruct (decide (Forall (fun i => is_Some (m !! (base +:+ pretty i))) (seq 0 n)))
    as [Hall|Hsome].
  - exists n. split; [lia|]. split; [exact Hfree|].
    intros i Hi. rewrite Forall_forall in Hall. apply Hall, elem_of_seq. lia.
  - apply not_Forall_Exists in Hsome; [|intros i; apply _].
    apply Exists_exists in Hsome as (k & Hk & Hnone).
    apply elem_of_seq in Hk. apply eq_None_not_Some in Hnone.
    destruct (IH k ltac:(lia) Hnone) as (j & Hj & Hjfree & Hbelow).
    exists j. split; [lia|]. by split.
Qed.

(** X1: the renaming loop of [UnmarshalJSON] always ends, on a name that is
    not yet a key: the entry keeps its own name when that is free, and
    otherwise gets the name followed by the smallest number, counted from 0,
    that gives a free name; a map of [n] keys makes it try at most the
    numbers up to [n]. *)
Theorem freshName_least m base :
  m !! abi.freshName m base = None
  /\ match m !! base with
     | None => abi.freshName m base = base
     | Some _ =>
         exists j,
           abi.freshName m base = base +:+ pretty j
           /\ j <= size m
           /\ forall i, i < j -> is_Some (m !! (base +:+ pretty i))
     end.
Proof.
  split; [apply freshName_free|].
  destruct (m !! base) as [x|] eqn:Hbase.
  - destruct (numbered_name_free m base) as (n & Hn & Hfree).
    destruct (first_free_name m base n Hfree) as (j & Hj & Hjfree & Hbelow).
    exists j. split; [|split; [lia|exact Hbelow]].
    unfold abi.freshName. apply freshName_loop_least; [by exists x|lia|exact Hjfree|].
    intros i Hi. apply Hbelow. lia.
  - unfold abi.freshName. by apply freshName_loop_stop.
Qed.

End FreshNameLeast.

(** On the interface of the tests a second [send] becomes [send0]; after
    three of them the next one is [send2]; a new name is kept. *)
Example freshName_example :
  let a := abi.UnmarshalJSON (abitest.mbtpoddata
                                ++ [abitest.function "send" false [] [];
                                    abitest.function "send" false [] []]) in
  abi.freshName (abi.Mbtpods (abi.UnmarshalJSON abitest.mbtpoddata)) "send" = "send0"
  /\ abi.freshName (abi.Mbtpods a) "send" = "send2"
  /\ abi.freshName (abi.Mbtpods a) "receive" = "receive".
Proof. vm_compute. repeat split. Qed.

(** ** The gas price of the service and the minimum price of the pool *)

Section GasPrice.

Import service.

Context `{Accounts}.

Implicit Types (s : btp.btpereum) (wallets : Wallets).

(** X23: the miner API keeps the pool's minimum price equal to the gas
    price of the service once it has been set: [SetGasPrice] makes them
    equal, whatever the price (no price is refused or replaced), and so does
    [StartMining] on an idle miner; [Start] of the miner API with or without
    a thread count, [StartMining], [StopMining], [Setbtperbase] and
    [btperbase] keep them equal. *)
Theorem pricePropagated_kept s wallets (price threads numCPU : Z)
    (count : option Z) (address : bytes) :
  (let '(s', done) := PrivateMinerAPI_SetGasPrice s price in
   done = true /\ btp.gasPrice s' = price /\ pricePropagated s')
  /\ (IsMining s = false -> pricePropagated (StartMining wallets s threads).1.1)
  /\ (pricePropagated s ->
      pricePropagated (StartMining wallets s threads).1.1
      /\ pricePropagated (PrivateMinerAPI_Start numCPU wallets s count).1.1
      /\ pricePropagated (StopMining s)
      /\ pricePropagated (Setbtperbase s address)
      /\ pricePropagated (btperbase wallets s).1).
Proof.
  assert (forall s0 n, (IsMining s0 = false \/ pricePropagated s0) ->
                       pricePropagated (StartMining wallets s0 n).1.1) as Hstart.
  { intros s0 n Hs0. unfold StartMining, pricePropagated in *.
    set (s1 := if threaded (btp.engine s0) then _ else s0).
    assert (btp.miner s1 = btp.miner s0 /\ btp.txPool s1 = btp.txPool s0
            /\ btp.gasPrice s1 = btp.gasPrice s0) as (Hminer & Hpool & Hprice).
    { unfold s1. by destruct (threaded (btp.engine s0)). }
    clearbody s1. unfold IsMining in *. rewrite Hminer.
    destruct (miner.mining (btp.miner s0)) eqn:Hmining; simpl.
    - destruct Hs0 as [Hidle|Hkept]; [discriminate|]. by rewrite Hpool, Hprice.
    - set (s2 := withTxPool s1 _).
      pose proof (btperbase_state wallets s2) as Hstate.
      destruct (btperbase wallets s2) as [s3 [eb|msg]]; subst s3; [|reflexivity].
      change (btp.engine (withBtperbase s2 eb)) with (btp.engine s1).
      destruct (btp.engine s1); try reflexivity.
      by destruct (Find wallets eb). }
  split; [by repeat split|]. split; [intros Hidle; apply Hstart; by left|].
  intros Hkept. split; [apply Hstart; by right|].
  split; [destruct count; apply Hstart; by right|].
  split; [unfold StopMining; by destruct (threaded (btp.engine s))|].
  split; [exact Hkept|].
  pose proof (btperbase_state wallets s) as Hstate.
  by destruct (btperbase wallets s) as [s' [eb|msg]]; subst s'.
Qed.

End GasPrice.
